(** * SequenceAnalyzer: the pattern-recognition engine of Echo Chamber

    A shallow embedding of [class SequenceAnalyzer] (src/SequenceAnalyzer.js
    in the repository) and the properties its design document states about
    it.

    - Numbers.  JavaScript numbers are IEEE 754 binary64 values, so they are
      Rocq's primitive [float]s: [+], [-], [*], [/], [Math.abs], [===] and
      [<] are the primitive operations, with overflow to the infinities,
      [NaN] and the two zeros.  What is proved for all numbers rests on the
      specification of these operations ([FloatAxioms]).  Array lengths,
      the loop level and the integer constants 0, 50, 95 and 100 are [nat]
      and [Z].
    - Inputs.  A caller of the class can pass any value: a number ([NaN]
      and the infinities included), a string, [undefined], an array with
      empty slots, a boxed number, a [BigInt], an object, an array that
      contains itself.  [analyze] prints its argument with
      [JSON.stringify] and looks the text up in the cache before it
      validates anything, so what it answers depends on what the argument
      prints as, and for some arguments printing raises.  The web server
      passes what it has parsed from the request text ([plain]).
    - State.  The fields of an analyzer (history, metrics, cache) are passed
      in and out of every call.  Result objects are never written to after
      they are built, so they are values.
    - Exceptions.  A method that can raise a [TypeError] returns a
      [completion]; the state that a raising call leaves behind is
      [state_after].
    - Environment.  The clock ([performance.now()], [new Date()]) is an
      input of each call.
    - Left out.  The [formula] and [explanation] texts of a result are
      display strings built with number formatting; the records do not
      carry them (the one place where building them can raise is kept).
    - Around the engine.  [class Logger] and the route handlers of the web
      server that call the engine are embedded after it ([Logger],
      [Server]); the command-line interface and the browser client, which
      read text and draw, are not. *)

From Stdlib Require Import ZArith List Bool Ascii String Lia.
From Stdlib Require Import Floats.
Import ListNotations.

Set Warnings "-inexact-float,-register-all".

(* ================================================================== *)
(** ** JavaScript values and the built-ins the engine calls *)

Module JS.

(** Outcome of evaluating code that may raise. *)
Inductive completion (A : Type) : Type :=
| Normal (a : A)
| Throw (e : string).
Arguments Normal {A} a.
Arguments Throw {A} e.

(** The text produced by [JSON.stringify], kept as its syntax tree: two
    values print the same text exactly when their trees are equal.  A
    finite number prints its shortest round-trip decimal, which identifies
    the double except that [-0] prints as [0]; non-finite numbers, and
    [undefined] and empty slots inside an array, print as [null].  The
    text of an object, which starts with a brace and so differs from
    every other text, is kept as it is. *)
Inductive json : Type :=
| JsonNull
| JsonBool (b : bool)
| JsonNum (x : float)
| JsonStr (s : string)
| JsonArr (l : list json)
| JsonObj (text : string).

(** The values a caller can hand to the engine.

    - [VHole] is an empty slot of an array, as in [[1, ,3]] or
      [new Array(5)]: it counts in [length], reads as [undefined], is
      skipped by [every] and [some], and prints as [null].  It occurs as
      an element of an array only; on its own it is [undefined].
    - [VObject] is any value that is neither an array nor of one of the
      types above: a plain object, a boxed primitive such as
      [new Number(4)], a [Date], a function, a symbol, a [BigInt].  The
      engine does nothing with such a value but test [Array.isArray]
      (false) and [typeof] (never ['number']) and hand it to
      [JSON.stringify], so the value is given by what [JSON.stringify]
      does with it: it raises (a [BigInt], an object that contains
      itself), prints nothing (a function, a symbol) or prints a text (a
      boxed number prints its number).  An array that contains itself is
      an array with an element whose printing raises.
    - [VArray] is an ordinary array, with the built-in prototype and no
      [toJSON] of its own: it prints its elements. *)
Inductive value : Type :=
| VUndefined
| VNull
| VBoolean (b : bool)
| VNumber (x : float)
| VString (s : string)
| VArray (l : list value)
| VHole
| VObject (printed : completion (option json)).

Definition bind {A B} (c : completion A) (k : A -> completion B) : completion B :=
  match c with
  | Normal a => k a
  | Throw e => Throw e
  end.

Local Notation "x <- c ;; k" := (bind c (fun x => k))
  (at level 61, c at next level, right associativity).

(** [x === y] on numbers: [NaN] differs from itself, [+0 === -0]. *)
Definition strict_eq (x y : float) : bool := (x =? y)%float.

(** Global [isNaN] and [isFinite], applied to numbers. *)
Definition isNaN (x : float) : bool := negb (x =? x)%float.
Definition isFinite (x : float) : bool := (abs x <? infinity)%float.

(** Vocabulary for the statements: a zero of either sign, a number that is
    not [NaN], and two numbers that are the same up to the sign of zero
    (the numbers [JSON.stringify] and [===] cannot tell apart). *)
Definition is_zero (x : float) : bool := (x =? 0)%float.
Definition not_nan (x : float) : Prop := (x =? x)%float = true.
Definition zeq (x y : float) : Prop :=
  x = y \/ (is_zero x = true /\ is_zero y = true).

(** Reading [a[a.length - 1]] and using it as an operand: an empty array
    gives [undefined], which arithmetic turns into [NaN]. *)
Definition last_operand (a : list float) : float := last a nan.

(** Exact conversion of an integer of magnitude at most 2^53. *)
Definition of_Z (n : Z) : float :=
  match n with
  | Zneg p => (- of_uint63 (Uint63.of_Z (Zpos p)))%float
  | _ => of_uint63 (Uint63.of_Z n)
  end.

(** [Math.round]: the nearest integer, ties towards +infinity; zeros,
    infinities, [NaN] and integral values are returned as they are, and a
    negative argument that rounds to zero gives [-0]. *)
Definition Math_round (x : float) : float :=
  match Prim2SF x with
  | S754_finite s m (Zneg k) =>
      let q := Z.shiftr (Zpos m) (Zpos k) in
      let r := (Zpos m - Z.shiftl q (Zpos k))%Z in
      let half := Z.shiftl 1 (Zpos k - 1) in
      if s then
        let n := if (half <? r)%Z then (q + 1)%Z else q in
        (- of_Z n)%float
      else
        of_Z (if (half <=? r)%Z then (q + 1)%Z else q)
  | _ => x
  end.

Definition number_token (x : float) : json :=
  if isFinite x then JsonNum (if (x =? 0)%float then 0%float else x)
  else JsonNull.

(** The text of a value inside an array; what prints nothing on its own
    prints [null] there.  The elements are printed in order, and the
    first one that raises ends the printing. *)
Fixpoint serialize (v : value) : completion json :=
  match v with
  | VUndefined => Normal JsonNull
  | VNull => Normal JsonNull
  | VBoolean b => Normal (JsonBool b)
  | VNumber x => Normal (number_token x)
  | VString s => Normal (JsonStr s)
  | VArray l =>
      texts <-
        (fix elements (l : list value) : completion (list json) :=
           match l with
           | [] => Normal []
           | e :: rest =>
               text <- serialize e ;;
               texts <- elements rest ;;
               Normal (text :: texts)
           end) l ;;
      Normal (JsonArr texts)
  | VHole => Normal JsonNull
  | VObject printed =>
      text <- printed ;;
      Normal (match text with Some j => j | None => JsonNull end)
  end.

(** [JSON.stringify(v)]; the result is [undefined] for [undefined], a
    function or a symbol, and the call raises a [TypeError] for a
    [BigInt] or a structure that contains itself. *)
Definition JSON_stringify (v : value) : completion (option json) :=
  match v with
  | VUndefined => Normal None
  | VHole => Normal None
  | VObject printed => printed
  | _ => text <- serialize v ;; Normal (Some text)
  end.

(** Values used in the statements: [new Number(x)], a [BigInt], and an
    array that holds itself after the elements [l]. *)
Definition boxed_number (x : float) : value :=
  VObject (Normal (Some (number_token x))).

Definition bigint : value :=
  VObject (Throw "TypeError: Do not know how to serialize a BigInt").

Definition cyclic_array (l : list value) : value :=
  VArray (l ++ [VObject (Throw "TypeError: Converting circular structure to JSON")]).

(** [a.every(f)] and [a.some(f)] on an array with its empty slots. *)
Definition every (f : value -> bool) (a : list value) : bool :=
  forallb (fun e => match e with VHole => true | _ => f e end) a.

Definition some (f : value -> bool) (a : list value) : bool :=
  existsb (fun e => match e with VHole => false | _ => f e end) a.

(** Equality of two serialized texts. *)
Fixpoint json_eqb (a b : json) : bool :=
  match a, b with
  | JsonNull, JsonNull => true
  | JsonBool x, JsonBool y => Bool.eqb x y
  | JsonNum x, JsonNum y => PrimFloat.Leibniz.eqb x y
  | JsonStr x, JsonStr y => String.eqb x y
  | JsonArr l, JsonArr l' =>
      (fix all2 (l l' : list json) : bool :=
         match l, l' with
         | [], [] => true
         | x :: r, y :: r' => json_eqb x y && all2 r r'
         | _, _ => false
         end) l l'
  | JsonObj x, JsonObj y => String.eqb x y
  | _, _ => false
  end.

(** Map keys are compared by value ([undefined] is a legal key). *)
Definition key : Type := option json.

Definition key_eqb (a b : key) : bool :=
  match a, b with
  | None, None => true
  | Some x, Some y => json_eqb x y
  | _, _ => false
  end.

(** A [Map]: entries in insertion order, at most one per key when built
    with [Map_set] from the empty map. *)
Definition Map (V : Type) : Type := list (key * V).

Definition Map_has {V} (m : Map V) (k : key) : bool :=
  existsb (fun e => key_eqb (fst e) k) m.

Definition Map_get {V} (m : Map V) (k : key) : option V :=
  option_map snd (find (fun e => key_eqb (fst e) k) m).

Fixpoint Map_set {V} (m : Map V) (k : key) (v : V) : Map V :=
  match m with
  | [] => [(k, v)]
  | e :: r => if key_eqb (fst e) k then (fst e, v) :: r else e :: Map_set r k v
  end.

Definition Map_size {V} (m : Map V) : nat := List.length m.

End JS.

Import JS.

Notation "x <- c ;; k" := (JS.bind c (fun x => k))
  (at level 61, c at next level, right associativity).

(* ================================================================== *)
(** ** The analyzer *)

Module SequenceAnalyzer.

Inductive patternName : Type :=
| arithmetic | geometric | polynomial | fibonacci | unknown.

Definition patternName_eqb (p q : patternName) : bool :=
  match p, q with
  | arithmetic, arithmetic | geometric, geometric | polynomial, polynomial
  | fibonacci, fibonacci | unknown, unknown => true
  | _, _ => false
  end.

(** The object a [detect...] method returns.  A field that the object does
    not carry is [None]; [det_pattern = None] is [pattern: null]. *)
Record detection : Type := mkDetection {
  det_pattern : option patternName;
  det_confidence : option Z;
  det_commonDifference : option float;
  det_commonRatio : option float;
  det_degree : option nat;
  det_constantDifference : option float;
  det_nextNumbers : option (list value)
}.

(** [{ pattern: null }] *)
Definition no_pattern : detection :=
  mkDetection None None None None None None None.

(** The object [analyze] returns.  A property the object does not have
    (reads as [undefined]) is [None]. *)
Record analysis : Type := mkAnalysis {
  success : bool;
  error : option string;
  sequence : value;
  sequenceLength : option nat;
  pattern : option patternName;
  confidence : option Z;
  commonDifference : option float;
  commonRatio : option float;
  degree : option nat;
  constantDifference : option float;
  nextNumbers : option (list value);
  analysisTime : option float;
  timestamp : option string
}.

Record metrics : Type := mkMetrics {
  totalAnalyses : float;
  averageAnalysisTime : float;
  cacheHits : float
}.

(** The fields of a [SequenceAnalyzer] instance. *)
Record state : Type := mkState {
  history : list analysis;
  performanceMetrics : metrics;
  analysisCache : Map analysis
}.

(** [constructor()] *)
Definition constructor : state :=
  mkState [] (mkMetrics 0 0 0) [].

(** The readings a call to [analyze] takes from its environment:
    [performance.now()] on entry and before the result is built, and
    [new Date().toISOString()]. *)
Record clock : Type := mkClock {
  startTime : float;
  endTime : float;
  isoString : string
}.

(** *** Helpers *)

(** [calculateDifferences(sequence)] *)
Fixpoint calculateDifferences (sequence : list float) : list float :=
  match sequence with
  | prev :: ((cur :: _) as rest) => (cur - prev)%float :: calculateDifferences rest
  | _ => []
  end.

(** [sequence[sequence.length - 2]] as an operand. *)
Definition second_last_operand (a : list float) : float :=
  match rev a with
  | _ :: x :: _ => x
  | _ => nan
  end.

(** *** Predictors *)

Fixpoint arithmetic_loop (count : nat) (last difference : float) : list float :=
  match count with
  | O => []
  | S count' =>
      let last := (last + difference)%float in
      last :: arithmetic_loop count' last difference
  end.

(** [predictArithmetic(sequence, count)] *)
Definition predictArithmetic (sequence : list float) (count : nat) : list float :=
  let differences := calculateDifferences sequence in
  let difference := hd nan differences in
  arithmetic_loop count (last_operand sequence) difference.

Fixpoint geometric_loop (count : nat) (last ratio : float) : list float :=
  match count with
  | O => []
  | S count' =>
      let last := (last * ratio)%float in
      (Math_round (last * 10000) / 10000)%float :: geometric_loop count' last ratio
  end.

(** [predictGeometric(sequence, count)] *)
Definition predictGeometric (sequence : list float) (count : nat) : list float :=
  let ratio := (last_operand sequence / second_last_operand sequence)%float in
  geometric_loop count (last_operand sequence) ratio.

Fixpoint fibonacci_loop (count : nat) (a b : float) : list float :=
  match count with
  | O => []
  | S count' =>
      let next := (a + b)%float in
      next :: fibonacci_loop count' b next
  end.

(** [predictFibonacci(sequence, count)] *)
Definition predictFibonacci (sequence : list float) (count : nat) : list float :=
  fibonacci_loop count (second_last_operand sequence) (last_operand sequence).

(** [diffTable[i] = row] for an existing row [i]. *)
Fixpoint set_row (diffTable : list (list float)) (i : nat) (row : list float)
  : list (list float) :=
  match diffTable, i with
  | [], _ => []
  | _ :: rest, O => row :: rest
  | r :: rest, S i' => r :: set_row rest i' row
  end.

(** The loop [for (i = 0; i <= level; i++)] that builds the difference
    table; [todo] is the number of iterations left. *)
Fixpoint build_table (todo : nat) (diffTable : list (list float)) : list (list float) :=
  match todo with
  | O => diffTable
  | S todo' =>
      let diffs := calculateDifferences (last diffTable []) in
      match diffs with
      | [] => diffTable
      | _ => build_table todo' (diffTable ++ [diffs])
      end
  end.

(** The loop [for (i = level - 1; i >= 0; i--)]; [upper] is [i + 1]. *)
Fixpoint work_back_up (upper : nat) (diffTable : list (list float)) : list (list float) :=
  match upper with
  | O => diffTable
  | S i =>
      let prevLast := last_operand (nth i diffTable []) in
      let diffLast := last_operand (nth (S i) diffTable []) in
      work_back_up i (set_row diffTable i (nth i diffTable [] ++ [(prevLast + diffLast)%float]))
  end.

(** The loop [for (p = 0; p < count; p++)].  When [diffTable[level]] is
    missing, the [else] branch calls [push] on [undefined]. *)
Fixpoint extend_rows (count level : nat) (constantDiff : float)
  (diffTable : list (list float)) : completion (list float) :=
  match count with
  | O => Normal []
  | S count' =>
      match nth_error diffTable level with
      | None => Throw "TypeError: Cannot read properties of undefined (reading 'push')"
      | Some row =>
          let row' :=
            match row with
            | [] => [constantDiff]
            | _ => row ++ [last row nan]
            end in
          let diffTable := work_back_up level (set_row diffTable level row') in
          let nextNum := last_operand (nth 0 diffTable []) in
          predictions <- extend_rows count' level constantDiff diffTable ;;
          Normal (nextNum :: predictions)
      end
  end.

(** [predictPolynomial(sequence, level, constantDiff, count)] *)
Definition predictPolynomial (sequence : list float) (level : nat)
  (constantDiff : float) (count : nat) : completion (list float) :=
  let diffTable := build_table (S level) [sequence] in
  extend_rows count level constantDiff diffTable.

(** *** Detectors *)

(** [detectArithmetic(sequence)] *)
Definition detectArithmetic (sequence : list float) : detection :=
  let differences := calculateDifferences sequence in
  if forallb (fun d => strict_eq d (hd nan differences)) differences then
    mkDetection (Some arithmetic) (Some 100%Z) (hd_error differences) None None None
      (Some (map VNumber (predictArithmetic sequence 5)))
  else no_pattern.

Fixpoint ratios_loop (sequence : list float) : list float :=
  match sequence with
  | prev :: ((cur :: _) as rest) => (cur / prev)%float :: ratios_loop rest
  | _ => []
  end.

(** [detectGeometric(sequence)].  With no ratio at all, [firstRatio] is
    [undefined] and [firstRatio.toFixed(4)] raises. *)
Definition detectGeometric (sequence : list float) : completion detection :=
  if existsb (fun n => strict_eq n 0) sequence then Normal no_pattern
  else
    let ratios := ratios_loop sequence in
    let tolerance := 0.0001%float in
    let isGeometric :=
      forallb (fun r => (abs (r - hd nan ratios) <? tolerance)%float) ratios in
    if isGeometric then
      match hd_error ratios with
      | None => Throw "TypeError: Cannot read properties of undefined (reading 'toFixed')"
      | Some firstRatio =>
          Normal (mkDetection (Some geometric) (Some 100%Z) None (Some firstRatio) None None
                    (Some (map VNumber (predictGeometric sequence 5))))
      end
    else Normal no_pattern.

(** The loop [while (level < maxLevels)]; [fuel] is [maxLevels - level]. *)
Fixpoint polynomial_loop (fuel : nat) (sequence differences : list float) (level : nat)
  : completion detection :=
  match fuel with
  | O => Normal no_pattern
  | S fuel' =>
      let nextDiffs := calculateDifferences differences in
      match nextDiffs with
      | [] => Normal no_pattern
      | first :: _ =>
          if forallb (fun d => strict_eq d first) nextDiffs then
            let degree := (level + 1)%nat in
            predictions <- predictPolynomial sequence level first 5 ;;
            Normal (mkDetection (Some polynomial) (Some 95%Z) None None (Some degree)
                      (Some first) (Some (map VNumber predictions)))
          else polynomial_loop fuel' sequence nextDiffs (S level)
      end
  end.

(** [detectPolynomial(sequence)] *)
Definition detectPolynomial (sequence : list float) : completion detection :=
  polynomial_loop 5 sequence sequence 0.

(** The loop of [detectFibonacci]: the value of [matchCount] when the loop
    ends, either at the end of the sequence or at the first mismatch. *)
Fixpoint fibonacci_matchCount (sequence : list float) : nat :=
  match sequence with
  | a :: ((b :: c :: _) as rest) =>
      if (abs (c - (b + a)) <? 0.0001)%float then S (fibonacci_matchCount rest) else O
  | _ => O
  end.

(** [detectFibonacci(sequence)] *)
Definition detectFibonacci (sequence : list float) : detection :=
  if (List.length sequence <? 3)%nat then no_pattern
  else
    let matchCount := fibonacci_matchCount sequence in
    if (List.length sequence - 2 <=? matchCount)%nat then
      mkDetection (Some fibonacci) (Some 100%Z) None None None None
        (Some (map VNumber (predictFibonacci sequence 5)))
    else no_pattern.

(** *** Validation *)

Record validation : Type := mkValidation {
  isValid : bool;
  validation_error : option string
}.

Definition error_not_an_array : string :=
  "❌ The echo is not a valid sequence array.".
Definition error_too_short : string :=
  "❌ The echo is too faint - need at least 2 numbers.".
Definition error_not_numbers : string :=
  "❌ The echo is distorted - all elements must be valid numbers.".

(** [typeof num === 'number' && !isNaN(num) && isFinite(num)] *)
Definition valid_number (num : value) : bool :=
  match num with
  | VNumber x => negb (isNaN x) && isFinite x
  | _ => false
  end.

(** [validateSequence(sequence)]; [every] does not call the test on an
    empty slot. *)
Definition validateSequence (sequence : value) : validation :=
  match sequence with
  | VArray elements =>
      if (List.length elements <? 2)%nat then
        mkValidation false (Some error_too_short)
      else if negb (every valid_number elements) then
        mkValidation false (Some error_not_numbers)
      else mkValidation true None
  | _ => mkValidation false (Some error_not_an_array)
  end.

(** The elements of a validated sequence, as the numbers the detectors
    compute with.  Validation has checked that every element is a number
    or an empty slot; an empty slot reads as [undefined], which arithmetic
    turns into [NaN] and which is not [=== 0].  The other cases are never
    read. *)
Definition numbers (sequence : value) : list float :=
  match sequence with
  | VArray elements =>
      map (fun v => match v with VNumber x => x | _ => nan end) elements
  | _ => []
  end.

(** *** Metrics, history and cache *)

(** [updateMetrics(analysisTime)] *)
Definition updateMetrics (this : state) (analysisTime : float) : state :=
  let m := performanceMetrics this in
  let total := (totalAnalyses m + 1)%float in
  let prevAvg := averageAnalysisTime m in
  let avg := ((prevAvg * (total - 1) + analysisTime) / total)%float in
  mkState (history this) (mkMetrics total avg (cacheHits m)) (analysisCache this).

(** [getHistory()]: a copy of the list. *)
Definition getHistory (this : state) : list analysis := history this.

Record metrics_report : Type := mkReport {
  report_totalAnalyses : float;
  report_averageAnalysisTime : float;
  report_cacheHits : float;
  report_cacheSize : nat
}.

(** [getMetrics()] *)
Definition getMetrics (this : state) : metrics_report :=
  let m := performanceMetrics this in
  mkReport (totalAnalyses m) (averageAnalysisTime m) (cacheHits m)
    (Map_size (analysisCache this)).

(** [clear()] *)
Definition clear (this : state) : state :=
  mkState [] (mkMetrics 0 0 0) [].

(** *** analyze *)

(** The result built when no detector matched. *)
Definition not_recognized : detection :=
  mkDetection (Some unknown) (Some 0%Z) None None None None (Some [VNull]).

(** [!result.pattern] *)
Definition no_match (result : detection) : bool :=
  match det_pattern result with
  | None => true
  | Some _ => false
  end.

(** The detector chain of [analyze], in its order. *)
Definition detect (sequence : list float) : completion detection :=
  let result := detectArithmetic sequence in
  result <- (if no_match result then detectGeometric sequence else Normal result) ;;
  let result := if no_match result then detectFibonacci sequence else result in
  result <- (if no_match result then detectPolynomial sequence else Normal result) ;;
  Normal (if no_match result then not_recognized else result).

(** [analyze(sequence)].  [has(cacheKey)] holds exactly when [get(cacheKey)]
    finds an entry, so the two calls are one lookup here.  When
    [JSON.stringify] raises, nothing has been changed yet. *)
Definition analyze (clk : clock) (this : state) (sequence : value)
  : completion (analysis * state) :=
  cacheKey <- JSON_stringify sequence ;;
  match Map_get (analysisCache this) cacheKey with
  | Some cached =>
      let m := performanceMetrics this in
      let m := mkMetrics (totalAnalyses m) (averageAnalysisTime m) (cacheHits m + 1)%float in
      Normal (cached, mkState (history this) m (analysisCache this))
  | None =>
      let validation := validateSequence sequence in
      if negb (isValid validation) then
        Normal (mkAnalysis false (validation_error validation) sequence
                  None None None None None None None None None None, this)
      else
        result <- detect (numbers sequence) ;;
        let analysisTime := (endTime clk - startTime clk)%float in
        let analysisResult :=
          mkAnalysis true None sequence (Some (List.length (numbers sequence)))
            (det_pattern result) (det_confidence result)
            (det_commonDifference result) (det_commonRatio result)
            (det_degree result) (det_constantDifference result)
            (det_nextNumbers result)
            (Some analysisTime) (Some (isoString clk)) in
        let this := updateMetrics this analysisTime in
        let this := mkState (history this) (performanceMetrics this)
                      (Map_set (analysisCache this) cacheKey analysisResult) in
        let this := mkState (history this ++ [analysisResult]) (performanceMetrics this)
                      (analysisCache this) in
        Normal (analysisResult, this)
  end.

(** *** Comparison *)

Definition pattern_eqb (p q : option patternName) : bool :=
  match p, q with
  | None, None => true
  | Some x, Some y => patternName_eqb x y
  | _, _ => false
  end.

(** [calculateSimilarity(analysis1, analysis2)] *)
Definition calculateSimilarity (analysis1 analysis2 : analysis) : Z :=
  if negb (pattern_eqb (pattern analysis1) (pattern analysis2)) then 0%Z
  else
    let similarity := 50%Z in
    let similarity :=
      match commonDifference analysis1, commonDifference analysis2 with
      | Some d1, Some d2 => if strict_eq d1 d2 then (similarity + 25)%Z else similarity
      | _, _ => similarity
      end in
    let similarity :=
      match commonRatio analysis1, commonRatio analysis2 with
      | Some r1, Some r2 =>
          if (abs (r1 - r2) <? 0.01)%float then (similarity + 25)%Z else similarity
      | _, _ => similarity
      end in
    Z.min similarity 100.

Record comparison : Type := mkComparison {
  sequence1 : analysis;
  sequence2 : analysis;
  samePattern : bool;
  similarity : Z
}.

(** [comparSequences(seq1, seq2)]; each of its two [analyze] calls reads
    the clock. *)
Definition comparSequences (clk1 clk2 : clock) (this : state) (seq1 seq2 : value)
  : completion (comparison * state) :=
  r1 <- analyze clk1 this seq1 ;;
  let '(analysis1, this) := r1 in
  r2 <- analyze clk2 this seq2 ;;
  let '(analysis2, this) := r2 in
  Normal (mkComparison analysis1 analysis2
            (pattern_eqb (pattern analysis1) (pattern analysis2))
            (calculateSimilarity analysis1 analysis2), this).

(** *** Runs of one analyzer *)

(** The calls a host makes on an analyzer. *)
Inductive call : Type :=
| CallAnalyze (clk : clock) (sequence : value)
| CallCompare (clk1 clk2 : clock) (seq1 seq2 : value)
| CallGetHistory
| CallGetMetrics
| CallClear.

(** The state after a call, when it completes normally. *)
Definition after (c : call) (this : state) : completion state :=
  match c with
  | CallAnalyze clk sequence =>
      r <- analyze clk this sequence ;; Normal (snd r)
  | CallCompare clk1 clk2 seq1 seq2 =>
      r <- comparSequences clk1 clk2 this seq1 seq2 ;; Normal (snd r)
  | CallGetHistory => Normal this
  | CallGetMetrics => Normal this
  | CallClear => Normal (clear this)
  end.

(** The state a call leaves behind, also when it raises: [analyze] raises
    before it has changed anything, and [comparSequences] raises inside one
    of its two [analyze] calls, keeping what the first one did. *)
Definition state_after (c : call) (this : state) : state :=
  match c with
  | CallAnalyze clk sequence =>
      match analyze clk this sequence with
      | Normal (_, this') => this'
      | Throw _ => this
      end
  | CallCompare clk1 clk2 seq1 seq2 =>
      match analyze clk1 this seq1 with
      | Normal (_, mid) =>
          match analyze clk2 mid seq2 with
          | Normal (_, this') => this'
          | Throw _ => mid
          end
      | Throw _ => this
      end
  | CallGetHistory => this
  | CallGetMetrics => this
  | CallClear => clear this
  end.

(** [JSON.stringify] prints the input, and the key it gives then. *)
Definition prints (sequence : value) : bool :=
  match JSON_stringify sequence with
  | Normal _ => true
  | Throw _ => false
  end.

Definition cacheKey (sequence : value) : key :=
  match JSON_stringify sequence with
  | Normal k => k
  | Throw _ => None
  end.

(** [JSON.stringify] prints the inputs of the call. *)
Definition call_prints (c : call) : bool :=
  match c with
  | CallAnalyze _ sequence => prints sequence
  | CallCompare _ _ seq1 seq2 => prints seq1 && prints seq2
  | _ => true
  end.

(** The states an analyzer goes through, from its construction.  A call
    that raises leaves a state that a call completing normally leaves too
    (the state before it, or the state after its first [analyze]). *)
Inductive reachable : state -> Prop :=
| reachable_constructor : reachable constructor
| reachable_after c this this' :
    reachable this -> after c this = Normal this' -> reachable this'.

(** *** Vocabulary of the statements *)

(** The input passes [validateSequence]. *)
Definition valid (sequence : value) : bool := isValid (validateSequence sequence).

(** The [n]-th row of the difference table of a sequence. *)
Definition difference_row (n : nat) (sequence : list float) : list float :=
  Nat.iter n calculateDifferences sequence.

(** A cache key that is the text of an array of at least two numbers. *)
Definition is_num_token (j : json) : bool :=
  match j with
  | JsonNum _ => true
  | _ => false
  end.

Definition valid_key (k : key) : bool :=
  match k with
  | Some (JsonArr l) => negb (List.length l <? 2)%nat && forallb is_num_token l
  | _ => false
  end.

(** Plain data: what [JSON.parse] produces (so what the web server
    receives), and also [undefined] and the non-finite numbers: no empty
    slot, and no object other than a plain one, which prints as an object
    text. *)
Fixpoint plain (v : value) : bool :=
  match v with
  | VArray l => forallb plain l
  | VHole => false
  | VObject (Normal (Some (JsonObj _))) => true
  | VObject _ => false
  | _ => true
  end.

(** The cache holds analyses of plain data only. *)
Definition plain_cache (this : state) : bool :=
  forallb (fun e => plain (sequence (snd e))) (analysisCache this).

(** The result [r] carries the fields of the detection [d]. *)
Definition findings_of (d : detection) (r : analysis) : Prop :=
  pattern r = det_pattern d /\ confidence r = det_confidence d /\
  commonDifference r = det_commonDifference d /\ commonRatio r = det_commonRatio d /\
  degree r = det_degree d /\ constantDifference r = det_constantDifference d /\
  nextNumbers r = det_nextNumbers d.

(** [r] is a successful analysis of the sequence it records. *)
Definition analysis_of_its_sequence (r : analysis) : Prop :=
  success r = true /\ valid (sequence r) = true /\
  exists d, detect (numbers (sequence r)) = Normal d /\ findings_of d r.

(** Every cache entry is filed under the key of the sequence it analysed. *)
Definition cache_ok (m : Map analysis) : Prop :=
  forall k r, In (k, r) m ->
    k = cacheKey (sequence r) /\ analysis_of_its_sequence r.

(** The result returned for an input that fails validation. *)
Definition failure (sequence : value) : analysis :=
  mkAnalysis false (validation_error (validateSequence sequence)) sequence
    None None None None None None None None None None.

(** Two optional numbers that [===] and the cache key cannot tell apart. *)
Definition opt_zeq (a b : option float) : Prop :=
  match a, b with
  | Some x, Some y => zeq x y
  | None, None => True
  | _, _ => False
  end.

(** Two detections with the same pattern and parameters, up to the sign of
    a zero parameter. *)
Definition same_class (d d' : detection) : Prop :=
  det_pattern d = det_pattern d' /\ det_confidence d = det_confidence d' /\
  det_degree d = det_degree d' /\
  opt_zeq (det_commonDifference d) (det_commonDifference d') /\
  opt_zeq (det_commonRatio d) (det_commonRatio d').

(** What the polynomial detector can return. *)
Definition polynomial_outcome (d : detection) : Prop :=
  d = no_pattern \/
  exists k c ps,
    d = mkDetection (Some polynomial) (Some 95%Z) None None (Some k) (Some c) (Some ps).

(** The result and the state of an [analyze] call that runs the detectors. *)
Definition fresh_result (clk : clock) (sequence : value) (d : detection) : analysis :=
  mkAnalysis true None sequence (Some (List.length (numbers sequence)))
    (det_pattern d) (det_confidence d) (det_commonDifference d) (det_commonRatio d)
    (det_degree d) (det_constantDifference d) (det_nextNumbers d)
    (Some (endTime clk - startTime clk)%float) (Some (isoString clk)).

Definition fresh_state (clk : clock) (this : state) (sequence : value) (d : detection)
  : state :=
  mkState (history this ++ [fresh_result clk sequence d])
    (performanceMetrics (updateMetrics this (endTime clk - startTime clk)%float))
    (Map_set (analysisCache this) (cacheKey sequence) (fresh_result clk sequence d)).

(** The state after a call served from the cache. *)
Definition hit_state (this : state) : state :=
  let m := performanceMetrics this in
  mkState (history this)
    (mkMetrics (totalAnalyses m) (averageAnalysisTime m) (cacheHits m + 1)%float)
    (analysisCache this).

(** What holds of every state an analyzer goes through. *)
Definition invariant (this : state) : Prop :=
  cache_ok (analysisCache this) /\
  Forall (fun r => success r = true) (history this).

(** The failure kinds of the design document and the message that reports
    each of them. *)
Inductive failureKind : Type := NotAnArray | TooShort | NonNumeric.

Definition message (k : failureKind) : string :=
  match k with
  | NotAnArray => error_not_an_array
  | TooShort => error_too_short
  | NonNumeric => error_not_numbers
  end.

(** A finite real number: a number other than [NaN], [Infinity] and
    [-Infinity]. *)
Definition finite_real (e : value) : Prop :=
  exists x, e = VNumber x /\ x <> nan /\ x <> infinity /\ x <> neg_infinity.

(** The condition under which each kind applies, in the words of the
    design document. *)
Definition applies (k : failureKind) (v : value) : Prop :=
  match k with
  | NotAnArray => forall l, v <> VArray l
  | TooShort => exists l, v = VArray l /\ (List.length l < 2)%nat
  | NonNumeric => exists l, v = VArray l /\ exists e, In e l /\ ~ finite_real e
  end.

(** The condition under which the code reports each kind: the same,
    except that an empty slot of the array is not looked at. *)
Definition reported (k : failureKind) (v : value) : Prop :=
  match k with
  | NotAnArray => forall l, v <> VArray l
  | TooShort => exists l, v = VArray l /\ (List.length l < 2)%nat
  | NonNumeric =>
      exists l, v = VArray l /\ exists e, In e l /\ e <> VHole /\ ~ finite_real e
  end.

(** The key of the input is computed and is not in the cache, so that the
    call goes on to validation. *)
Definition not_cached (this : state) (v : value) : Prop :=
  prints v = true /\ Map_has (analysisCache this) (cacheKey v) = false.

(** The tests of the detectors, named for the statements. *)
Definition all_equal (row : list float) : bool :=
  forallb (fun x => strict_eq x (hd nan row)) row.

Definition has_zero (sequence : list float) : bool :=
  existsb (fun n => strict_eq n 0) sequence.

Definition ratios_within_tolerance (sequence : list float) : bool :=
  forallb (fun r => (abs (r - hd nan (ratios_loop sequence)) <? 0.0001)%float)
    (ratios_loop sequence).



End SequenceAnalyzer.

(* ================================================================== *)
(** ** The decision table of the detectors *)

Module Decision.
Import SequenceAnalyzer.

(** One step of the Fibonacci test: [|c - (b + a)| < 0.0001]. *)
Definition triple_ok (a b c : float) : bool :=
  (abs (c - (b + a)) <? 0.0001)%float.

(** Every element from the third on is the sum of the two before it,
    within the tolerance. *)
Fixpoint all_triples (sequence : list float) : bool :=
  match sequence with
  | a :: ((b :: c :: _) as rest) => triple_ok a b c && all_triples rest
  | _ => true
  end.

Definition arithmetic_test (sequence : list float) : bool :=
  all_equal (calculateDifferences sequence).

Definition geometric_test (sequence : list float) : bool :=
  negb (has_zero sequence) && ratios_within_tolerance sequence.

Definition fibonacci_test (sequence : list float) : bool :=
  (3 <=? List.length sequence)%nat && all_triples sequence.

(** Row [k] of the difference table exists and its entries are all [===]
    to the first. *)
Definition constant_row (k : nat) (sequence : list float) : bool :=
  match difference_row k sequence with
  | [] => false
  | row => all_equal row
  end.

Definition polynomial_test (sequence : list float) : bool :=
  existsb (fun k => constant_row k sequence) [2; 3; 4; 5]%nat.

(** The pattern each sequence gets: the first test that passes, in the
    order of the chain. *)
Definition decision (sequence : list float) : patternName :=
  if arithmetic_test sequence then arithmetic
  else if geometric_test sequence then geometric
  else if fibonacci_test sequence then fibonacci
  else if polynomial_test sequence then polynomial
  else unknown.

(** The shape of a successful result: the parameters and predictions that
    go with each pattern. *)
Definition five_numbers (o : option (list value)) : Prop :=
  exists l, o = Some (map VNumber l) /\ List.length l = 5%nat.

Definition shape (p : option patternName) (conf : option Z)
  (cd cr : option float) (deg : option nat) (c : option float)
  (nn : option (list value)) : Prop :=
  match p with
  | Some arithmetic =>
      conf = Some 100%Z /\ (exists d, cd = Some d /\ not_nan d) /\
      cr = None /\ deg = None /\ c = None /\ five_numbers nn
  | Some geometric =>
      conf = Some 100%Z /\ cd = None /\
      (exists q, cr = Some q /\ isFinite q = true) /\
      deg = None /\ c = None /\ five_numbers nn
  | Some fibonacci =>
      conf = Some 100%Z /\ cd = None /\ cr = None /\ deg = None /\ c = None /\
      five_numbers nn
  | Some polynomial =>
      conf = Some 95%Z /\ cd = None /\ cr = None /\
      (exists k, deg = Some k /\ (2 <= k <= 5)%nat) /\
      (exists x, c = Some x /\ not_nan x) /\
      five_numbers nn
  | Some unknown =>
      conf = Some 0%Z /\ cd = None /\ cr = None /\ deg = None /\ c = None /\
      nn = Some [VNull]
  | None => False
  end.

Definition well_shaped (r : analysis) : Prop :=
  success r = true /\ error r = None /\
  shape (pattern r) (confidence r) (commonDifference r) (commonRatio r)
    (degree r) (constantDifference r) (nextNumbers r).

(** A result that [analyze] built by running the detectors on a valid
    input. *)
Definition recorded (r : analysis) : Prop :=
  exists clk v d,
    valid v = true /\ detect (numbers v) = Normal d /\ r = fresh_result clk v d.

(** The cache entry under which a result is filed. *)
Definition entry (r : analysis) : key * analysis :=
  (cacheKey (sequence r), r).

(** The bookkeeping of an analyzer, in every state it goes through:
    the history holds results of the detectors; the cache files each of
    them under the key of its own sequence, in the same order, no key
    twice; [totalAnalyses] has been incremented once per entry. *)
Definition ledger (this : state) : Prop :=
  Forall recorded (history this) /\
  analysisCache this = map entry (history this) /\
  NoDup (map (fun r => cacheKey (sequence r)) (history this)) /\
  totalAnalyses (performanceMetrics this) =
    Nat.iter (List.length (history this)) (fun n => (n + 1)%float) 0%float.

(** Two lists of the same length whose elements are [===] position by
    position. *)
Definition pairwise_strict_eq (s s' : list float) : Prop :=
  Forall2 (fun x y => strict_eq x y = true) s s'.

(** The state after a series of calls; a call that raised would leave
    the state as it was. *)
Fixpoint run (calls : list call) (this : state) : state :=
  match calls with
  | [] => this
  | c :: rest =>
      match after c this with
      | Normal this' => run rest this'
      | Throw _ => this
      end
  end.

End Decision.

(* ================================================================== *)
(** ** The logger

    [class Logger].  Its environment is the log file, the console and the
    clock: the file is [None] while it does not exist; an operation of the
    file system succeeds or fails as the operating system decides, which
    each call receives as an input; [new Date().toISOString()] is an input
    too.  The text [JSON.stringify(data, null, 2)] prints for the [data] of
    a message is an input of the call ([None] when [data] is falsy).  The
    creation of the [logs] directory by the constructor is left out. *)

Module Logger.

Inductive levelName : Type := ERROR | WARN | INFO | DEBUG.

(** [this.levels] *)
Definition levels (level : levelName) : nat :=
  match level with
  | ERROR => 0
  | WARN => 1
  | INFO => 2
  | DEBUG => 3
  end.

Definition name (level : levelName) : string :=
  match level with
  | ERROR => "ERROR"
  | WARN => "WARN"
  | INFO => "INFO"
  | DEBUG => "DEBUG"
  end.

(** The own property of [this.levels] that a string names, if any. *)
Definition own_level (level : string) : option levelName :=
  if String.eqb level "ERROR" then Some ERROR
  else if String.eqb level "WARN" then Some WARN
  else if String.eqb level "INFO" then Some INFO
  else if String.eqb level "DEBUG" then Some DEBUG
  else None.

Record logger : Type := mkLogger {
  currentLevel : nat;
  enableFileLogging : bool
}.

(** [constructor(filename)] *)
Definition constructor : logger := mkLogger (levels INFO) true.

Record world : Type := mkWorld {
  file : option string;
  console : list string;
  console_error : list string
}.

Definition newline : string := String "010"%char EmptyString.
Definition escape : string := String "027"%char EmptyString.

(** What the file holds, for a write that appends. *)
Definition content (w : world) : string :=
  match file w with
  | Some text => text
  | None => EmptyString
  end.

(** [writeToFile(message)]; [ok] tells whether [appendFileSync] succeeds. *)
Definition writeToFile (ok : bool) (w : world) (message : string) : world :=
  if ok then
    mkWorld (Some (content w ++ (message ++ newline))%string) (console w) (console_error w)
  else
    mkWorld (file w) (console w) (console_error w ++ ["Failed to write to log file:"%string]).

(** [colorize(level, message)] *)
Definition colorize (level : levelName) (message : string) : string :=
  let color :=
    match level with
    | ERROR => (escape ++ "[31m")%string
    | WARN => (escape ++ "[33m")%string
    | INFO => (escape ++ "[36m")%string
    | DEBUG => (escape ++ "[35m")%string
    end in
  let reset := (escape ++ "[0m")%string in
  (color ++ (message ++ reset))%string.

(** The text of an entry. *)
Definition fullMessage (timestamp emoji : string) (level : levelName)
  (message : string) (data : option string) : string :=
  let logMessage :=
    ("[" ++ timestamp ++ "] " ++ emoji ++ " [" ++ name level ++ "] " ++ message)%string in
  match data with
  | Some text => (logMessage ++ newline ++ text)%string
  | None => logMessage
  end.

(** [log(level, message, data, emoji)] *)
Definition log (timestamp : string) (ok : bool) (this : logger) (w : world)
  (level : levelName) (message : string) (data : option string) (emoji : string) : world :=
  if (currentLevel this <? levels level)%nat then w
  else
    let text := fullMessage timestamp emoji level message data in
    let w := mkWorld (file w) (console w ++ [colorize level text]) (console_error w) in
    if enableFileLogging this then writeToFile ok w text else w.

Definition emoji (level : levelName) : string :=
  match level with
  | ERROR => "❌"
  | WARN => "⚠️"
  | INFO => "ℹ️"
  | DEBUG => "🐛"
  end.

(** [error(message, data)], [warn], [info] and [debug] *)
Definition error (timestamp : string) (ok : bool) (this : logger) (w : world)
  (message : string) (data : option string) : world :=
  log timestamp ok this w ERROR message data (emoji ERROR).

Definition warn (timestamp : string) (ok : bool) (this : logger) (w : world)
  (message : string) (data : option string) : world :=
  log timestamp ok this w WARN message data (emoji WARN).

Definition info (timestamp : string) (ok : bool) (this : logger) (w : world)
  (message : string) (data : option string) : world :=
  log timestamp ok this w INFO message data (emoji INFO).

Definition debug (timestamp : string) (ok : bool) (this : logger) (w : world)
  (message : string) (data : option string) : world :=
  log timestamp ok this w DEBUG message data (emoji DEBUG).

(** [setLevel(level)] *)
Definition setLevel (this : logger) (level : string) : logger :=
  match own_level level with
  | Some l => mkLogger (levels l) (enableFileLogging this)
  | None => this
  end.

(** [clearLog()]; [failure] is [None] when [writeFileSync] succeeds, and
    otherwise the text printed for the error it raised. *)
Definition clearLog (timestamp : string) (failure : option string) (ok : bool)
  (this : logger) (w : world) : world :=
  match failure with
  | None => mkWorld (Some EmptyString) (console w) (console_error w)
  | Some text => error timestamp ok this w "Failed to clear log file" (Some text)
  end.

(** [readLog()]; [ok] tells whether an existing file can be read. *)
Definition readLog (ok : bool) (w : world) : string :=
  match file w with
  | Some text => if ok then text else "Log file not found or cannot be read"
  | None => "Log file not found or cannot be read"
  end.

(** The calls a host makes on a logger. *)
Inductive call : Type :=
| CallError (timestamp : string) (ok : bool) (message : string) (data : option string)
| CallWarn (timestamp : string) (ok : bool) (message : string) (data : option string)
| CallInfo (timestamp : string) (ok : bool) (message : string) (data : option string)
| CallDebug (timestamp : string) (ok : bool) (message : string) (data : option string)
| CallSetLevel (level : string)
| CallClearLog (timestamp : string) (failure : option string) (ok : bool)
| CallReadLog (ok : bool).

Definition after (c : call) (s : logger * world) : logger * world :=
  let (this, w) := s in
  match c with
  | CallError t ok m d => (this, error t ok this w m d)
  | CallWarn t ok m d => (this, warn t ok this w m d)
  | CallInfo t ok m d => (this, info t ok this w m d)
  | CallDebug t ok m d => (this, debug t ok this w m d)
  | CallSetLevel l => (setLevel this l, w)
  | CallClearLog t f ok => (this, clearLog t f ok this w)
  | CallReadLog _ => (this, w)
  end.

Definition run (calls : list call) (s : logger * world) : logger * world :=
  fold_left (fun s c => after c s) calls s.

(** [s.split('\n')] *)
Fixpoint split_lines (s : string) : list string :=
  match s with
  | EmptyString => [EmptyString]
  | String c rest =>
      match split_lines rest with
      | line :: more =>
          if Ascii.eqb c "010"%char then EmptyString :: line :: more
          else String c line :: more
      | [] => [String c EmptyString]
      end
  end.

(** [a.slice(-50)] *)
Definition last_50 {A} (a : list A) : list A := skipn (List.length a - 50) a.

(** A text that is empty or ends with a line break. *)
Definition newline_terminated (text : string) : Prop :=
  text = EmptyString \/ exists body, text = (body ++ newline)%string.

(** The file is absent, or every entry in it is closed by a line break. *)
Definition entries_closed (w : world) : Prop :=
  match file w with
  | Some text => newline_terminated text
  | None => True
  end.

(** No call clears the log. *)
Definition keeps_log (c : call) : bool :=
  match c with
  | CallClearLog _ None _ => false
  | _ => true
  end.

(** The file and the console only grow: what they held is still there,
    at the front, and a file that existed still exists. *)
Definition grows (w w' : world) : Prop :=
  (exists more, content w' = (content w ++ more)%string) /\
  (file w <> None -> file w' <> None) /\
  (exists lines, console w' = console w ++ lines).

(** A call to [debug], and a call that sets the level to [DEBUG]. *)
Definition is_debug (c : call) : bool :=
  match c with
  | CallDebug _ _ _ _ => true
  | _ => false
  end.

Definition enables_debug (c : call) : bool :=
  match c with
  | CallSetLevel level => String.eqb level "DEBUG"
  | _ => false
  end.

End Logger.

(* ================================================================== *)
(** ** The web server

    The route handlers of the Express application.  A handler reads the
    parsed request body, calls the analyzer and the logger, and sends one
    response: a status code and the object given to [res.json].  The body
    is [None] when [req.body] is [undefined], so that reading a property
    of it raises; otherwise it is given by the properties the handler
    reads.  The handlers are written for any value; what [express.json()]
    hands them is plain data ([plain]), parsed from the request text.  The calls on the logger are listed in order, with the data
    object of each; none of them can raise.  The middleware that logs each
    request line is not part of a handler. *)

Module Server.
Import SequenceAnalyzer.

(** The data objects the handlers log. *)
Inductive logData : Type :=
| DataError (error : option string)
| DataAnalyzed (pattern : option patternName) (length : nat)
| DataCount (count : nat)
| DataCompared (samePattern : bool) (similarity : Z)
| DataException (e : string).

Record logCall : Type := mkLogCall {
  call_level : Logger.levelName;
  call_message : string;
  call_data : option logData
}.

(** The objects the handlers send. *)
Inductive body : Type :=
| BodyError (error : string)
| BodyAnalysis (result : analysis)
| BodyHistory (history : list analysis) (count : nat)
| BodyMetrics (metrics : metrics_report)
| BodyComparison (result : comparison)
| BodyMessage (message : string)
| BodyLogs (logs : list string).

Record response : Type := mkResponse {
  status : nat;
  payload : body
}.

(** [res.json(x)] and [res.status(n).json(x)] *)
Definition json (x : body) : response := mkResponse 200 x.
Definition status_json (n : nat) (x : body) : response := mkResponse n x.

(** [try { ... } catch (error) { ... }] *)
Definition try_catch {A} (block : completion A) (handler : string -> A) : A :=
  match block with
  | Normal a => a
  | Throw e => handler e
  end.

(** [const { sequence } = req.body] *)
Definition destructure {A} (req_body : option A) : completion A :=
  match req_body with
  | Some fields => Normal fields
  | None => Throw "TypeError: Cannot destructure property of 'req.body' as it is undefined."
  end.

Definition isArray (v : value) : bool :=
  match v with
  | VArray _ => true
  | _ => false
  end.

(** [sequence.length] of an array *)
Definition array_length (v : value) : nat :=
  match v with
  | VArray elements => List.length elements
  | _ => 0
  end.

(** [app.post('/api/analyze', ...)].  When [analyze] raises, it has not
    changed the analyzer. *)
Definition post_analyze (clk : clock) (analyzer : state) (req_body : option value)
  : response * state * list logCall :=
  try_catch
    (sequence <- destructure req_body ;;
     if negb (isArray sequence) then
       Normal (status_json 400 (BodyError "Sequence must be an array of numbers"),
               analyzer,
               [mkLogCall Logger.WARN "Invalid sequence format received" None])
     else
       r <- analyze clk analyzer sequence ;;
       let '(result, analyzer) := r in
       if negb (success result) then
         Normal (status_json 400 (BodyAnalysis result), analyzer,
                 [mkLogCall Logger.WARN "Sequence analysis failed"
                    (Some (DataError (error result)))])
       else
         Normal (json (BodyAnalysis result), analyzer,
                 [mkLogCall Logger.INFO "Sequence analyzed successfully"
                    (Some (DataAnalyzed (pattern result) (array_length sequence)))]))
    (fun e =>
       (status_json 500 (BodyError "Internal server error during analysis"), analyzer,
        [mkLogCall Logger.ERROR "Analysis endpoint error" (Some (DataException e))])).

(** [app.get('/api/history', ...)]; nothing in its [try] block can raise,
    and the same holds for the metrics and the delete routes. *)
Definition get_history (analyzer : state) : response * state * list logCall :=
  let history := getHistory analyzer in
  (json (BodyHistory history (List.length history)), analyzer,
   [mkLogCall Logger.INFO "History retrieved" (Some (DataCount (List.length history)))]).

(** [app.get('/api/metrics', ...)] *)
Definition get_metrics (analyzer : state) : response * state * list logCall :=
  (json (BodyMetrics (getMetrics analyzer)), analyzer, []).

(** [app.post('/api/compare', ...)].  When [comparSequences] raises in
    its second analysis, the [catch] block runs with the analyzer as the
    first analysis left it. *)
Definition post_compare (clk1 clk2 : clock) (analyzer : state)
  (req_body : option (value * value)) : response * state * list logCall :=
  try_catch
    (fields <- destructure req_body ;;
     let '(sequence1, sequence2) := fields in
     if negb (isArray sequence1) || negb (isArray sequence2) then
       Normal (status_json 400 (BodyError "Both sequences must be arrays of numbers"),
               analyzer, [])
     else
       r <- comparSequences clk1 clk2 analyzer sequence1 sequence2 ;;
       let '(result, analyzer) := r in
       Normal (json (BodyComparison result), analyzer,
               [mkLogCall Logger.INFO "Sequences compared"
                  (Some (DataCompared (samePattern result) (similarity result)))]))
    (fun e =>
       (status_json 500 (BodyError "Failed to compare sequences"),
        match req_body with
        | Some (sequence1, sequence2) =>
            state_after (CallCompare clk1 clk2 sequence1 sequence2) analyzer
        | None => analyzer
        end,
        [mkLogCall Logger.ERROR "Comparison endpoint error" (Some (DataException e))])).

(** [app.delete('/api/history', ...)] *)
Definition delete_history (analyzer : state) : response * state * list logCall :=
  (json (BodyMessage "All history and cache cleared"), clear analyzer,
   [mkLogCall Logger.INFO "History cleared" None]).

(** [app.get('/api/logs', ...)] *)
Definition get_logs (ok : bool) (w : Logger.world) : response :=
  let logs := Logger.readLog ok w in
  let lines := Logger.last_50 (Logger.split_lines logs) in
  json (BodyLogs lines).

(** The requests to the routes that use the analyzer. *)
Inductive request : Type :=
| PostAnalyze (clk : clock) (req_body : option value)
| GetHistory
| GetMetrics
| PostCompare (clk1 clk2 : clock) (req_body : option (value * value))
| DeleteHistory.

Definition handle (q : request) (analyzer : state) : response * state * list logCall :=
  match q with
  | PostAnalyze clk b => post_analyze clk analyzer b
  | GetHistory => get_history analyzer
  | GetMetrics => get_metrics analyzer
  | PostCompare clk1 clk2 b => post_compare clk1 clk2 analyzer b
  | DeleteHistory => delete_history analyzer
  end.

(** The body of the request is plain data, as [express.json()] parses it
    from the request text. *)
Definition parsed (q : request) : bool :=
  match q with
  | PostAnalyze _ (Some sequence) => plain sequence
  | PostCompare _ _ (Some (sequence1, sequence2)) => plain sequence1 && plain sequence2
  | _ => true
  end.

(** The analyzer of the server after a series of requests. *)
Definition serve (requests : list request) : state :=
  fold_left (fun analyzer q => snd (fst (handle q analyzer))) requests constructor.

End Server.

(* ================================================================== *)
(** * Properties *)

(** ** Facts about binary64 arithmetic

    Derived from the specification of the primitive operations
    ([FloatAxioms]). *)

Module FloatFacts.

Lemma SFcompare_Eq_inv X Y :
  SFcompare X Y = Some Eq ->
  X <> S754_nan /\ (X = Y \/ exists s s', X = S754_zero s /\ Y = S754_zero s').
Proof.
  destruct X as [s| s| |s m e], Y as [s'| s'| |s' m' e']; simpl; try discriminate;
    try (destruct s; discriminate); try (destruct s'; discriminate).
  - intros _. split; [discriminate|]. right. eauto.
  - destruct s, s'; try discriminate; intros _; (split; [discriminate|now left]).
  - destruct s, s'; try discriminate; intro H; injection H as H;
      (split; [discriminate|left]);
      destruct (Z.compare_spec e e') as [He| |]; try discriminate; subst e'.
    + destruct (Pos.compare_cont Eq m m') eqn:Hm; try discriminate.
      apply Pos.compare_eq in Hm. now subst.
    + apply Pos.compare_eq in H. now subst.
Qed.

Lemma SFeqb_refl X : X <> S754_nan -> SFeqb X X = true.
Proof.
  unfold SFeqb. destruct X as [s| s| |s m e]; simpl; try congruence.
  - destruct s; reflexivity.
  - intros _. rewrite Z.compare_refl.
    destruct s; rewrite ?Pos.compare_cont_refl; reflexivity.
Qed.

Lemma Prim2SF_0 : Prim2SF 0 = S754_zero false.
Proof. reflexivity. Qed.

Lemma is_zero_spec x : is_zero x = true <-> exists s, Prim2SF x = S754_zero s.
Proof.
  unfold is_zero. rewrite eqb_spec, Prim2SF_0. unfold SFeqb.
  destruct (Prim2SF x) as [s| s| |s m e]; simpl; split; intros H;
    try discriminate; eauto; try (destruct s; discriminate);
    try (destruct H as [? H]; discriminate).
Qed.


Lemma not_nan_spec x : not_nan x <-> Prim2SF x <> S754_nan.
Proof.
  unfold not_nan. rewrite eqb_spec. split.
  - intros H E. rewrite E in H. discriminate.
  - apply SFeqb_refl.
Qed.

Lemma eqb_zeq x y : (x =? y)%float = true <-> not_nan x /\ zeq x y.
Proof.
  rewrite not_nan_spec. rewrite eqb_spec. unfold SFeqb, zeq. split.
  - destruct (SFcompare (Prim2SF x) (Prim2SF y)) as [[| |]|] eqn:E; try discriminate.
    intros _. apply SFcompare_Eq_inv in E as [Hn [E|(s & s' & Ex & Ey)]].
    + split; [exact Hn|]. left. now apply Prim2SF_inj.
    + split; [exact Hn|]. right. rewrite !is_zero_spec. eauto.
  - intros [Hn [->|[Hx Hy]]].
    + fold (SFeqb (Prim2SF y) (Prim2SF y)). now rewrite SFeqb_refl.
    + apply is_zero_spec in Hx as [s ->], Hy as [s' ->]. reflexivity.
Qed.

Lemma zeq_refl x : zeq x x.
Proof. now left. Qed.

Lemma zeq_sym x y : zeq x y -> zeq y x.
Proof. intros [->|[? ?]]; [now left|now right]. Qed.

Lemma zeq_trans x y z : zeq x y -> zeq y z -> zeq x z.
Proof.
  intros [->|[Hx Hy]] [->|[Hy' Hz]]; unfold zeq; auto.
Qed.

Lemma is_zero_not_nan x : is_zero x = true -> not_nan x.
Proof.
  intros H. apply not_nan_spec. apply is_zero_spec in H as [s ->]. discriminate.
Qed.

Lemma zeq_not_nan x y : zeq x y -> not_nan x -> not_nan y.
Proof.
  intros [->|[_ Hy]] H; [exact H|now apply is_zero_not_nan].
Qed.



(** [===] cannot tell [zeq] numbers apart. *)
Lemma eqb_zeq_compat x x' y y' :
  zeq x x' -> zeq y y' -> (x =? y)%float = (x' =? y')%float.
Proof.
  intros Hx Hy.
  destruct (x =? y)%float eqn:E1, (x' =? y')%float eqn:E2; try reflexivity.
  - apply eqb_zeq in E1 as [Hn Hz].
    assert ((x' =? y')%float = true) as E; [|congruence].
    apply eqb_zeq. split; [eapply zeq_not_nan; eauto|].
    eapply zeq_trans; [apply zeq_sym; eassumption|]. eapply zeq_trans; eauto.
  - apply eqb_zeq in E2 as [Hn Hz].
    assert ((x =? y)%float = true) as E; [|congruence].
    apply eqb_zeq. split; [eapply zeq_not_nan; [apply zeq_sym|]; eauto|].
    eapply zeq_trans; [eassumption|]. eapply zeq_trans; [eassumption|]. now apply zeq_sym.
Qed.

(** Case analysis on a pair of [zeq] numbers through their specification. *)
Lemma zeq_cases x y :
  zeq x y -> x = y \/ exists s s', Prim2SF x = S754_zero s /\ Prim2SF y = S754_zero s'.
Proof.
  intros [->|[Hx Hy]]; [now left|right].
  apply is_zero_spec in Hx as [s Hx], Hy as [s' Hy]. eauto.
Qed.

Lemma zeq_of_SF x y :
  (Prim2SF x = Prim2SF y \/
   exists s s', Prim2SF x = S754_zero s /\ Prim2SF y = S754_zero s') -> zeq x y.
Proof.
  intros [E|(s & s' & Hx & Hy)].
  - left. now apply Prim2SF_inj.
  - right. rewrite !is_zero_spec. eauto.
Qed.

Lemma zeq_sub x x' y y' : zeq x x' -> zeq y y' -> zeq (x - y) (x' - y').
Proof.
  intros Hx Hy. apply zeq_of_SF. rewrite !sub_spec.
  apply zeq_cases in Hx as [->|(s1 & s1' & Hx & Hx')];
    apply zeq_cases in Hy as [->|(s2 & s2' & Hy & Hy')].
  - now left.
  - rewrite Hy, Hy'. destruct (Prim2SF x') as [s| s| |s m e]; simpl; eauto.
    destruct s, s2, s2'; simpl; eauto.
  - rewrite Hx, Hx'. destruct (Prim2SF y') as [s| s| |s m e]; simpl; eauto.
    destruct s1, s1', s; simpl; eauto.
  - rewrite Hx, Hx', Hy, Hy'. destruct s1, s1', s2, s2'; simpl; eauto.
Qed.

Lemma zeq_add x x' y y' : zeq x x' -> zeq y y' -> zeq (x + y) (x' + y').
Proof.
  intros Hx Hy. apply zeq_of_SF. rewrite !add_spec.
  apply zeq_cases in Hx as [->|(s1 & s1' & Hx & Hx')];
    apply zeq_cases in Hy as [->|(s2 & s2' & Hy & Hy')].
  - now left.
  - rewrite Hy, Hy'. destruct (Prim2SF x') as [s| s| |s m e]; simpl; eauto.
    destruct s, s2, s2'; simpl; eauto.
  - rewrite Hx, Hx'. destruct (Prim2SF y') as [s| s| |s m e]; simpl; eauto.
    destruct s1, s1', s; simpl; eauto.
  - rewrite Hx, Hx', Hy, Hy'. destruct s1, s1', s2, s2'; simpl; eauto.
Qed.

Lemma zeq_abs x x' : zeq x x' -> zeq (abs x) (abs x').
Proof.
  intros Hx. apply zeq_of_SF. rewrite !abs_spec.
  apply zeq_cases in Hx as [->|(s1 & s1' & Hx & Hx')]; [now left|].
  rewrite Hx, Hx'. simpl. eauto.
Qed.

Lemma ltb_zeq_compat x x' y y' :
  zeq x x' -> zeq y y' -> (x <? y)%float = (x' <? y')%float.
Proof.
  intros Hx Hy. rewrite !ltb_spec. unfold SFltb.
  apply zeq_cases in Hx as [->|(s1 & s1' & Hx & Hx')];
    apply zeq_cases in Hy as [->|(s2 & s2' & Hy & Hy')].
  - reflexivity.
  - rewrite Hy, Hy'. destruct (Prim2SF x') as [s| s| |s m e]; reflexivity.
  - rewrite Hx, Hx'. destruct (Prim2SF y') as [s| s| |s m e]; reflexivity.
  - rewrite Hx, Hx', Hy, Hy'. reflexivity.
Qed.

(** *** Rounding never produces [NaN] *)

Lemma shr_1_nonneg mrs : (0 <= shr_m mrs)%Z -> (0 <= shr_m (shr_1 mrs))%Z.
Proof.
  destruct mrs as [m r s]. simpl. destruct m as [|p|p]; simpl; try lia.
  - intros _. destruct p; simpl; lia.
Qed.

Lemma iter_pos_shr_1_nonneg p : forall mrs,
  (0 <= shr_m mrs)%Z -> (0 <= shr_m (iter_pos shr_1 p mrs))%Z.
Proof.
  induction p as [p IH|p IH|]; intros mrs H; simpl.
  - apply IH, IH, shr_1_nonneg, H.
  - apply IH, IH, H.
  - apply shr_1_nonneg, H.
Qed.

Lemma shr_fexp_nonneg prec emax m e l :
  (0 <= m)%Z -> (0 <= shr_m (fst (shr_fexp prec emax m e l)))%Z.
Proof.
  intros H. unfold shr_fexp, shr.
  assert (0 <= shr_m (shr_record_of_loc m l))%Z as H0.
  { destruct l as [|[| |]]; exact H. }
  destruct (Z.sub _ e); simpl; auto.
  now apply iter_pos_shr_1_nonneg.
Qed.

Lemma round_nearest_even_nonneg m l : (0 <= m)%Z -> (0 <= round_nearest_even m l)%Z.
Proof.
  intros H. destruct l as [|[| |]]; simpl; try lia.
  destruct (Z.even m); lia.
Qed.

Lemma binary_round_aux_not_nan prec emax s m e l :
  (0 <= m)%Z -> binary_round_aux prec emax s m e l <> S754_nan.
Proof.
  intros H. unfold binary_round_aux.
  pose proof (shr_fexp_nonneg prec emax m e l H) as H1.
  destruct (shr_fexp prec emax m e l) as [mrs' e']. simpl in H1.
  pose proof (shr_fexp_nonneg prec emax _ e' loc_Exact
                (round_nearest_even_nonneg _ (loc_of_shr_record mrs') H1)) as H2.
  destruct (shr_fexp prec emax _ e' loc_Exact) as [mrs'' e'']. simpl in H2.
  destruct (shr_m mrs'') as [|p|p]; try discriminate; [|lia].
  destruct (Z.leb e'' _); discriminate.
Qed.

Lemma binary_round_not_nan prec emax s m e : binary_round prec emax s m e <> S754_nan.
Proof.
  unfold binary_round. destruct (shl_align _ _ _) as [mz ez].
  apply binary_round_aux_not_nan. lia.
Qed.

Lemma binary_normalize_not_nan prec emax m e sz :
  binary_normalize prec emax m e sz <> S754_nan.
Proof.
  destruct m; simpl; try discriminate; apply binary_round_not_nan.
Qed.





(** *** Finite numbers *)


Lemma isFinite_spec x :
  isFinite x = true <->
  (exists s, Prim2SF x = S754_zero s) \/ (exists s m e, Prim2SF x = S754_finite s m e).
Proof.
  unfold isFinite. rewrite ltb_spec, abs_spec.
  change (Prim2SF infinity) with (S754_infinity false). unfold SFltb.
  destruct (Prim2SF x) as [s| s| |s m e]; simpl; split; intros H; try discriminate; eauto.
  - destruct H as [[? H]|(? & ? & ? & H)]; discriminate.
  - destruct H as [[? H]|(? & ? & ? & H)]; discriminate.
Qed.

Lemma isFinite_not_nan x : isFinite x = true -> not_nan x.
Proof.
  rewrite isFinite_spec, not_nan_spec.
  intros [[? ->]|(? & ? & ? & ->)]; discriminate.
Qed.

Lemma sub_finite_not_nan x y :
  isFinite x = true -> isFinite y = true -> not_nan (x - y).
Proof.
  rewrite !isFinite_spec, not_nan_spec, sub_spec. unfold SF64sub.
  intros [[s ->]|(s & m & e & ->)] [[s' ->]|(s' & m' & e' & ->)]; simpl;
    try discriminate; try (destruct s, s'; discriminate).
  apply binary_normalize_not_nan.
Qed.


End FloatFacts.

Import FloatFacts.

(* ================================================================== *)
(** ** Cache keys and the map *)

(** Induction on a serialized text, with the hypothesis for every element
    of an array. *)
Lemma json_nested_ind (P : json -> Prop) :
  P JsonNull -> (forall b, P (JsonBool b)) -> (forall x, P (JsonNum x)) ->
  (forall s, P (JsonStr s)) -> (forall l, Forall P l -> P (JsonArr l)) ->
  (forall t, P (JsonObj t)) ->
  forall j, P j.
Proof.
  intros Hnull Hbool Hnum Hstr Harr Hobj. fix IH 1.
  intros [| b | x | s | l | t];
    [exact Hnull | apply Hbool | apply Hnum | apply Hstr | apply Harr | apply Hobj].
  induction l as [|e l IHl]; constructor; [apply IH|exact IHl].
Qed.

Lemma json_eqb_eq a : forall b, json_eqb a b = true <-> a = b.
Proof.
  induction a as [| b1 | x | s | l IH | o] using json_nested_ind;
    intros [| b2 | y | t | l' | o'];
    simpl; try (split; [discriminate|congruence]); try (split; congruence).
  - rewrite Bool.eqb_true_iff. split; congruence.
  - rewrite FloatAxioms.Leibniz.eqb_spec. split; congruence.
  - rewrite String.eqb_eq. split; congruence.
  - revert l'. induction IH as [|x r Hx _ IHr]; intros [|y r'];
      try (split; [discriminate|congruence]); try (split; congruence).
    rewrite andb_true_iff, Hx, IHr. split.
    + intros [-> E]. now injection E as ->.
    + intros E. injection E as -> ->. auto.
  - rewrite String.eqb_eq. split; congruence.
Qed.

Lemma key_eqb_eq (a b : key) : key_eqb a b = true <-> a = b.
Proof.
  destruct a as [x|], b as [y|]; simpl; try (split; [discriminate|congruence]).
  - rewrite json_eqb_eq. split; congruence.
  - split; auto.
Qed.

Lemma key_eqb_refl (k : key) : key_eqb k k = true.
Proof. now apply key_eqb_eq. Qed.

Lemma key_eqb_neq (a b : key) : a <> b -> key_eqb a b = false.
Proof.
  intros H. destruct (key_eqb a b) eqn:E; [|reflexivity].
  apply key_eqb_eq in E. contradiction.
Qed.

Section MapFacts.
Context {V : Type}.
Implicit Types (m : Map V) (k : key) (v : V).

Lemma Map_has_get m k : Map_has m k = true <-> exists v, Map_get m k = Some v.
Proof.
  unfold Map_has, Map_get. induction m as [|e r IH]; simpl.
  - split; [discriminate|intros [? ?]; discriminate].
  - destruct (key_eqb (fst e) k); simpl; [|exact IH].
    split; eauto.
Qed.

Lemma Map_get_In m k v : Map_get m k = Some v -> In (k, v) m.
Proof.
  unfold Map_get. induction m as [|[k' v'] r IH]; simpl; [discriminate|].
  destruct (key_eqb k' k) eqn:E; simpl.
  - apply key_eqb_eq in E. intros [= ->]. left. congruence.
  - intros H. right. auto.
Qed.

Lemma Map_get_set m k v k' :
  Map_get (Map_set m k v) k' = if key_eqb k k' then Some v else Map_get m k'.
Proof.
  unfold Map_get. induction m as [|[k0 v0] r IH]; simpl.
  - destruct (key_eqb k k'); reflexivity.
  - destruct (key_eqb k0 k) eqn:E; simpl.
    + apply key_eqb_eq in E. subst k0. destruct (key_eqb k k'); reflexivity.
    + destruct (key_eqb k0 k') eqn:E'; simpl.
      * apply key_eqb_eq in E'. subst k0. rewrite key_eqb_neq; [reflexivity|].
        intros ->. rewrite key_eqb_refl in E. discriminate.
      * exact IH.
Qed.

Lemma Map_set_In m k v k' v' :
  In (k', v') (Map_set m k v) -> (k', v') = (k, v) \/ In (k', v') m.
Proof.
  induction m as [|[k0 v0] r IH]; simpl.
  - intros [H|[]]. now left.
  - destruct (key_eqb k0 k) eqn:E; simpl.
    + apply key_eqb_eq in E. subst k0. intros [H|H]; auto.
    + intros [H|H]; auto. destruct (IH H); auto.
Qed.

(** A key that is not in the map is appended. *)
Lemma Map_set_fresh m k v : Map_get m k = None -> Map_set m k v = m ++ [(k, v)].
Proof.
  unfold Map_get. induction m as [|[k0 v0] r IH]; simpl; [reflexivity|].
  destruct (key_eqb k0 k); simpl; [discriminate|].
  intros H. now rewrite IH.
Qed.
End MapFacts.

Lemma Map_has_false_get {V} (m : Map V) k : Map_has m k = false <-> Map_get m k = None.
Proof.
  pose proof (Map_has_get m k) as H.
  destruct (Map_has m k), (Map_get m k) as [v|]; split; intros E;
    try reflexivity; try discriminate.
  - destruct H as [H _]. destruct (H eq_refl). discriminate.
  - destruct H as [_ H]. assert (true = false) by (symmetry; apply H; eauto). discriminate.
Qed.

(* ================================================================== *)
(** ** Validation and cache keys *)

Import SequenceAnalyzer.

Lemma forallb_map_compose {A B} (f : B -> bool) (g : A -> B) l :
  forallb f (map g l) = forallb (fun x => f (g x)) l.
Proof. induction l as [|x l IH]; simpl; [reflexivity|now rewrite IH]. Qed.

Lemma forallb_pointwise {A} (f g : A -> bool) l :
  (forall x, f x = g x) -> forallb f l = forallb g l.
Proof.
  intros H. induction l as [|x l IH]; simpl; [reflexivity|now rewrite H, IH].
Qed.

(** The elements of a valid sequence are finite numbers and empty slots. *)
Lemma every_valid_number l :
  every valid_number l = true ->
  Forall (fun e => e = VHole \/ exists x, e = VNumber x /\ isFinite x = true) l.
Proof.
  unfold every. rewrite forallb_forall. intros H. apply Forall_forall.
  intros e He. specialize (H e He).
  destruct e as [| |b|x|s|l'| |o]; simpl in H; try discriminate; [|now left].
  right. exists x. split; [reflexivity|]. now apply andb_true_iff in H.
Qed.

(** [sequence.some(n => n === 0)] on the array is the test for a zero on
    the numbers it is read as: an empty slot is skipped by [some], and
    read as [NaN] it is not [=== 0]. *)
Lemma some_zero_numbers elements :
  JS.some (fun n => match n with VNumber x => strict_eq x 0 | _ => false end) elements
  = has_zero (numbers (VArray elements)).
Proof.
  unfold JS.some, has_zero, numbers.
  induction elements as [|e rest IH]; [reflexivity|].
  cbn [existsb map]. rewrite IH. now destruct e.
Qed.

(** A valid sequence prints: finite numbers as themselves, empty slots as
    [null], which is also the token of the [NaN] they read as. *)
Lemma valid_elements_serialize l :
  Forall (fun e => e = VHole \/ exists x, e = VNumber x /\ isFinite x = true) l ->
  serialize (VArray l) = Normal (JsonArr (map number_token (numbers (VArray l)))).
Proof.
  intros H. simpl.
  assert ((fix elements (l : list value) : completion (list json) :=
             match l with
             | [] => Normal []
             | e :: rest =>
                 JS.bind (serialize e)
                   (fun text => JS.bind (elements rest) (fun texts => Normal (text :: texts)))
             end) l
          = Normal (map number_token
                      (map (fun v => match v with VNumber x => x | _ => nan end) l))) as ->;
    [|reflexivity].
  induction H as [|e r He _ IH]; [reflexivity|].
  rewrite IH. destruct He as [->|(x & -> & _)]; reflexivity.
Qed.

Lemma valid_inv v :
  valid v = true ->
  exists l, (exists elements, v = VArray elements) /\ numbers v = l /\
            (2 <= List.length l)%nat /\
            Forall (fun x => isFinite x = true \/ x = nan) l.
Proof.
  unfold valid, validateSequence. destruct v as [| |b|x|s|l| |o]; simpl; try discriminate.
  destruct (List.length l <? 2)%nat eqn:L; simpl; [discriminate|].
  destruct (every valid_number l) eqn:F; simpl; [intros _|discriminate].
  apply Nat.ltb_ge in L. apply every_valid_number in F.
  eexists. split; [eauto|]. split; [reflexivity|]. rewrite length_map. split; [exact L|].
  apply Forall_forall. intros x Hx. apply in_map_iff in Hx as (e & <- & He).
  rewrite Forall_forall in F. destruct (F e He) as [->|(y & -> & Fy)]; auto.
Qed.

Lemma valid_stringify v :
  valid v = true ->
  JSON_stringify v = Normal (Some (JsonArr (map number_token (numbers v)))).
Proof.
  unfold valid, validateSequence. destruct v as [| |b|x|s|l| |o]; simpl; try discriminate.
  destruct (List.length l <? 2)%nat eqn:L; simpl; [discriminate|].
  destruct (every valid_number l) eqn:F; simpl; [intros _|discriminate].
  apply every_valid_number in F.
  pose proof (valid_elements_serialize l F) as E. simpl in E.
  unfold JSON_stringify. change (JS.bind (serialize (VArray l)) (fun text => Normal (Some text))
    = Normal (Some (JsonArr (map number_token
                 (map (fun v => match v with VNumber x => x | _ => nan end) l))))).
  simpl serialize. rewrite E. reflexivity.
Qed.

Lemma valid_prints v : valid v = true -> JSON_stringify v = Normal (cacheKey v).
Proof.
  intros V. unfold cacheKey. now rewrite (valid_stringify v V).
Qed.

Lemma valid_cacheKey v :
  valid v = true -> cacheKey v = Some (JsonArr (map number_token (numbers v))).
Proof.
  intros V. unfold cacheKey. now rewrite (valid_stringify v V).
Qed.

Lemma stringify_cacheKey v k : JSON_stringify v = Normal k -> cacheKey v = k.
Proof. intros H. unfold cacheKey. now rewrite H. Qed.

Lemma number_token_zeq x y :
  isFinite x = true \/ x = nan -> isFinite y = true \/ y = nan ->
  number_token x = number_token y -> zeq x y.
Proof.
  unfold number_token. intros [Fx| ->] [Fy| ->]; try rewrite Fx; try rewrite Fy;
    change (isFinite nan) with false; cbv iota; intros E; try discriminate;
    [|now left].
  destruct (x =? 0)%float eqn:Zx, (y =? 0)%float eqn:Zy.
  - now right.
  - injection E as E. subst y. discriminate.
  - injection E as E. subst x. discriminate.
  - injection E as E. now left.
Qed.

(** Two valid inputs with the same key hold the same numbers up to the
    sign of zero, with their empty slots at the same places. *)
Lemma same_key_zeq v v' :
  valid v = true -> valid v' = true -> cacheKey v = cacheKey v' ->
  Forall2 zeq (numbers v) (numbers v').
Proof.
  intros Hv Hv'. rewrite (valid_cacheKey v Hv), (valid_cacheKey v' Hv').
  apply valid_inv in Hv as (l & _ & El & _ & Fl).
  apply valid_inv in Hv' as (l' & _ & El' & _ & Fl').
  rewrite El, El'. clear El El'. intros [= E].
  revert l' Fl' E. induction Fl as [|x l Hx Fl IH]; intros [|y l'] Fl' E;
    try discriminate; [constructor|].
  inversion Fl' as [|? ? Hy Fl'']; subst. simpl in E. injection E as E1 E2.
  constructor; [now apply number_token_zeq|now apply IH].
Qed.

(** *** Plain data

    For plain data — what [JSON.parse] produces, [undefined] and the
    non-finite numbers — printing completes and the key tells whether the
    input is valid. *)

Lemma plain_serialize : forall v,
  plain v = true ->
  exists j, serialize v = Normal j /\ is_num_token j = valid_number v.
Proof.
  fix IH 1. intros [| |b|x|s|l| |o] P; simpl in *; try discriminate; eauto.
  - eexists. split; [reflexivity|].
    unfold number_token. destruct (isFinite x) eqn:F; simpl.
    + apply isFinite_not_nan in F. unfold not_nan in F. unfold isNaN. now rewrite F.
    + symmetry. apply andb_false_r.
  - assert (exists js,
               (fix elements (l : list value) : completion (list json) :=
                  match l with
                  | [] => Normal []
                  | e :: rest =>
                      JS.bind (serialize e)
                        (fun text =>
                           JS.bind (elements rest) (fun texts => Normal (text :: texts)))
                  end) l = Normal js) as (js & ->).
    { induction l as [|e r IHr]; [eauto|].
      simpl in P. apply andb_true_iff in P as [Pe Pr].
      destruct (IH e Pe) as (j & -> & _). destruct (IHr Pr) as (js & ->).
      simpl. eauto. }
    simpl. eauto.
  - destruct o as [[[| | | | |t]|]|e]; try discriminate. simpl. eauto.
Qed.

Lemma plain_elements l :
  forallb plain l = true ->
  exists js, serialize (VArray l) = Normal (JsonArr js) /\
             List.length js = List.length l /\
             forallb is_num_token js = every valid_number l.
Proof.
  intros P. simpl.
  assert (exists js,
             (fix elements (l : list value) : completion (list json) :=
                match l with
                | [] => Normal []
                | e :: rest =>
                    JS.bind (serialize e)
                      (fun text =>
                         JS.bind (elements rest) (fun texts => Normal (text :: texts)))
                end) l = Normal js /\
             List.length js = List.length l /\
             forallb is_num_token js = every valid_number l) as (js & -> & H).
  { induction l as [|e r IHr]; [exists []; auto|].
    simpl in P. apply andb_true_iff in P as [Pe Pr].
    destruct (plain_serialize e Pe) as (j & -> & Hj).
    destruct (IHr Pr) as (js & -> & Hl & Hf).
    exists (j :: js). simpl. split; [reflexivity|]. split; [now rewrite Hl|].
    rewrite Hj, Hf. unfold every. simpl.
    destruct e; try reflexivity. discriminate. }
  simpl. eauto.
Qed.

Lemma plain_prints v : plain v = true -> JSON_stringify v = Normal (cacheKey v).
Proof.
  intros P. unfold cacheKey.
  destruct v as [| |b|x|s|l| |o]; simpl in *; try reflexivity; try discriminate.
  - destruct (plain_elements l P) as (js & E & _). simpl in E.
    change (JS.bind (serialize (VArray l)) (fun text => Normal (Some text)))
      with (JS.bind (serialize (VArray l)) (fun text => Normal (Some text))).
    unfold JSON_stringify. simpl serialize. simpl in *. rewrite E. reflexivity.
  - destruct o as [[[| | | | |t]|]|e]; try discriminate. reflexivity.
Qed.

(** Whether a plain input is valid can be read off its cache key. *)
Lemma valid_valid_key v : plain v = true -> valid v = valid_key (cacheKey v).
Proof.
  intros P. unfold valid, validateSequence, cacheKey.
  destruct v as [| |b|x|s|l| |o]; simpl in *; try reflexivity; try discriminate.
  - unfold number_token. destruct (isFinite x); reflexivity.
  - destruct (plain_elements l P) as (js & E & Hl & Hf). simpl in E.
    unfold JSON_stringify. simpl serialize. simpl in *. rewrite E. simpl.
    rewrite Hl, Hf.
    destruct (List.length l <? 2)%nat; simpl; [reflexivity|].
    destruct (every valid_number l); reflexivity.
  - destruct o as [[[| | | | |t]|]|e]; try discriminate. reflexivity.
Qed.

Lemma same_key_same_valid v v' :
  plain v = true -> plain v' = true ->
  cacheKey v = cacheKey v' -> valid v = valid v'.
Proof. intros P P' H. now rewrite !valid_valid_key, H. Qed.

(* ================================================================== *)
(** ** The difference table *)

Lemma calculateDifferences_length s :
  List.length (calculateDifferences s) = (List.length s - 1)%nat.
Proof.
  induction s as [|a [|b r] IH]; simpl in *; try reflexivity.
  rewrite IH. lia.
Qed.

Lemma difference_row_length n s :
  List.length (difference_row n s) = (List.length s - n)%nat.
Proof.
  unfold difference_row. induction n as [|n IH]; simpl; [lia|].
  rewrite calculateDifferences_length, IH. lia.
Qed.

Lemma difference_row_S n s :
  difference_row (S n) s = calculateDifferences (difference_row n s).
Proof. reflexivity. Qed.

Lemma calculateDifferences_zeq s s' :
  Forall2 zeq s s' -> Forall2 zeq (calculateDifferences s) (calculateDifferences s').
Proof.
  induction 1 as [|a a' r r' Ha Hr IH]; simpl; [constructor|].
  destruct Hr as [|b b' t t' Hb Ht]; [constructor|].
  constructor; [now apply zeq_sub|exact IH].
Qed.

Lemma difference_row_zeq n s s' :
  Forall2 zeq s s' -> Forall2 zeq (difference_row n s) (difference_row n s').
Proof.
  intros H. unfold difference_row. induction n as [|n IH]; simpl; [exact H|].
  now apply calculateDifferences_zeq.
Qed.

Lemma set_row_length t i row : List.length (set_row t i row) = List.length t.
Proof.
  revert i. induction t as [|r t IH]; intros [|i]; simpl; try reflexivity.
  now rewrite IH.
Qed.

Lemma work_back_up_length upper : forall t,
  List.length (work_back_up upper t) = List.length t.
Proof.
  induction upper as [|i IH]; intros t; simpl; [reflexivity|].
  now rewrite IH, set_row_length.
Qed.

(** Once row [level] exists, extending the table cannot fail. *)
Lemma extend_rows_Normal count level c : forall t,
  (level < List.length t)%nat ->
  exists predictions, extend_rows count level c t = Normal predictions
                      /\ List.length predictions = count.
Proof.
  induction count as [|count IH]; intros t Ht; simpl; [eauto|].
  destruct (nth_error t level) as [row|] eqn:E.
  - edestruct IH as (ps & -> & Hl).
    2:{ simpl. eexists. split; [reflexivity|]. simpl. now rewrite Hl. }
    now rewrite work_back_up_length, set_row_length.
  - apply nth_error_None in E. lia.
Qed.

Lemma build_table_length todo : forall pre row,
  (todo < List.length row)%nat ->
  List.length (build_table todo (pre ++ [row])) = (List.length pre + 1 + todo)%nat.
Proof.
  induction todo as [|todo IH]; intros pre row H; simpl.
  - rewrite length_app. simpl. lia.
  - rewrite last_last.
    pose proof (calculateDifferences_length row) as L.
    destruct (calculateDifferences row) as [|d ds] eqn:E; [simpl in L; lia|].
    rewrite IH; [rewrite length_app; simpl; lia|].
    rewrite L. lia.
Qed.

(** [predictPolynomial] completes whenever the sequence is long enough for
    the table to reach row [level + 1]. *)
Lemma predictPolynomial_Normal s level c count :
  (level + 2 <= List.length s)%nat ->
  exists predictions, predictPolynomial s level c count = Normal predictions
                      /\ List.length predictions = count.
Proof.
  intros H. unfold predictPolynomial. apply extend_rows_Normal.
  pose proof (build_table_length (S level) [] s) as L.
  change ([] ++ [s]) with [s] in L. rewrite L; simpl; lia.
Qed.

(* ================================================================== *)
(** ** The detectors *)

Lemma forallb_zeq (f f' : float -> bool) l l' :
  Forall2 zeq l l' -> (forall x x', zeq x x' -> f x = f' x') ->
  forallb f l = forallb f' l'.
Proof.
  intros H Hf. induction H as [|x x' l l' Hx _ IH]; simpl; [reflexivity|].
  now rewrite (Hf x x' Hx), IH.
Qed.

Lemma existsb_zeq (f f' : float -> bool) l l' :
  Forall2 zeq l l' -> (forall x x', zeq x x' -> f x = f' x') ->
  existsb f l = existsb f' l'.
Proof.
  intros H Hf. induction H as [|x x' l l' Hx _ IH]; simpl; [reflexivity|].
  now rewrite (Hf x x' Hx), IH.
Qed.

Lemma hd_zeq l l' : Forall2 zeq l l' -> zeq (hd nan l) (hd nan l').
Proof. intros [|]; simpl; [apply zeq_refl|assumption]. Qed.

Lemma hd_error_zeq l l' : Forall2 zeq l l' -> opt_zeq (hd_error l) (hd_error l').
Proof. intros [|]; simpl; auto. Qed.

Lemma same_class_refl d : same_class d d.
Proof.
  unfold same_class, opt_zeq. repeat split;
    destruct (det_commonDifference d), (det_commonRatio d); auto using zeq_refl.
Qed.

(** A sequence without zeros is determined by its key. *)
Lemma zeq_no_zero l l' :
  Forall2 zeq l l' -> existsb (fun n => strict_eq n 0) l = false -> l = l'.
Proof.
  induction 1 as [|x x' l l' Hx _ IH]; simpl; [reflexivity|].
  intros H. apply orb_false_iff in H as [Hz Hl].
  rewrite (IH Hl). f_equal.
  destruct Hx as [E|[Z _]]; [exact E|].
  unfold is_zero, strict_eq in *. congruence.
Qed.

Lemma detectArithmetic_zeq s s' :
  Forall2 zeq s s' -> same_class (detectArithmetic s) (detectArithmetic s').
Proof.
  intros H. unfold detectArithmetic.
  pose proof (calculateDifferences_zeq s s' H) as Hd.
  rewrite (forallb_zeq _ (fun d => strict_eq d (hd nan (calculateDifferences s'))) _ _ Hd).
  2:{ intros x x' Hx. apply eqb_zeq_compat; [exact Hx|now apply hd_zeq]. }
  destruct (forallb _ (calculateDifferences s')); [|apply same_class_refl].
  unfold same_class; simpl. repeat split. now apply hd_error_zeq.
Qed.

Lemma fibonacci_matchCount_zeq s s' :
  Forall2 zeq s s' -> fibonacci_matchCount s = fibonacci_matchCount s'.
Proof.
  induction 1 as [|a a' r r' Ha Hr IH]; simpl; [reflexivity|].
  destruct Hr as [|b b' t t' Hb Ht]; [reflexivity|].
  destruct Ht as [|c c' u u' Hc Hu]; [reflexivity|].
  rewrite (ltb_zeq_compat (abs (c - (b + a))) (abs (c' - (b' + a'))) 0.0001 0.0001).
  - destruct (_ <? _)%float; [|reflexivity]. f_equal. exact IH.
  - apply zeq_abs, zeq_sub; [exact Hc|now apply zeq_add].
  - apply zeq_refl.
Qed.

Lemma detectFibonacci_zeq s s' :
  Forall2 zeq s s' -> same_class (detectFibonacci s) (detectFibonacci s').
Proof.
  intros H. unfold detectFibonacci.
  rewrite (fibonacci_matchCount_zeq s s' H), (Forall2_length H).
  destruct (_ <? 3)%nat; [apply same_class_refl|].
  destruct (_ <=? _)%nat; [|apply same_class_refl].
  unfold same_class; simpl. auto.
Qed.

Lemma detectGeometric_zeq s s' :
  Forall2 zeq s s' ->
  match detectGeometric s, detectGeometric s' with
  | Normal d, Normal d' => same_class d d'
  | Throw _, Throw _ => True
  | _, _ => False
  end.
Proof.
  intros H. unfold detectGeometric.
  rewrite <- (existsb_zeq (fun n => strict_eq n 0) (fun n => strict_eq n 0) s s' H).
  2:{ intros x x' Hx. apply eqb_zeq_compat; [exact Hx|apply zeq_refl]. }
  destruct (existsb _ s) eqn:Z; [apply same_class_refl|].
  rewrite <- (zeq_no_zero s s' H Z).
  destruct (forallb _ (ratios_loop s)); [|apply same_class_refl].
  destruct (hd_error (ratios_loop s)); [apply same_class_refl|exact I].
Qed.

Lemma same_class_no_match d d' : same_class d d' -> no_match d = no_match d'.
Proof. intros [H _]. unfold no_match. now rewrite H. Qed.

Lemma ratios_loop_length s :
  List.length (ratios_loop s) = (List.length s - 1)%nat.
Proof.
  induction s as [|a [|b r] IH]; simpl in *; try reflexivity.
  rewrite IH. lia.
Qed.

Lemma detectGeometric_Normal s :
  (2 <= List.length s)%nat -> exists d, detectGeometric s = Normal d.
Proof.
  intros H. unfold detectGeometric.
  destruct (existsb _ s); [eauto|].
  destruct (forallb _ (ratios_loop s)); [|eauto].
  pose proof (ratios_loop_length s) as L.
  destruct (ratios_loop s); simpl in *; [lia|eauto].
Qed.

Lemma polynomial_loop_zeq fuel : forall s s' level,
  Forall2 zeq s s' ->
  exists d d',
    polynomial_loop fuel s (difference_row level s) level = Normal d /\
    polynomial_loop fuel s' (difference_row level s') level = Normal d' /\
    polynomial_outcome d /\ same_class d d'.
Proof.
  induction fuel as [|fuel IH]; intros s s' level H; simpl.
  - exists no_pattern, no_pattern.
    split; [reflexivity|]. split; [reflexivity|]. split; [now left|apply same_class_refl].
  - pose proof (difference_row_zeq (S level) s s' H) as Hd.
    change (calculateDifferences (difference_row level s)) with (difference_row (S level) s).
    change (calculateDifferences (difference_row level s')) with (difference_row (S level) s').
    pose proof (difference_row_length (S level) s) as L.
    pose proof (difference_row_length (S level) s') as L'.
    remember (difference_row (S level) s) as D eqn:ED.
    remember (difference_row (S level) s') as D' eqn:ED'.
    destruct Hd as [|x x' r r' Hx Hr].
    + exists no_pattern, no_pattern.
    split; [reflexivity|]. split; [reflexivity|]. split; [now left|apply same_class_refl].
    + rewrite (forallb_zeq (fun d => strict_eq d x) (fun d => strict_eq d x')
                 (x :: r) (x' :: r')).
      2:{ now constructor. }
      2:{ intros y y' Hy. now apply eqb_zeq_compat. }
      destruct (forallb _ (x' :: r')).
      * simpl in L, L'.
        destruct (predictPolynomial_Normal s level x 5) as (ps & -> & _); [lia|].
        destruct (predictPolynomial_Normal s' level x' 5) as (ps' & -> & _); [lia|].
        simpl. do 2 eexists. split; [reflexivity|]. split; [reflexivity|].
        split; [right; eauto|]. unfold same_class; simpl. auto.
      * rewrite ED, ED'. apply (IH s s' (S level) H).
Qed.

(** On a sequence of at least two numbers the detector chain completes and
    names a pattern; sequences with the same key get the same class. *)
Lemma detect_zeq s s' :
  Forall2 zeq s s' -> (2 <= List.length s)%nat ->
  exists d d', detect s = Normal d /\ detect s' = Normal d' /\
               same_class d d' /\ exists p, det_pattern d = Some p.
Proof.
  assert (named : forall d, no_match d = false -> exists p, det_pattern d = Some p).
  { unfold no_match. intros d. destruct (det_pattern d); [eauto|discriminate]. }
  intros H L. unfold detect.
  pose proof (detectArithmetic_zeq s s' H) as HA.
  rewrite <- (same_class_no_match _ _ HA).
  destruct (no_match (detectArithmetic s)) eqn:NA.
  - pose proof (detectGeometric_zeq s s' H) as HG.
    destruct (detectGeometric_Normal s L) as (g & Eg).
    rewrite Eg in HG |- *. destruct (detectGeometric s') as [g'|]; [|contradiction].
    simpl. rewrite <- (same_class_no_match _ _ HG).
    destruct (no_match g) eqn:NG.
    + pose proof (detectFibonacci_zeq s s' H) as HF.
      rewrite <- (same_class_no_match _ _ HF).
      destruct (no_match (detectFibonacci s)) eqn:NF.
      * unfold detectPolynomial.
        destruct (polynomial_loop_zeq 5 s s' 0 H) as (d & d' & E & E' & Ho & Hc).
        change (difference_row 0 s) with s in E.
        change (difference_row 0 s') with s' in E'.
        rewrite E, E'. simpl. rewrite <- (same_class_no_match _ _ Hc).
        destruct (no_match d) eqn:ND.
        -- do 2 eexists. split; [reflexivity|]. split; [reflexivity|].
           split; [apply same_class_refl|]. simpl. eauto.
        -- do 2 eexists. split; [reflexivity|]. split; [reflexivity|]. split; [exact Hc|].
           now apply named.
      * pose proof (same_class_no_match _ _ HF) as NF'. rewrite NF in NF'.
        simpl. rewrite ?NF, <- ?NF'. simpl. rewrite ?NF, <- ?NF'.
        do 2 eexists. split; [reflexivity|]. split; [reflexivity|]. split; [exact HF|].
        now apply named.
    + pose proof (same_class_no_match _ _ HG) as NG'. rewrite NG in NG'.
      simpl. rewrite ?NG, <- ?NG'. simpl. rewrite ?NG, <- ?NG'.
      do 2 eexists. split; [reflexivity|]. split; [reflexivity|]. split; [exact HG|].
      now apply named.
  - pose proof (same_class_no_match _ _ HA) as NA'. rewrite NA in NA'.
    simpl. rewrite ?NA, <- ?NA'. simpl. rewrite ?NA, <- ?NA'.
    do 2 eexists. split; [reflexivity|]. split; [reflexivity|]. split; [exact HA|].
    now apply named.
Qed.

Lemma Forall2_zeq_refl s : Forall2 zeq s s.
Proof. induction s; constructor; auto using zeq_refl. Qed.

Lemma Forall2_zeq_sym s s' : Forall2 zeq s s' -> Forall2 zeq s' s.
Proof. induction 1; constructor; auto using zeq_sym. Qed.

Lemma detect_Normal s :
  (2 <= List.length s)%nat ->
  exists d p, detect s = Normal d /\ det_pattern d = Some p.
Proof.
  intros L. destruct (detect_zeq s s (Forall2_zeq_refl s) L) as (d & _ & E & _ & _ & p & Hp).
  eauto.
Qed.

(* ================================================================== *)
(** ** One call of [analyze] *)

Lemma prints_stringify v : prints v = true -> JSON_stringify v = Normal (cacheKey v).
Proof. unfold prints, cacheKey. destruct (JSON_stringify v); [reflexivity|discriminate]. Qed.

Lemma valid_is_printed v : valid v = true -> prints v = true.
Proof. intros V. unfold prints. now rewrite (valid_stringify v V). Qed.

Lemma plain_is_printed v : plain v = true -> prints v = true.
Proof. intros P. unfold prints. now rewrite (plain_prints v P). Qed.

(** When [JSON.stringify] raises, so does [analyze], with the same error. *)
Lemma analyze_raises clk this v :
  prints v = false ->
  exists e, JSON_stringify v = Throw e /\ analyze clk this v = Throw e.
Proof.
  unfold prints, analyze. destruct (JSON_stringify v) as [k|e]; [discriminate|eauto].
Qed.

(** The three ways a call goes once the key is computed: served from the
    cache, rejected by validation, or analysed. *)
Lemma analyze_cases clk this v :
  prints v = true ->
  (exists cached,
     Map_get (analysisCache this) (cacheKey v) = Some cached /\
     analyze clk this v = Normal (cached, hit_state this))
  \/ (Map_get (analysisCache this) (cacheKey v) = None /\ valid v = false /\
      analyze clk this v = Normal (failure v, this))
  \/ (Map_get (analysisCache this) (cacheKey v) = None /\ valid v = true /\
      exists d p, detect (numbers v) = Normal d /\ det_pattern d = Some p /\
        analyze clk this v = Normal (fresh_result clk v d, fresh_state clk this v d)).
Proof.
  intros P. unfold analyze, fresh_state. rewrite (prints_stringify v P). simpl JS.bind.
  destruct (Map_get (analysisCache this) (cacheKey v)) as [cached|] eqn:G.
  - left. eauto.
  - right. fold (valid v). destruct (valid v) eqn:V; simpl.
    + right. repeat split.
      destruct (valid_inv v V) as (l & _ & El & Ll & _).
      destruct (detect_Normal (numbers v)) as (d & p & Ed & Hp); [rewrite El; exact Ll|].
      exists d, p. rewrite Ed. simpl. auto.
    + left. auto.
Qed.

(** [analyze] raises only where [JSON.stringify] does. *)
Lemma analyze_Normal clk this v :
  prints v = true -> exists r this', analyze clk this v = Normal (r, this').
Proof.
  intros P.
  destruct (analyze_cases clk this v P)
    as [(c & _ & E)|[(_ & _ & E)|(_ & _ & d & p & _ & _ & E)]];
    eauto.
Qed.

Lemma analyze_Normal_prints clk this v x : analyze clk this v = Normal x -> prints v = true.
Proof.
  unfold analyze, prints. destruct (JSON_stringify v); [reflexivity|discriminate].
Qed.

Lemma analyze_Throw_prints clk this v e :
  analyze clk this v = Throw e -> prints v = false /\ JSON_stringify v = Throw e.
Proof.
  intros E. destruct (prints v) eqn:P.
  - destruct (analyze_Normal clk this v P) as (r & st & E'). congruence.
  - destruct (analyze_raises clk this v P) as (e' & Es & E'). split; [reflexivity|congruence].
Qed.

Lemma fresh_result_of_its_sequence clk v d :
  valid v = true -> detect (numbers v) = Normal d ->
  analysis_of_its_sequence (fresh_result clk v d).
Proof.
  intros V E. unfold analysis_of_its_sequence. simpl. repeat split; auto.
  exists d. split; [exact E|]. unfold findings_of. simpl. tauto.
Qed.

Lemma analyze_invariant clk this v r this' :
  invariant this -> analyze clk this v = Normal (r, this') -> invariant this'.
Proof.
  intros [Hc Hh] E.
  destruct (analyze_cases clk this v (analyze_Normal_prints _ _ _ _ E))
    as [(c & _ & E')|[(_ & _ & E')|(_ & V & d & p & Ed & _ & E')]];
    rewrite E' in E; injection E as <- <-.
  - split; assumption.
  - split; assumption.
  - split; simpl.
    + intros k a Hin. apply Map_set_In in Hin as [Hin|Hin]; [|now apply Hc].
      injection Hin as -> ->. split; [reflexivity|].
      now apply fresh_result_of_its_sequence.
    + apply Forall_app. split; [exact Hh|]. constructor; [reflexivity|constructor].
Qed.

Lemma constructor_invariant : invariant constructor.
Proof. split; simpl; [intros k r []|constructor]. Qed.

Lemma after_invariant c this this' :
  invariant this -> after c this = Normal this' -> invariant this'.
Proof.
  intros I. destruct c as [clk v|clk1 clk2 v1 v2| | |]; simpl.
  - destruct (analyze clk this v) as [[r st]|] eqn:E; simpl; [|discriminate].
    intros [= <-]. eapply analyze_invariant; eauto.
  - unfold comparSequences.
    destruct (analyze clk1 this v1) as [[r1 st1]|] eqn:E1; simpl; [|discriminate].
    destruct (analyze clk2 st1 v2) as [[r2 st2]|] eqn:E2; simpl; [|discriminate].
    intros [= <-]. eapply analyze_invariant; [|exact E2]. eapply analyze_invariant; eauto.
  - now intros [= <-].
  - now intros [= <-].
  - intros [= <-]. apply constructor_invariant.
Qed.

Lemma reachable_invariant this : reachable this -> invariant this.
Proof.
  induction 1 as [|c this this' _ IH E]; [apply constructor_invariant|].
  eapply after_invariant; eauto.
Qed.

(** The state a call leaves behind when it raises is one the analyzer
    also reaches through calls that complete. *)
Lemma state_after_reachable c this : reachable this -> reachable (state_after c this).
Proof.
  intros R. destruct c as [clk v|clk1 clk2 a b| | |]; simpl; try exact R.
  - destruct (analyze clk this v) as [[r st]|e] eqn:E; [|exact R].
    apply (reachable_after (CallAnalyze clk v) this); [exact R|]. simpl. now rewrite E.
  - destruct (analyze clk1 this a) as [[ra mid]|e] eqn:Ea; [|exact R].
    assert (reachable mid) as Rm.
    { apply (reachable_after (CallAnalyze clk1 a) this); [exact R|]. simpl. now rewrite Ea. }
    destruct (analyze clk2 mid b) as [[rb st]|e] eqn:Eb; [|exact Rm].
    apply (reachable_after (CallAnalyze clk2 b) mid); [exact Rm|]. simpl. now rewrite Eb.
  - apply (reachable_after CallClear this); [exact R|reflexivity].
Qed.

(** In a well-formed cache, a hit returns an analysis of a valid sequence
    with the key of the input. *)
Lemma cache_hit_inv m v cached :
  cache_ok m -> Map_get m (cacheKey v) = Some cached ->
  cacheKey (sequence cached) = cacheKey v /\
  analysis_of_its_sequence cached.
Proof.
  intros Hc G. apply Map_get_In in G. destruct (Hc _ _ G) as [Ek Ha].
  split; [now symmetry|exact Ha].
Qed.

(** With plain data in the cache, a plain input that is served from the
    cache is valid. *)
Lemma plain_hit_valid this v cached :
  cache_ok (analysisCache this) -> plain_cache this = true -> plain v = true ->
  Map_get (analysisCache this) (cacheKey v) = Some cached -> valid v = true.
Proof.
  intros Hc Pc P G.
  pose proof (Map_get_In _ _ _ G) as Hin.
  destruct (cache_hit_inv _ _ _ Hc G) as (Ek & (_ & V & _)).
  unfold plain_cache in Pc. rewrite forallb_forall in Pc. specialize (Pc _ Hin). simpl in Pc.
  now rewrite (same_key_same_valid v (sequence cached) P Pc (eq_sym Ek)).
Qed.

(** An input that fails validation and whose key is not in the cache is
    answered with the failure object and leaves the analyzer as it was. *)
Lemma analyze_invalid clk this v :
  prints v = true -> Map_get (analysisCache this) (cacheKey v) = None ->
  valid v = false ->
  analyze clk this v = Normal (failure v, this).
Proof.
  intros P G V.
  destruct (analyze_cases clk this v P) as [(c & G' & _)|[(_ & _ & E)|(_ & V' & _)]];
    [congruence|exact E|congruence].
Qed.

(** The key of a plain input that fails validation is never in a cache
    that holds plain data. *)
Lemma plain_invalid_not_cached this v :
  cache_ok (analysisCache this) -> plain_cache this = true -> plain v = true ->
  valid v = false -> Map_get (analysisCache this) (cacheKey v) = None.
Proof.
  intros Hc Pc P V.
  destruct (Map_get (analysisCache this) (cacheKey v)) as [c|] eqn:G; [|reflexivity].
  rewrite (plain_hit_valid this v c Hc Pc P G) in V. discriminate.
Qed.

Lemma analyze_plain_invalid clk this v :
  cache_ok (analysisCache this) -> plain_cache this = true -> plain v = true ->
  valid v = false ->
  analyze clk this v = Normal (failure v, this).
Proof.
  intros Hc Pc P V. apply analyze_invalid; [now apply plain_is_printed| |exact V].
  now apply plain_invalid_not_cached.
Qed.

(** A valid input is answered with a successful analysis of a sequence
    with the same key: the input itself, or the one analysed when the
    entry was cached. *)
Lemma analyze_valid clk this v :
  cache_ok (analysisCache this) -> valid v = true ->
  exists r this' d,
    analyze clk this v = Normal (r, this') /\
    success r = true /\ valid (sequence r) = true /\
    Forall2 zeq (numbers (sequence r)) (numbers v) /\
    detect (numbers (sequence r)) = Normal d /\ findings_of d r.
Proof.
  intros Hc V.
  destruct (analyze_cases clk this v (valid_is_printed v V))
    as [(c & G & E)|[(_ & V' & _)|(_ & _ & d & p & Ed & _ & E)]].
  - apply (cache_hit_inv _ _ _ Hc) in G as (Ek & (Hs & Vc & d & Ed & Hf)).
    exists c, (hit_state this), d.
    split; [exact E|]. split; [exact Hs|]. split; [exact Vc|].
    split; [now apply same_key_zeq|]. split; assumption.
  - congruence.
  - exists (fresh_result clk v d), (fresh_state clk this v d), d.
    split; [exact E|]. simpl. split; [reflexivity|]. split; [exact V|].
    split; [apply Forall2_zeq_refl|]. split; [exact Ed|].
    unfold findings_of. simpl. tauto.
Qed.

(** Analysing plain data keeps plain data in the cache. *)
Lemma analyze_plain_cache clk this v r this' :
  plain_cache this = true -> plain v = true ->
  analyze clk this v = Normal (r, this') -> plain_cache this' = true.
Proof.
  intros Pc P E.
  destruct (analyze_cases clk this v (plain_is_printed v P))
    as [(c & _ & E')|[(_ & _ & E')|(G & _ & d & p & _ & _ & E')]];
    rewrite E' in E; injection E as <- <-; try exact Pc.
  unfold plain_cache, fresh_state. simpl. rewrite (Map_set_fresh _ _ _ G), forallb_app.
  unfold plain_cache in Pc. rewrite Pc. simpl. now rewrite P.
Qed.

(* ================================================================== *)
(** ** Validation failures *)

Lemma valid_number_finite_real e : valid_number e = true <-> finite_real e.
Proof.
  unfold finite_real. destruct e as [| |b|x|s|l| |o]; simpl;
    try (split; [discriminate|intros (x & E & _); discriminate]).
  rewrite andb_true_iff, negb_true_iff. split.
  - intros [_ F]. exists x. split; [reflexivity|].
    apply isFinite_spec in F.
    repeat split; intros ->; destruct F as [[s F]|(s & m & e & F)]; discriminate.
  - intros (y & [= <-] & Hn & Hp & Hm).
    assert (isFinite x = true) as F.
    { apply isFinite_spec. destruct (Prim2SF x) as [s|[|]| |s m e] eqn:E; eauto.
      - exfalso. apply Hm. now apply Prim2SF_inj.
      - exfalso. apply Hp. now apply Prim2SF_inj.
      - exfalso. apply Hn. now apply Prim2SF_inj. }
    split; [|exact F]. apply isFinite_not_nan in F. unfold isNaN, not_nan in *.
    now rewrite F.
Qed.

Lemma every_false l :
  every valid_number l = false ->
  exists e, In e l /\ e <> VHole /\ valid_number e = false.
Proof.
  unfold every. induction l as [|e l IH]; simpl; [discriminate|].
  intros F. apply andb_false_iff in F as [F|F].
  - exists e. split; [now left|]. destruct e; try (split; [discriminate|exact F]).
    discriminate.
  - destruct (IH F) as (e' & He' & Hv'). exists e'. simpl. auto.
Qed.

Lemma every_true l e :
  every valid_number l = true -> In e l -> e <> VHole -> valid_number e = true.
Proof.
  unfold every. rewrite forallb_forall. intros H He Hh. specialize (H e He).
  destruct e; try exact H. contradiction.
Qed.

(** The kind that [validateSequence] reports, with the condition that makes
    it apply; the checks run in the order array, length, elements, so the
    first kind that applies is the one reported. *)
Lemma validateSequence_kind v :
  valid v = false ->
  exists k,
    validation_error (validateSequence v) = Some (message k) /\ reported k v /\
    (reported NotAnArray v -> k = NotAnArray) /\ (reported TooShort v -> k = TooShort).
Proof.
  unfold valid, validateSequence.
  destruct v as [| |b|x|s|l| |o];
    try (intros _; exists NotAnArray;
         split; [reflexivity|]; split; [intros l' E; discriminate|];
         split; [reflexivity|intros (l' & E & _); discriminate]).
  destruct (List.length l <? 2)%nat eqn:L.
  - intros _. exists TooShort. split; [reflexivity|]. apply Nat.ltb_lt in L.
    split; [simpl; eauto|]. split; [|reflexivity].
    intros H. now destruct (H l).
  - destruct (every valid_number l) eqn:F; simpl; [discriminate|].
    intros _. exists NonNumeric. split; [reflexivity|]. apply Nat.ltb_ge in L.
    split.
    + exists l. split; [reflexivity|].
      destruct (every_false l F) as (e & He & Hh & Hv).
      exists e. split; [exact He|]. split; [exact Hh|].
      rewrite <- valid_number_finite_real. congruence.
    + split.
      * intros H. now destruct (H l).
      * intros (l' & [= <-] & H). lia.
Qed.

(** A valid input is one for which the code reports no failure kind. *)
Lemma valid_iff_no_kind v : valid v = true <-> forall k, ~ reported k v.
Proof.
  split.
  - unfold valid, validateSequence.
    destruct v as [| |b|x|s|l| |o]; simpl; try discriminate.
    destruct (List.length l <? 2)%nat eqn:L; simpl; [discriminate|].
    destruct (every valid_number l) eqn:F; simpl; [intros _|discriminate].
    apply Nat.ltb_ge in L.
    intros [| |]; simpl.
    + intros H. now apply (H l).
    + intros (l' & [= <-] & H). lia.
    + intros (l' & [= <-] & e & He & Hh & Hn). apply Hn.
      apply valid_number_finite_real. now apply (every_true l).
  - intros H. destruct (valid v) eqn:V; [reflexivity|].
    destruct (validateSequence_kind v V) as (k & _ & Hk & _). now apply H in Hk.
Qed.

Lemma message_injective k k' : message k = message k' -> k = k'.
Proof. destruct k, k'; simpl; intros E; try reflexivity; discriminate. Qed.

Lemma not_cached_get this v :
  not_cached this v ->
  prints v = true /\ Map_get (analysisCache this) (cacheKey v) = None.
Proof. intros [P H]. split; [exact P|]. now apply Map_has_false_get. Qed.

(** For plain data in an analyzer that holds plain data, the key of an
    input that fails validation is never in the cache. *)
Lemma plain_invalid_not_cached' this v :
  reachable this -> plain_cache this = true -> plain v = true -> valid v = false ->
  not_cached this v.
Proof.
  intros R Pc P V. apply reachable_invariant in R as [Hc _].
  split; [now apply plain_is_printed|]. apply Map_has_false_get.
  now apply plain_invalid_not_cached.
Qed.

(** C7 (as the code has it).  An input that fails validation is reported
    under exactly one of the three failure kinds, whose condition it meets:
    not an array, fewer than two elements, or an element, other than an
    empty slot, that is not a finite real number; when an array is both too
    short and non-numeric, it is reported as too short.  When the key of
    the input is not in the cache, which is so for every plain-data input
    in an analyzer that holds plain data, the kind is surfaced as a result
    with [success = false] that carries the kind's non-empty message and no
    pattern, confidence or prediction; [analyze] then completes normally
    and leaves the analyzer untouched. *)
Theorem C7_validation_failure_kinds (clk : clock) (this : state) (v : value) :
  valid v = false ->
  (reachable this -> plain_cache this = true -> plain v = true -> not_cached this v) /\
  exists k,
    validation_error (validateSequence v) = Some (message k) /\
    message k <> EmptyString /\
    reported k v /\
    (forall k', validation_error (validateSequence v) = Some (message k') -> k' = k) /\
    (reported NotAnArray v -> k = NotAnArray) /\
    (reported TooShort v -> k = TooShort) /\
    (not_cached this v ->
     exists r,
       analyze clk this v = Normal (r, this) /\
       success r = false /\ error r = Some (message k) /\
       pattern r = None /\ nextNumbers r = None /\ confidence r = None).
Proof.
  intros V. split; [intros R Pc P; now apply plain_invalid_not_cached'|].
  destruct (validateSequence_kind v V) as (k & Ek & Hk & H1 & H2).
  exists k. split; [exact Ek|]. split; [destruct k; discriminate|].
  split; [exact Hk|]. split.
  { intros k' E. rewrite Ek in E. injection E as E. symmetry. now apply message_injective. }
  split; [exact H1|]. split; [exact H2|].
  intros N. apply not_cached_get in N as [P G].
  exists (failure v). split; [now apply analyze_invalid|].
  simpl. rewrite Ek. repeat split.
Qed.

Lemma C7_witness :
  not_cached constructor (VArray [VNumber 1; VNumber nan; VNumber 4]) /\
  exists k,
    validation_error (validateSequence (VArray [VNumber 1; VNumber nan; VNumber 4]))
    = Some (message k) /\
    message k <> EmptyString /\
    reported k (VArray [VNumber 1; VNumber nan; VNumber 4]) /\
    (forall k',
        validation_error (validateSequence (VArray [VNumber 1; VNumber nan; VNumber 4]))
        = Some (message k') -> k' = k) /\
    (reported NotAnArray (VArray [VNumber 1; VNumber nan; VNumber 4]) -> k = NotAnArray) /\
    (reported TooShort (VArray [VNumber 1; VNumber nan; VNumber 4]) -> k = TooShort) /\
    exists r,
      analyze (mkClock 0 1 "t") constructor (VArray [VNumber 1; VNumber nan; VNumber 4])
      = Normal (r, constructor) /\
      success r = false /\ error r = Some (message k) /\
      pattern r = None /\ nextNumbers r = None /\ confidence r = None.
Proof.
  destruct (C7_validation_failure_kinds (mkClock 0 1 "t") constructor
              (VArray [VNumber 1; VNumber nan; VNumber 4]))
    as (N & k & E & M & Hk & U & P1 & P2 & H).
  - vm_compute. reflexivity.
  - assert (not_cached constructor (VArray [VNumber 1; VNumber nan; VNumber 4])) as N0.
    { apply N; [apply reachable_constructor|reflexivity|reflexivity]. }
    split; [exact N0|].
    exists k. repeat (split; [assumption|]). exact (H N0).
Defined.

(** C7 as stated fails in three ways.  An array with an empty slot has an
    element that is not a finite real number, and passes validation.  A
    [BigInt] fails validation, and [analyze] raises on it, because the key
    is computed first.  And a list of boxed numbers fails validation, but
    after [analyze([4,8])] it is answered with the cached successful
    analysis, because it prints the same key. *)
Lemma C7_counterexample :
  (applies NonNumeric (VArray [VNumber 1; VHole; VNumber 3]) /\
   valid (VArray [VNumber 1; VHole; VNumber 3]) = true /\
   exists r this',
     analyze (mkClock 0 1 "t") constructor (VArray [VNumber 1; VHole; VNumber 3])
     = Normal (r, this') /\ success r = true) /\
  (valid bigint = false /\
   analyze (mkClock 0 1 "t") constructor bigint
   = Throw "TypeError: Do not know how to serialize a BigInt") /\
  (valid (VArray [boxed_number 4; boxed_number 8]) = false /\
   exists r0 st r this',
     analyze (mkClock 0 1 "t") constructor (VArray [VNumber 4; VNumber 8]) = Normal (r0, st) /\
     analyze (mkClock 2 3 "u") st (VArray [boxed_number 4; boxed_number 8])
     = Normal (r, this') /\
     success r = true /\ error r = None /\ pattern r = Some arithmetic).
Proof.
  split; [|split].
  - split.
    + exists [VNumber 1; VHole; VNumber 3]. split; [reflexivity|].
      exists VHole. split; [simpl; auto|]. intros (x & E & _). discriminate.
    + split; [vm_compute; reflexivity|].
      do 2 eexists. split; [vm_compute; reflexivity|reflexivity].
  - split; vm_compute; reflexivity.
  - split; [vm_compute; reflexivity|].
    do 4 eexists. split; [vm_compute; reflexivity|].
    split; [vm_compute; reflexivity|]. repeat split; reflexivity.
Qed.

(** C3 (as the code has it).  An input that fails validation and whose key
    is not in the cache, which is so for every plain-data input in an
    analyzer that holds plain data, gets a result with [success = false]
    and an error message at once; the call changes nothing in the
    analyzer: the cache, the history and the metrics ([totalAnalyses], the
    running average, [cacheHits]) are what they were. *)
Theorem C3_invalid_input_changes_nothing (clk : clock) (this : state) (v : value) :
  valid v = false ->
  (reachable this -> plain_cache this = true -> plain v = true -> not_cached this v) /\
  (not_cached this v ->
   exists r this',
     analyze clk this v = Normal (r, this') /\
     success r = false /\ (exists msg, error r = Some msg) /\
     analysisCache this' = analysisCache this /\
     Map_has (analysisCache this') (cacheKey v) = false /\
     history this' = history this /\
     performanceMetrics this' = performanceMetrics this).
Proof.
  intros V. split; [intros R Pc P; now apply plain_invalid_not_cached'|].
  intros N. pose proof N as [_ H]. apply not_cached_get in N as [P G].
  exists (failure v), this. split; [now apply analyze_invalid|].
  destruct (validateSequence_kind v V) as (k & Ek & _).
  simpl. rewrite Ek. repeat split; eauto.
Qed.

Lemma C3_witness :
  not_cached constructor (VArray [VNumber 5]) /\
  exists r this',
    analyze (mkClock 0 1 "t") constructor (VArray [VNumber 5]) = Normal (r, this') /\
    success r = false /\ (exists msg, error r = Some msg) /\
    analysisCache this' = analysisCache constructor /\
    Map_has (analysisCache this') (cacheKey (VArray [VNumber 5])) = false /\
    history this' = history constructor /\
    performanceMetrics this' = performanceMetrics constructor.
Proof.
  destruct (C3_invalid_input_changes_nothing (mkClock 0 1 "t") constructor
              (VArray [VNumber 5])) as (N & H).
  - vm_compute. reflexivity.
  - assert (not_cached constructor (VArray [VNumber 5])) as N0.
    { apply N; [apply reachable_constructor|reflexivity|reflexivity]. }
    split; [exact N0|exact (H N0)].
Defined.

(** C3 as stated fails: on a new analyzer, [analyze([5])] is rejected and
    [totalAnalyses] is still 0, not 1, and the average is still 0 although
    the call took 7 ms.  It also fails for an input whose key is in the
    cache: after [analyze([4,8])], the list of boxed numbers 4 and 8 fails
    validation and is answered with the cached successful analysis. *)
Lemma C3_counterexample :
  let clk := mkClock 10 17 "t" in
  let v := VArray [VNumber 5] in
  (valid v = false /\
   exists r this',
     analyze clk constructor v = Normal (r, this') /\
     success r = false /\
     totalAnalyses (performanceMetrics this') = 0%float /\
     (totalAnalyses (performanceMetrics this')
      =? totalAnalyses (performanceMetrics constructor) + 1)%float = false /\
     averageAnalysisTime (performanceMetrics this') = 0%float) /\
  (valid (VArray [boxed_number 4; boxed_number 8]) = false /\
   exists r0 st r this',
     analyze clk constructor (VArray [VNumber 4; VNumber 8]) = Normal (r0, st) /\
     analyze clk st (VArray [boxed_number 4; boxed_number 8]) = Normal (r, this') /\
     success r = true).
Proof.
  simpl. split.
  - split; [vm_compute; reflexivity|].
    do 2 eexists. split; [vm_compute; reflexivity|].
    simpl. repeat split; reflexivity.
  - split; [vm_compute; reflexivity|].
    do 4 eexists. split; [vm_compute; reflexivity|].
    split; [vm_compute; reflexivity|reflexivity].
Qed.

(** C10 (as the code has it).  When both inputs of a comparison fail
    validation and neither key is in the cache, which is so for plain-data
    inputs in an analyzer that holds plain data, both results lack a
    pattern, and the comparison reports the same pattern with similarity
    50; the analyzer is left as it was. *)
Theorem C10_compare_two_invalid_inputs (clk1 clk2 : clock) (this : state) (a b : value) :
  valid a = false -> valid b = false ->
  (reachable this -> plain_cache this = true -> plain a = true -> plain b = true ->
   not_cached this a /\ not_cached this b) /\
  (not_cached this a -> not_cached this b ->
   exists c,
     comparSequences clk1 clk2 this a b = Normal (c, this) /\
     success (sequence1 c) = false /\ success (sequence2 c) = false /\
     pattern (sequence1 c) = None /\ pattern (sequence2 c) = None /\
     samePattern c = true /\ similarity c = 50%Z).
Proof.
  intros Va Vb. split.
  - intros R Pc Pa Pb. split; now apply plain_invalid_not_cached'.
  - intros Na Nb. apply not_cached_get in Na as [Pa Ga]. apply not_cached_get in Nb as [Pb Gb].
    unfold comparSequences.
    rewrite (analyze_invalid clk1 this a Pa Ga Va). simpl.
    rewrite (analyze_invalid clk2 this b Pb Gb Vb). simpl.
    eexists. split; [reflexivity|]. simpl. repeat split; reflexivity.
Qed.

Lemma C10_witness :
  (not_cached constructor (VArray [VNumber 5]) /\ not_cached constructor (VArray [])) /\
  exists c,
    comparSequences (mkClock 0 1 "t") (mkClock 2 3 "u") constructor
      (VArray [VNumber 5]) (VArray []) = Normal (c, constructor) /\
    success (sequence1 c) = false /\ success (sequence2 c) = false /\
    pattern (sequence1 c) = None /\ pattern (sequence2 c) = None /\
    samePattern c = true /\ similarity c = 50%Z.
Proof.
  destruct (C10_compare_two_invalid_inputs (mkClock 0 1 "t") (mkClock 2 3 "u") constructor
              (VArray [VNumber 5]) (VArray [])) as (N & H).
  - vm_compute. reflexivity.
  - vm_compute. reflexivity.
  - assert (not_cached constructor (VArray [VNumber 5]) /\
            not_cached constructor (VArray [])) as N0.
    { apply N; [apply reachable_constructor|reflexivity|reflexivity|reflexivity]. }
    split; [exact N0|]. destruct N0 as [Na Nb]. exact (H Na Nb).
Defined.

(** C10 as stated fails for inputs whose key is in the cache: after
    [analyze([4,8])], comparing the list of boxed numbers 4 and 8 with
    itself compares the cached analysis with itself; both inputs fail
    validation, both results carry the pattern, and the similarity is 75. *)
Lemma C10_counterexample :
  let boxed := VArray [boxed_number 4; boxed_number 8] in
  valid boxed = false /\
  exists r0 st c st',
    analyze (mkClock 0 1 "t") constructor (VArray [VNumber 4; VNumber 8]) = Normal (r0, st) /\
    comparSequences (mkClock 2 3 "u") (mkClock 4 5 "w") st boxed boxed = Normal (c, st') /\
    pattern (sequence1 c) = Some arithmetic /\ pattern (sequence2 c) = Some arithmetic /\
    samePattern c = true /\ similarity c = 75%Z.
Proof.
  simpl. split; [vm_compute; reflexivity|].
  do 4 eexists. split; [vm_compute; reflexivity|].
  split; [vm_compute; reflexivity|]. repeat split; reflexivity.
Qed.

(* ================================================================== *)
(** ** History *)

(** What one [analyze] call does to the history: a served or rejected call
    leaves it alone, an analysed one appends its result. *)
Lemma analyze_history clk this v :
  prints v = true ->
  exists r this',
    analyze clk this v = Normal (r, this') /\
    history this' =
      history this ++
      (if Map_has (analysisCache this) (cacheKey v) || negb (valid v)
       then [] else [r]).
Proof.
  intros P.
  destruct (analyze_cases clk this v P)
    as [(c & G & E)|[(G & V & E)|(G & V & d & p & _ & _ & E)]];
    do 2 eexists; (split; [exact E|]).
  - assert (Map_has (analysisCache this) (cacheKey v) = true) as ->
      by (apply Map_has_get; eauto).
    simpl. now rewrite app_nil_r.
  - rewrite V. rewrite orb_true_r. now rewrite app_nil_r.
  - apply Map_has_false_get in G. rewrite G, V. reflexivity.
Qed.

(** C8.  In every state an analyzer goes through, each history entry has
    [success = true].  A call other than [clear] keeps the entries it found,
    in place and unchanged, and appends at the end: [analyze] appends its
    result when it ran the detectors and nothing when the call was served
    from the cache or rejected by validation; a comparison does so for each
    of its two analyses in turn; reading the history or the metrics changes
    nothing.  [clear] empties the history.  A call completes normally
    exactly when [JSON.stringify] prints its inputs; a call that raises
    appends nothing in the analysis that raised, and a comparison that
    raises in its second analysis keeps what the first one appended. *)
Theorem C8_history_is_append_only (c : call) (this : state) :
  reachable this ->
  let this' := state_after c this in
  (call_prints c = true -> after c this = Normal this') /\
  (call_prints c = false -> exists e, after c this = Throw e) /\
  Forall (fun r => success r = true) (getHistory this') /\
  match c with
  | CallClear => getHistory this' = []
  | CallAnalyze clk v =>
      if prints v then
        exists r,
          analyze clk this v = Normal (r, this') /\
          getHistory this' =
            getHistory this ++
            (if Map_has (analysisCache this) (cacheKey v) || negb (valid v)
             then [] else [r])
      else this' = this
  | CallCompare clk1 clk2 a b =>
      if prints a then
        exists ra mid,
          analyze clk1 this a = Normal (ra, mid) /\
          getHistory mid =
            getHistory this ++
            (if Map_has (analysisCache this) (cacheKey a) || negb (valid a)
             then [] else [ra]) /\
          if prints b then
            exists rb,
              analyze clk2 mid b = Normal (rb, this') /\
              getHistory this' =
                getHistory this ++
                (if Map_has (analysisCache this) (cacheKey a) || negb (valid a)
                 then [] else [ra]) ++
                (if Map_has (analysisCache mid) (cacheKey b) || negb (valid b)
                 then [] else [rb])
          else this' = mid
      else this' = this
  | CallGetHistory | CallGetMetrics => this' = this
  end.
Proof.
  intros R this'.
  split; [|split; [|split]].
  - destruct c as [clk v|clk1 clk2 a b| | |]; simpl; try reflexivity.
    + intros P. unfold this'. simpl.
      destruct (analyze_Normal clk this v P) as (r & st & ->). reflexivity.
    + intros P. apply andb_true_iff in P as [Pa Pb]. unfold this', comparSequences. simpl.
      destruct (analyze_Normal clk1 this a Pa) as (r1 & st1 & ->). simpl.
      destruct (analyze_Normal clk2 st1 b Pb) as (r2 & st2 & ->). reflexivity.
  - destruct c as [clk v|clk1 clk2 a b| | |]; simpl; try discriminate.
    + intros P. destruct (analyze_raises clk this v P) as (e & _ & ->). simpl. eauto.
    + intros P. unfold comparSequences.
      destruct (prints a) eqn:Pa; simpl in P.
      * destruct (analyze_Normal clk1 this a Pa) as (r1 & st1 & ->). simpl.
        destruct (analyze_raises clk2 st1 b P) as (e & _ & ->). simpl. eauto.
      * destruct (analyze_raises clk1 this a Pa) as (e & _ & ->). simpl. eauto.
  - apply (reachable_invariant this'). now apply state_after_reachable.
  - destruct c as [clk v|clk1 clk2 a b| | |]; try reflexivity.
    + destruct (prints v) eqn:P.
      * destruct (analyze_history clk this v P) as (r & st & Ea & Hh).
        unfold this'. simpl. rewrite Ea. eauto.
      * destruct (analyze_raises clk this v P) as (e & _ & Ea).
        unfold this'. simpl. now rewrite Ea.
    + destruct (prints a) eqn:Pa.
      * destruct (analyze_history clk1 this a Pa) as (r1 & st1 & E1 & H1).
        exists r1, st1. split; [exact E1|]. split; [exact H1|].
        destruct (prints b) eqn:Pb.
        -- destruct (analyze_history clk2 st1 b Pb) as (r2 & st2 & E2 & H2).
           exists r2. unfold this'. simpl. rewrite E1, E2. split; [reflexivity|].
           unfold getHistory. rewrite H2, H1. now rewrite <- app_assoc.
        -- destruct (analyze_raises clk2 st1 b Pb) as (e & _ & E2).
           unfold this'. simpl. now rewrite E1, E2.
      * destruct (analyze_raises clk1 this a Pa) as (e & _ & E1).
        unfold this'. simpl. now rewrite E1.
Qed.

Lemma C8_witness :
  let c := CallAnalyze (mkClock 0 1 "t") (VArray [VNumber 3; VNumber 6; VNumber 9]) in
  let this' := state_after c constructor in
  (call_prints c = true -> after c constructor = Normal this') /\
  (call_prints c = false -> exists e, after c constructor = Throw e) /\
  Forall (fun r => success r = true) (getHistory this') /\
  if prints (VArray [VNumber 3; VNumber 6; VNumber 9]) then
    exists r,
      analyze (mkClock 0 1 "t") constructor (VArray [VNumber 3; VNumber 6; VNumber 9])
      = Normal (r, this') /\
      getHistory this' =
        getHistory constructor ++
        (if Map_has (analysisCache constructor)
              (cacheKey (VArray [VNumber 3; VNumber 6; VNumber 9]))
            || negb (valid (VArray [VNumber 3; VNumber 6; VNumber 9]))
         then [] else [r])
  else this' = constructor.
Proof.
  apply (C8_history_is_append_only
           (CallAnalyze (mkClock 0 1 "t") (VArray [VNumber 3; VNumber 6; VNumber 9]))
           constructor).
  apply reachable_constructor.
Defined.

(* ================================================================== *)
(** ** Cache hits and metrics *)

(** A call whose key is in the cache returns the cached object, adds one
    to [cacheHits], and touches neither [totalAnalyses], the average, the
    history nor the cache. *)
Lemma analyze_cache_hit clk this v :
  prints v = true ->
  Map_has (analysisCache this) (cacheKey v) = true ->
  exists cached,
    Map_get (analysisCache this) (cacheKey v) = Some cached /\
    analyze clk this v = Normal (cached, hit_state this).
Proof.
  intros P H. apply Map_has_get in H as [cached G]. exists cached. split; [exact G|].
  unfold analyze. rewrite (prints_stringify v P). simpl JS.bind. now rewrite G.
Qed.

(** In the code, [totalAnalyses] is the number of cache entries: both grow
    by one when the detectors run, neither moves on a cache hit or a
    rejected input, and [clear] resets both. *)
Lemma totalAnalyses_counts_cache_entries this :
  reachable this ->
  totalAnalyses (performanceMetrics this) =
  Nat.iter (Map_size (analysisCache this)) (fun n => (n + 1)%float) 0%float.
Proof.
  assert (step : forall clk st v r st',
             totalAnalyses (performanceMetrics st) =
             Nat.iter (Map_size (analysisCache st)) (fun n => (n + 1)%float) 0%float ->
             analyze clk st v = Normal (r, st') ->
             totalAnalyses (performanceMetrics st') =
             Nat.iter (Map_size (analysisCache st')) (fun n => (n + 1)%float) 0%float).
  { intros clk st v r st' H E.
    destruct (analyze_cases clk st v (analyze_Normal_prints _ _ _ _ E))
      as [(c & _ & E')|[(_ & _ & E')|(G & _ & d & p & _ & _ & E')]];
      rewrite E' in E; injection E as <- <-; try exact H.
    simpl. rewrite (Map_set_fresh _ _ _ G). unfold Map_size in *.
    rewrite length_app, Nat.add_comm. simpl. now rewrite H. }
  induction 1 as [|c this this' _ IH E]; [reflexivity|].
  destruct c as [clk v|clk1 clk2 a b| | |]; simpl in E.
  - destruct (analyze clk this v) as [[r st]|] eqn:Ea; simpl in E; [|discriminate].
    injection E as <-. eapply step; eauto.
  - unfold comparSequences in E.
    destruct (analyze clk1 this a) as [[r1 st1]|] eqn:E1; simpl in E; [|discriminate].
    destruct (analyze clk2 st1 b) as [[r2 st2]|] eqn:E2; simpl in E; [|discriminate].
    injection E as <-. eapply step; [|exact E2]. eapply step; eauto.
  - now injection E as <-.
  - now injection E as <-.
  - now injection E as <-.
Qed.

(** C2 (what the code does at the failing input).  On a new analyzer,
    [analyze([3,6,9,12])] twice: the second call finds the key, returns the
    cached result and leaves the history alone, and [cacheHits] goes from 0
    to 1; but [totalAnalyses] stays at 1 where the claim asks for 2. *)
Theorem C2_cache_hit_does_not_count_in_totalAnalyses :
  let s := VArray [VNumber 3; VNumber 6; VNumber 9; VNumber 12] in
  exists r1 st1 r2 st2,
    analyze (mkClock 0 1 "t") constructor s = Normal (r1, st1) /\
    Map_has (analysisCache st1) (cacheKey s) = true /\
    analyze (mkClock 5 6 "u") st1 s = Normal (r2, st2) /\
    r2 = r1 /\ history st2 = history st1 /\
    cacheHits (performanceMetrics st1) = 0%float /\
    cacheHits (performanceMetrics st2) = 1%float /\
    totalAnalyses (performanceMetrics st1) = 1%float /\
    totalAnalyses (performanceMetrics st2) = 1%float.
Proof.
  simpl. do 4 eexists.
  split; [vm_compute; reflexivity|].
  split; [vm_compute; reflexivity|].
  split; [vm_compute; reflexivity|].
  repeat split; reflexivity.
Qed.

(* ================================================================== *)
(** ** Polynomial prediction *)

(** The part of the polynomial strategy that holds: when no earlier
    detector matches and the second differences are all equal, the loop
    stops at level 1 and reports degree 2 with that constant; the
    predictions are those of [predictPolynomial] at level 1. *)
Lemma detect_quadratic s :
  (3 <= List.length s)%nat ->
  detectArithmetic s = no_pattern ->
  detectGeometric s = Normal no_pattern ->
  detectFibonacci s = no_pattern ->
  all_equal (difference_row 2 s) = true ->
  exists c ps,
    hd_error (difference_row 2 s) = Some c /\
    predictPolynomial s 1 c 5 = Normal ps /\
    detect s =
      Normal (mkDetection (Some polynomial) (Some 95%Z) None None (Some 2%nat) (Some c)
                (Some (map VNumber ps))).
Proof.
  intros L A G F Q.
  pose proof (difference_row_length 2 s) as L2.
  destruct (difference_row 2 s) as [|c r2] eqn:E2; [simpl in L2; lia|].
  destruct (predictPolynomial_Normal s 1 c 5) as (ps & Ep & _); [lia|].
  exists c, ps. split; [reflexivity|]. split; [exact Ep|].
  unfold detect. rewrite A. change (no_match no_pattern) with true. cbv iota.
  rewrite G. simpl JS.bind. change (no_match no_pattern) with true. cbv iota.
  rewrite F. change (no_match no_pattern) with true. cbv iota.
  unfold detectPolynomial. unfold detectArithmetic in A.
  pose proof (calculateDifferences_length s) as L1.
  change (difference_row 2 s) with (calculateDifferences (calculateDifferences s)) in E2.
  destruct (calculateDifferences s) as [|x r1] eqn:E1; [simpl in L1; lia|].
  simpl hd in A. simpl polynomial_loop. rewrite E1.
  destruct (forallb (fun d => strict_eq d x) (x :: r1)); [discriminate|].
  rewrite E2. unfold all_equal in Q. simpl hd in Q. rewrite Q.
  rewrite Ep. reflexivity.
Qed.

(** What [predictPolynomial] returns first at level 1, for any sequence of
    at least three numbers: the last element plus the last first
    difference.  The constant second difference does not enter it. *)
Lemma predictPolynomial_level_1 s c n :
  (3 <= List.length s)%nat ->
  exists rest,
    predictPolynomial s 1 c (S n) =
    Normal ((last_operand s + last_operand (calculateDifferences s))%float :: rest).
Proof.
  intros L. unfold predictPolynomial.
  pose proof (calculateDifferences_length s) as L1.
  destruct (calculateDifferences s) as [|d1 r1] eqn:E1; [simpl in L1; lia|].
  pose proof (calculateDifferences_length (d1 :: r1)) as L2.
  destruct (calculateDifferences (d1 :: r1)) as [|d2 r2] eqn:E2; [simpl in L1, L2; lia|].
  assert (build_table 2 [s] = [s; d1 :: r1; d2 :: r2]) as ->.
  { cbn [build_table last]. rewrite E1. cbn [app last]. rewrite E2. reflexivity. }
  cbn [extend_rows nth_error].
  set (row := (d1 :: r1) ++ [last (d1 :: r1) nan]).
  cbn [set_row work_back_up nth].
  assert (last_operand row = last_operand (d1 :: r1)) as ->.
  { unfold row, last_operand. now rewrite last_last. }
  set (table := [s ++ [(last_operand s + last_operand (d1 :: r1))%float]; row; d2 :: r2]).
  assert (last_operand (s ++ [(last_operand s + last_operand (d1 :: r1))%float])
          = (last_operand s + last_operand (d1 :: r1))%float) as ->.
  { unfold last_operand at 1. now rewrite last_last. }
  destruct (extend_rows_Normal n 1 c table) as (rest & -> & _); [simpl; lia|].
  simpl. eauto.
Qed.

(** C1 (what the code does at the failing input).  [analyze([1,4,9,16,25])]
    finds a polynomial of degree 2, but its first prediction is 34, not 36:
    [predictPolynomial] repeats the last entry of row [level] of the table,
    the row of first differences [3,5,7,9], where the constant row is row
    [level + 1].  The same loop run on the constant row gives Newton's
    36, 49, 64, 81, 100. *)
Theorem C1_squares_are_extrapolated_to_34 :
  let s := [1; 4; 9; 16; 25]%float in
  (exists r this',
     analyze (mkClock 0 1 "t") constructor (VArray (map VNumber s)) = Normal (r, this') /\
     pattern r = Some polynomial /\ degree r = Some 2%nat /\
     constantDifference r = Some 2%float /\
     nextNumbers r = Some (map VNumber [34; 43; 52; 61; 70]%float)) /\
  build_table 2 [s] = [s; [3; 5; 7; 9]; [2; 2; 2]]%float /\
  predictPolynomial s 1 2 5 = Normal [34; 43; 52; 61; 70]%float /\
  extend_rows 5 2 2 (build_table 2 [s]) = Normal [36; 49; 64; 81; 100]%float.
Proof.
  simpl. split.
  - do 2 eexists. split; [vm_compute; reflexivity|]. repeat split; reflexivity.
  - repeat split; vm_compute; reflexivity.
Qed.

(* ================================================================== *)
(** ** Arithmetic progressions *)



Lemma Forall2_Forall_zeq (P Q : float -> Prop) l l' :
  Forall2 zeq l l' -> (forall x x', zeq x x' -> P x -> Q x') -> Forall P l -> Forall Q l'.
Proof.
  intros H HPQ. induction H as [|x x' l l' Hx _ IH]; intros F; [constructor|].
  inversion F; subst. constructor; eauto.
Qed.








(* ================================================================== *)
(** ** Geometric progressions *)





(* ================================================================== *)
(** ** Short sequences *)

(** With enough iterations left to reach the one-element row, and that
    element not [NaN], the polynomial loop finds a constant row. *)
Lemma polynomial_loop_matches fuel : forall level s,
  (level + 2 <= List.length s)%nat ->
  (List.length s <= level + 1 + fuel)%nat ->
  Forall not_nan (difference_row (List.length s - 1) s) ->
  exists k c ps,
    polynomial_loop fuel s (difference_row level s) level =
    Normal (mkDetection (Some polynomial) (Some 95%Z) None None (Some k) (Some c) (Some ps)).
Proof.
  induction fuel as [|fuel IH]; intros level s L1 L2 N; [lia|]. simpl.
  change (calculateDifferences (difference_row level s)) with (difference_row (S level) s).
  pose proof (difference_row_length (S level) s) as Ld.
  destruct (difference_row (S level) s) as [|x r] eqn:E; [simpl in Ld; lia|].
  destruct (forallb (fun d => strict_eq d x) (x :: r)) eqn:A.
  - destruct (predictPolynomial_Normal s level x 5) as (ps & -> & _); [lia|].
    simpl. eauto.
  - destruct r as [|y r].
    + exfalso. simpl in Ld.
      assert (List.length s - 1 = S level)%nat as En by lia.
      rewrite En, E in N. inversion N as [|? ? Hx _]; subst.
      simpl in A. unfold strict_eq, not_nan in *. rewrite Hx in A. discriminate.
    + rewrite <- E. apply IH; [simpl in Ld; lia|lia|exact N].
Qed.

(** On a sequence of two to six numbers whose last difference is not
    [NaN], some detector matches. *)
Lemma detect_short s :
  (2 <= List.length s <= 6)%nat ->
  Forall not_nan (difference_row (List.length s - 1) s) ->
  exists d p, detect s = Normal d /\ det_pattern d = Some p /\ p <> unknown.
Proof.
  intros L N. unfold detect, detectArithmetic.
  destruct (forallb _ (calculateDifferences s)).
  { simpl. do 2 eexists. split; [reflexivity|]. simpl. split; [reflexivity|discriminate]. }
  change (no_match no_pattern) with true. cbv iota.
  assert (exists g, detectGeometric s = Normal g /\
                    (g = no_pattern \/ det_pattern g = Some geometric)) as (g & -> & Hg).
  { unfold detectGeometric. destruct (existsb _ s); [eauto|].
    destruct (forallb _ (ratios_loop s)); [|eauto].
    pose proof (ratios_loop_length s) as Lr.
    destruct (ratios_loop s); simpl in *; [lia|eauto]. }
  simpl. destruct Hg as [->|Hg].
  2:{ assert (no_match g = false) as NG by (unfold no_match; now rewrite Hg).
      repeat (rewrite NG; simpl).
      do 2 eexists. split; [reflexivity|]. split; [exact Hg|discriminate]. }
  change (no_match no_pattern) with true. cbv iota.
  assert (detectFibonacci s = no_pattern \/
          det_pattern (detectFibonacci s) = Some fibonacci) as [->|Hf].
  { unfold detectFibonacci. destruct (_ <? 3)%nat; [now left|].
    destruct (_ <=? _)%nat; [now right|now left]. }
  2:{ assert (no_match (detectFibonacci s) = false) as NF
        by (unfold no_match; now rewrite Hf).
      repeat (rewrite NF; simpl).
      do 2 eexists. split; [reflexivity|]. split; [exact Hf|discriminate]. }
  change (no_match no_pattern) with true. cbv iota.
  unfold detectPolynomial.
  destruct (polynomial_loop_matches 5 0 s) as (k & c & ps & E); [lia|lia|exact N|].
  change (difference_row 0 s) with s in E. rewrite E. simpl.
  do 2 eexists. split; [reflexivity|]. simpl. split; [reflexivity|discriminate].
Qed.

(** Differences of finite numbers may overflow but are never [NaN]; so the
    last difference is not [NaN] whenever the two-element row above it is
    finite. *)
Lemma calculateDifferences_not_nan s :
  Forall (fun x => isFinite x = true) s -> Forall not_nan (calculateDifferences s).
Proof.
  induction 1 as [|a r Ha Hr IH]; simpl; [constructor|].
  destruct Hr as [|b t Hb Ht]; [constructor|].
  constructor; [now apply sub_finite_not_nan|exact IH].
Qed.

Lemma last_difference_not_nan s :
  (2 <= List.length s)%nat ->
  Forall (fun x => isFinite x = true) (difference_row (List.length s - 2) s) ->
  Forall not_nan (difference_row (List.length s - 1) s).
Proof.
  intros L F.
  replace (List.length s - 1)%nat with (S (List.length s - 2)) by lia.
  rewrite difference_row_S. now apply calculateDifferences_not_nan.
Qed.

(** C9 (as the code has it).  For a valid sequence of two to six elements
    whose last difference, the single entry of row [length - 1] of its
    difference table, is not [NaN], [analyze] names a pattern other than
    [unknown]. *)
Theorem C9_short_sequences_are_classified (clk : clock) (this : state) (v : value) :
  reachable this -> valid v = true ->
  (List.length (numbers v) <= 6)%nat ->
  Forall not_nan (difference_row (List.length (numbers v) - 1) (numbers v)) ->
  exists r this' p,
    analyze clk this v = Normal (r, this') /\
    success r = true /\ pattern r = Some p /\ p <> unknown.
Proof.
  intros R V L N. apply reachable_invariant in R as [Hc _].
  destruct (analyze_valid clk this v Hc V) as (r & this' & dr & E & Hs & Vr & Hz & Ed & Hf).
  destruct (valid_inv _ V) as (l & _ & El & Ll & _). rewrite El in *.
  pose proof (Forall2_length Hz) as Len.
  destruct (detect_short (numbers (sequence r))) as (d & p & Ed' & Hp & Hu).
  - lia.
  - rewrite Len.
    apply (Forall2_Forall_zeq not_nan not_nan
             (difference_row (List.length l - 1) l)); [|exact zeq_not_nan|exact N].
    apply Forall2_zeq_sym. now apply difference_row_zeq.
  - rewrite Ed' in Ed. injection Ed as <-.
    destruct Hf as (Hpr & _). exists r, this', p.
    split; [exact E|]. split; [exact Hs|]. split; [congruence|exact Hu].
Qed.

Lemma C9_witness :
  exists r this' p,
    analyze (mkClock 0 1 "t") constructor
      (VArray [VNumber 1; VNumber 2; VNumber 5; VNumber 14]) = Normal (r, this') /\
    success r = true /\ pattern r = Some p /\ p <> unknown.
Proof.
  apply (C9_short_sequences_are_classified (mkClock 0 1 "t") constructor
           (VArray [VNumber 1; VNumber 2; VNumber 5; VNumber 14])).
  - apply reachable_constructor.
  - vm_compute. reflexivity.
  - simpl. lia.
  - repeat constructor.
Defined.

(** C9 as stated fails.  The five finite numbers below are valid input;
    their differences overflow, row 3 of the table is [NaN, -Infinity] and
    row 4 is [NaN], which is not [===] to itself, so no row is constant and
    the result is [unknown]. *)
Lemma C9_counterexample :
  let s := [1e308; -1e308; -1.5e308; 1e308; 1]%float in
  valid (VArray (map VNumber s)) = true /\
  List.length s = 5%nat /\
  difference_row 3 s = [nan; neg_infinity]%float /\
  difference_row 4 s = [nan]%float /\
  exists r this',
    analyze (mkClock 0 1 "t") constructor (VArray (map VNumber s)) = Normal (r, this') /\
    success r = true /\ pattern r = Some unknown /\ nextNumbers r = Some [VNull].
Proof.
  simpl. split; [vm_compute; reflexivity|]. split; [reflexivity|].
  split; [vm_compute; reflexivity|]. split; [vm_compute; reflexivity|].
  do 2 eexists. split; [vm_compute; reflexivity|].
  repeat split; reflexivity.
Qed.

(* ================================================================== *)
(** ** Comparison *)












(** A comparison is made of two [analyze] calls, which complete when
    their inputs print. *)
Lemma comparSequences_Normal clk1 clk2 this a b :
  prints a = true -> prints b = true ->
  exists ra mid rb st,
    analyze clk1 this a = Normal (ra, mid) /\
    analyze clk2 mid b = Normal (rb, st) /\
    comparSequences clk1 clk2 this a b =
      Normal (mkComparison ra rb (pattern_eqb (pattern ra) (pattern rb))
                (calculateSimilarity ra rb), st).
Proof.
  intros Pa Pb.
  destruct (analyze_Normal clk1 this a Pa) as (ra & mid & Ea).
  destruct (analyze_Normal clk2 mid b Pb) as (rb & st & Eb).
  exists ra, mid, rb, st. split; [exact Ea|]. split; [exact Eb|].
  unfold comparSequences. rewrite Ea. simpl. rewrite Eb. reflexivity.
Qed.




(* ================================================================== *)
(** ** The decision table *)

Import Decision.

Lemma fibonacci_matchCount_le s :
  (fibonacci_matchCount s <= List.length s - 2)%nat.
Proof.
  induction s as [|a s IH]; simpl; [lia|].
  destruct s as [|b [|c t]]; simpl in *; try lia.
  destruct (abs (c - (b + a)) <? 0.0001)%float; lia.
Qed.

(** The counter of [detectFibonacci] reaches [length - 2] exactly when no
    step of the loop fails. *)
Lemma fibonacci_matchCount_all_triples s :
  (List.length s - 2 <=? fibonacci_matchCount s)%nat = all_triples s.
Proof.
  induction s as [|a s IH]; [reflexivity|].
  destruct s as [|b [|c t]]; try reflexivity.
  change (all_triples (a :: b :: c :: t))
    with (triple_ok a b c && all_triples (b :: c :: t)).
  change (fibonacci_matchCount (a :: b :: c :: t))
    with (if triple_ok a b c then S (fibonacci_matchCount (b :: c :: t)) else O).
  replace (List.length (a :: b :: c :: t) - 2)%nat
    with (S (List.length (b :: c :: t) - 2)) by (simpl; lia).
  destruct (triple_ok a b c); cbn [andb].
  - rewrite <- IH. reflexivity.
  - reflexivity.
Qed.

Lemma detectFibonacci_test s :
  detectFibonacci s =
  if fibonacci_test s then
    mkDetection (Some fibonacci) (Some 100%Z) None None None None
      (Some (map VNumber (predictFibonacci s 5)))
  else no_pattern.
Proof.
  unfold detectFibonacci, fibonacci_test.
  rewrite fibonacci_matchCount_all_triples.
  destruct (List.length s <? 3)%nat eqn:L.
  - apply Nat.ltb_lt in L. assert ((3 <=? List.length s)%nat = false) as ->
      by (apply Nat.leb_gt; lia). reflexivity.
  - apply Nat.ltb_ge in L. assert ((3 <=? List.length s)%nat = true) as ->
      by (apply Nat.leb_le; lia). reflexivity.
Qed.

Lemma difference_row_empty k s :
  (List.length s <= k)%nat -> difference_row k s = [].
Proof.
  intros L. pose proof (difference_row_length k s) as H.
  destruct (difference_row k s); [reflexivity|simpl in H; lia].
Qed.

(** The loop of [detectPolynomial], started at [level]: it completes, and
    it stops at the first constant row among rows [level + 1] to
    [level + fuel], if there is one. *)
Lemma polynomial_loop_spec fuel : forall s level,
  exists d,
    polynomial_loop fuel s (difference_row level s) level = Normal d /\
    ((d = no_pattern /\
      forall j, (level < j <= level + fuel)%nat -> constant_row j s = false)
     \/
     exists k c ps,
       d = mkDetection (Some polynomial) (Some 95%Z) None None (Some k) (Some c)
             (Some (map VNumber ps)) /\
       (level < k <= level + fuel)%nat /\ (k < List.length s)%nat /\
       constant_row k s = true /\
       (forall j, (level < j < k)%nat -> constant_row j s = false) /\
       hd_error (difference_row k s) = Some c /\
       predictPolynomial s (k - 1) c 5 = Normal ps /\ List.length ps = 5%nat).
Proof.
  induction fuel as [|fuel IH]; intros s level.
  - exists no_pattern. split; [reflexivity|]. left. split; [reflexivity|]. intros j Hj. lia.
  - cbn [polynomial_loop].
    change (calculateDifferences (difference_row level s)) with (difference_row (S level) s).
    pose proof (difference_row_length (S level) s) as L.
    destruct (difference_row (S level) s) as [|x r] eqn:E.
    + exists no_pattern. split; [reflexivity|]. left. split; [reflexivity|].
      intros j Hj. unfold constant_row. rewrite difference_row_empty; [reflexivity|].
      simpl in L. lia.
    + destruct (forallb (fun d => strict_eq d x) (x :: r)) eqn:A.
      * destruct (predictPolynomial_Normal s level x 5) as (ps & Ep & Lp);
          [simpl in L; lia|].
        rewrite Ep. cbn [JS.bind]. eexists. split; [reflexivity|]. right.
        exists (S level), x, ps. rewrite Nat.add_1_r.
        split; [reflexivity|]. split; [lia|]. split; [simpl in L; lia|].
        split; [unfold constant_row; rewrite E; exact A|].
        split; [intros j Hj; lia|]. split; [now rewrite E|].
        replace (S level - 1)%nat with level by lia. split; [exact Ep|exact Lp].
      * rewrite <- E. destruct (IH s (S level)) as (d & Ed & Hd).
        exists d. split; [exact Ed|].
        assert (constant_row (S level) s = false) as C
            by (unfold constant_row; rewrite E; exact A).
        destruct Hd as [(-> & Hn)|(k & c & ps & -> & Hk & Hl & Hc & Hb & Hh & Hp)].
        -- left. split; [reflexivity|]. intros j Hj.
           destruct (Nat.eq_dec j (S level)) as [->|Hne]; [exact C|]. apply Hn. lia.
        -- right. exists k, c, ps. split; [reflexivity|]. split; [lia|].
           split; [exact Hl|]. split; [exact Hc|]. split; [|split; [exact Hh|exact Hp]].
           intros j Hj. destruct (Nat.eq_dec j (S level)) as [->|Hne]; [exact C|].
           apply Hb. lia.
Qed.

Lemma arithmetic_loop_length count : forall last d,
  List.length (arithmetic_loop count last d) = count.
Proof. induction count as [|n IH]; intros; simpl; [reflexivity|now rewrite IH]. Qed.

Lemma geometric_loop_length count : forall last q,
  List.length (geometric_loop count last q) = count.
Proof. induction count as [|n IH]; intros; simpl; [reflexivity|now rewrite IH]. Qed.

Lemma fibonacci_loop_length count : forall a b,
  List.length (fibonacci_loop count a b) = count.
Proof. induction count as [|n IH]; intros; simpl; [reflexivity|now rewrite IH]. Qed.

(** A number within a tolerance of itself is finite: for [NaN] and the
    infinities, [x - x] is [NaN]. *)
Lemma near_itself_finite x t :
  (abs (x - x) <? t)%float = true -> isFinite x = true.
Proof.
  rewrite ltb_spec, abs_spec, sub_spec. intros H. apply isFinite_spec.
  destruct (Prim2SF x) as [s|s| |s m e]; eauto.
  - destruct s; discriminate.
  - discriminate.
Qed.

Lemma all_equal_hd_not_nan x r : all_equal (x :: r) = true -> not_nan x.
Proof.
  unfold all_equal. simpl. intros H. apply andb_true_iff in H as [H _]. exact H.
Qed.

(** The chain on a sequence of at least two numbers: it completes, the
    pattern is the one of the decision table, and the parameters are those
    of the detector that matched. *)
Lemma detect_decision s :
  (2 <= List.length s)%nat ->
  exists d,
    detect s = Normal d /\
    match decision s with
    | arithmetic =>
        exists d0, hd_error (calculateDifferences s) = Some d0 /\ not_nan d0 /\
          d = mkDetection (Some arithmetic) (Some 100%Z) (Some d0) None None None
                (Some (map VNumber (predictArithmetic s 5)))
    | geometric =>
        exists r0, hd_error (ratios_loop s) = Some r0 /\ isFinite r0 = true /\
          d = mkDetection (Some geometric) (Some 100%Z) None (Some r0) None None
                (Some (map VNumber (predictGeometric s 5)))
    | fibonacci =>
        d = mkDetection (Some fibonacci) (Some 100%Z) None None None None
              (Some (map VNumber (predictFibonacci s 5)))
    | polynomial =>
        exists k c ps,
          d = mkDetection (Some polynomial) (Some 95%Z) None None (Some k) (Some c)
                (Some (map VNumber ps)) /\
          (2 <= k <= 5)%nat /\ (k < List.length s)%nat /\
          constant_row k s = true /\
          (forall j, (1 <= j < k)%nat -> constant_row j s = false) /\
          hd_error (difference_row k s) = Some c /\ not_nan c /\
          predictPolynomial s (k - 1) c 5 = Normal ps /\ List.length ps = 5%nat
    | unknown => d = not_recognized
    end.
Proof.
  intros L. unfold detect, decision.
  pose proof (calculateDifferences_length s) as Ld.
  pose proof (ratios_loop_length s) as Lr.
  unfold arithmetic_test, detectArithmetic.
  destruct (calculateDifferences s) as [|d0 ds] eqn:Ed; [simpl in Ld; lia|].
  fold (all_equal (d0 :: ds)).
  destruct (all_equal (d0 :: ds)) eqn:A.
  { cbn. eexists. split; [reflexivity|]. exists d0. split; [reflexivity|].
    split; [now apply all_equal_hd_not_nan in A|reflexivity]. }
  change (no_match no_pattern) with true. cbv iota.
  unfold geometric_test, detectGeometric. fold (has_zero s).
  destruct (ratios_loop s) as [|r0 rs] eqn:Er; [simpl in Lr; lia|].
  unfold ratios_within_tolerance. rewrite Er.
  assert (G : exists g,
             (if has_zero s then Normal no_pattern
              else
                if forallb (fun r => (abs (r - hd nan (r0 :: rs)) <? 0.0001)%float) (r0 :: rs)
                then
                  match hd_error (r0 :: rs) with
                  | Some firstRatio =>
                      Normal (mkDetection (Some geometric) (Some 100%Z) None (Some firstRatio)
                                None None (Some (map VNumber (predictGeometric s 5))))
                  | None =>
                      Throw "TypeError: Cannot read properties of undefined (reading 'toFixed')"
                  end
                else Normal no_pattern) = Normal g /\
             if negb (has_zero s) &&
                forallb (fun r => (abs (r - hd nan (r0 :: rs)) <? 0.0001)%float) (r0 :: rs)
             then isFinite r0 = true /\
                  g = mkDetection (Some geometric) (Some 100%Z) None (Some r0)
                        None None (Some (map VNumber (predictGeometric s 5)))
             else g = no_pattern).
  { destruct (has_zero s); [eexists; split; reflexivity|].
    destruct (forallb _ (r0 :: rs)) eqn:T; cbn [negb andb hd_error];
      eexists; (split; [reflexivity|]); [|reflexivity].
    split; [|reflexivity]. simpl in T. apply andb_true_iff in T as [T _].
    now apply near_itself_finite in T. }
  destruct G as (g & -> & Hg). cbn [JS.bind].
  destruct (negb (has_zero s) && forallb _ (r0 :: rs)).
  { destruct Hg as [F ->]. cbn. eexists. split; [reflexivity|]. exists r0. auto. }
  subst g. change (no_match no_pattern) with true. cbv iota.
  rewrite detectFibonacci_test.
  destruct (fibonacci_test s).
  { cbn. eexists. split; reflexivity. }
  change (no_match no_pattern) with true. cbv iota.
  unfold detectPolynomial.
  destruct (polynomial_loop_spec 5 s 0) as (d & E & Hd).
  change (difference_row 0 s) with s in E. rewrite E. cbn [JS.bind].
  assert (C1 : constant_row 1 s = false).
  { unfold constant_row. change (difference_row 1 s) with (calculateDifferences s).
    rewrite Ed. exact A. }
  destruct Hd as [(-> & Hn)|(k & c & ps & -> & Hk & Hl & Hc & Hb & Hh & Hp & Lp)].
  - assert (polynomial_test s = false) as ->.
    { unfold polynomial_test. simpl.
      rewrite !Hn by lia. reflexivity. }
    eexists. split; reflexivity.
  - assert (k <> 1%nat) as K1 by (intros ->; congruence).
    assert (polynomial_test s = true) as ->.
    { unfold polynomial_test. apply existsb_exists. exists k. split; [|exact Hc].
      simpl. lia. }
    cbn. eexists. split; [reflexivity|]. exists k, c, ps.
    split; [reflexivity|]. split; [lia|]. split; [exact Hl|]. split; [exact Hc|].
    split; [intros j Hj; apply Hb; lia|]. split; [exact Hh|].
    split; [|split; [exact Hp|exact Lp]].
    unfold constant_row in Hc. destruct (difference_row k s) as [|x r]; [discriminate|].
    injection Hh as <-. now apply all_equal_hd_not_nan in Hc.
Qed.

(* ================================================================== *)
(** ** What the cache and the history hold *)

Lemma Map_get_None_not_In {V} (m : Map V) k :
  Map_get m k = None -> ~ In k (map fst m).
Proof.
  unfold Map_get. induction m as [|[k0 v0] r IH]; simpl; [tauto|].
  destruct (key_eqb k0 k) eqn:E; simpl; [discriminate|].
  intros H [->|Hin]; [|now apply IH].
  rewrite key_eqb_refl in E. discriminate.
Qed.

Lemma Map_get_entry (h : list analysis) r :
  NoDup (map (fun x => cacheKey (sequence x)) h) -> In r h ->
  Map_get (map entry h) (cacheKey (sequence r)) = Some r.
Proof.
  unfold Map_get. induction h as [|x h IH]; simpl; [tauto|].
  intros N Hin. inversion N as [|? ? Hx Nh]; subst.
  destruct (key_eqb (cacheKey (sequence x)) (cacheKey (sequence r))) eqn:E; simpl.
  - destruct Hin as [->|Hin]; [reflexivity|]. exfalso. apply Hx.
    apply key_eqb_eq in E. rewrite E. apply in_map_iff. eauto.
  - destruct Hin as [->|Hin]; [rewrite key_eqb_refl in E; discriminate|].
    now apply IH.
Qed.

Lemma NoDup_snoc {A} (l : list A) x :
  NoDup l -> ~ In x l -> NoDup (l ++ [x]).
Proof.
  induction l as [|a l IH]; simpl; intros N H.
  - constructor; [tauto|constructor].
  - inversion N as [|? ? Ha Nl]; subst. constructor.
    + rewrite in_app_iff. simpl. intros [Hi|[->|[]]]; tauto.
    + apply IH; tauto.
Qed.

Lemma analyze_ledger clk this v r this' :
  ledger this -> analyze clk this v = Normal (r, this') -> ledger this'.
Proof.
  intros (Hr & Hc & Hn & Ht) E.
  destruct (analyze_cases clk this v (analyze_Normal_prints _ _ _ _ E))
    as [(c & _ & E')|[(_ & _ & E')|(G & V & d & p & Ed & _ & E')]];
    rewrite E' in E; injection E as <- <-; try (repeat split; assumption).
  unfold ledger. simpl.
  split; [|split; [|split]].
  - apply Forall_app. split; [exact Hr|]. constructor; [|constructor].
    exists clk, v, d. auto.
  - rewrite (Map_set_fresh _ _ _ G), Hc, map_app. reflexivity.
  - rewrite map_app. simpl. apply NoDup_snoc; [exact Hn|].
    apply Map_get_None_not_In in G. rewrite Hc, map_map in G. exact G.
  - rewrite length_app, Nat.add_comm. simpl. now rewrite Ht.
Qed.

Lemma reachable_ledger this : reachable this -> ledger this.
Proof.
  induction 1 as [|c this this' _ IH E].
  - repeat split; simpl; constructor.
  - destruct c as [clk v|clk1 clk2 a b| | |]; simpl in E.
    + destruct (analyze clk this v) as [[r st]|] eqn:Ea; simpl in E; [|discriminate].
      injection E as <-. eapply analyze_ledger; eauto.
    + unfold comparSequences in E.
      destruct (analyze clk1 this a) as [[r1 st1]|] eqn:E1; simpl in E; [|discriminate].
      destruct (analyze clk2 st1 b) as [[r2 st2]|] eqn:E2; simpl in E; [|discriminate].
      injection E as <-. eapply analyze_ledger; [|exact E2]. eapply analyze_ledger; eauto.
    + now injection E as <-.
    + now injection E as <-.
    + injection E as <-. repeat split; simpl; constructor.
Qed.

Lemma detect_decision_pattern s :
  (2 <= List.length s)%nat ->
  exists d, detect s = Normal d /\ det_pattern d = Some (decision s).
Proof.
  intros L. destruct (detect_decision s L) as (d & E & H).
  exists d. split; [exact E|].
  destruct (decision s).
  - destruct H as (d0 & _ & _ & ->). reflexivity.
  - destruct H as (r0 & _ & _ & ->). reflexivity.
  - destruct H as (k & c & ps & -> & _). reflexivity.
  - now subst d.
  - now subst d.
Qed.

Lemma decision_zeq s s' :
  Forall2 zeq s s' -> (2 <= List.length s)%nat -> decision s = decision s'.
Proof.
  intros Z L.
  destruct (detect_zeq s s' Z L) as (d & d' & E & E' & (P & _) & _).
  destruct (detect_decision_pattern s L) as (d0 & E0 & P0).
  assert (L' : (2 <= List.length s')%nat) by (rewrite <- (Forall2_length Z); exact L).
  destruct (detect_decision_pattern s' L') as (d1 & E1 & P1).
  rewrite E in E0. injection E0 as <-. rewrite E' in E1. injection E1 as <-.
  rewrite P, P1 in P0. now injection P0.
Qed.

Lemma recorded_success r : recorded r -> success r = true /\ error r = None.
Proof. intros (clk & v & d & _ & _ & ->). split; reflexivity. Qed.

Lemma recorded_valid r : recorded r -> valid (sequence r) = true.
Proof. intros (clk & v & d & V & _ & ->). exact V. Qed.

Lemma recorded_pattern r :
  recorded r -> pattern r = Some (decision (numbers (sequence r))).
Proof.
  intros (clk & v & d & V & E & ->). simpl.
  destruct (valid_inv v V) as (l & _ & Hn & L & _). rewrite Hn in *.
  destruct (detect_decision_pattern l L) as (d0 & E0 & P0).
  rewrite E in E0. now injection E0 as <-.
Qed.

Lemma recorded_well_shaped r : recorded r -> well_shaped r.
Proof.
  intros (clk & v & d & V & E & ->).
  destruct (valid_inv v V) as (l & _ & Hn & L & _). rewrite Hn in *.
  destruct (detect_decision l L) as (d0 & E0 & H).
  rewrite E in E0. injection E0 as <-.
  split; [reflexivity|]. split; [reflexivity|].
  unfold fresh_result.
  cbn [pattern confidence commonDifference commonRatio degree constantDifference
       nextNumbers].
  destruct (decision l).
  - destruct H as (d0 & Hh & Hd & ->).
    cbn [det_pattern det_confidence det_commonDifference det_commonRatio det_degree
         det_constantDifference det_nextNumbers shape].
    repeat (split; [try reflexivity; eauto|]).
    exists (predictArithmetic l 5). split; [reflexivity|]. apply arithmetic_loop_length.
  - destruct H as (r0 & Hh & Hf & ->).
    cbn [det_pattern det_confidence det_commonDifference det_commonRatio det_degree
         det_constantDifference det_nextNumbers shape].
    repeat (split; [try reflexivity; eauto|]).
    exists (predictGeometric l 5). split; [reflexivity|]. apply geometric_loop_length.
  - destruct H as (k & c & ps & -> & Hk & _ & _ & _ & _ & Hc & _ & Hl).
    cbn [det_pattern det_confidence det_commonDifference det_commonRatio det_degree
         det_constantDifference det_nextNumbers shape].
    repeat (split; [try reflexivity; eauto|]).
    exists ps. split; [reflexivity|]. exact Hl.
  - subst d.
    cbn [det_pattern det_confidence det_commonDifference det_commonRatio det_degree
         det_constantDifference det_nextNumbers shape].
    repeat (split; [try reflexivity; eauto|]).
    exists (predictFibonacci l 5). split; [reflexivity|]. apply fibonacci_loop_length.
  - subst d. simpl. repeat (split; [reflexivity|]). reflexivity.
Qed.

(** One call on a valid input, in a state that keeps the ledger: the result
    is a recorded one, filed in the history under the key of the input. *)
Lemma analyze_report clk this v :
  ledger this -> valid v = true ->
  exists r this',
    analyze clk this v = Normal (r, this') /\
    recorded r /\ In r (history this') /\
    cacheKey (sequence r) = cacheKey v /\
    Map_get (analysisCache this') (cacheKey v) = Some r /\
    (this' = hit_state this \/
     Map_get (analysisCache this) (cacheKey v) = None /\
     exists d, detect (numbers v) = Normal d /\
       r = fresh_result clk v d /\ this' = fresh_state clk this v d).
Proof.
  intros (Hr & Hc & Hn & Ht) V.
  destruct (analyze_cases clk this v (valid_is_printed v V))
    as [(c & G & E)|[(_ & V' & _)|(G & _ & d & p & Ed & _ & E)]].
  - exists c, (hit_state this). split; [exact E|].
    pose proof (Map_get_In _ _ _ G) as Hin. rewrite Hc in Hin.
    apply in_map_iff in Hin. destruct Hin as (r0 & Er & Hin).
    unfold entry in Er. injection Er as Ek ->.
    split; [exact (proj1 (Forall_forall _ _) Hr _ Hin)|].
    split; [exact Hin|]. split; [exact Ek|]. split; [exact G|]. now left.
  - rewrite V in V'. discriminate.
  - exists (fresh_result clk v d), (fresh_state clk this v d).
    split; [exact E|]. split; [exists clk, v, d; auto|].
    split; [simpl; apply in_or_app; right; now left|].
    split; [reflexivity|].
    split; [simpl; rewrite Map_get_set, key_eqb_refl; reflexivity|].
    right. split; [exact G|]. exists d. auto.
Qed.

Lemma recorded_one_parameter r :
  recorded r -> commonDifference r = None \/ commonRatio r = None.
Proof.
  intros H. destruct (recorded_well_shaped r H) as (_ & _ & S).
  unfold shape in S. destruct (pattern r) as [[]|]; try tauto.
Qed.

(* ================================================================== *)
(** ** Keys, [===] and the sign of zero *)

Lemma number_token_strict_eq x y :
  isFinite x = true -> isFinite y = true -> strict_eq x y = true ->
  number_token x = number_token y.
Proof.
  intros Fx Fy E. unfold number_token. rewrite Fx, Fy.
  apply eqb_zeq in E as [_ [->|[Zx Zy]]]; [reflexivity|].
  unfold is_zero in Zx, Zy. now rewrite Zx, Zy.
Qed.

Lemma strict_eq_same_key v v' :
  valid v = true -> valid v' = true ->
  pairwise_strict_eq (numbers v) (numbers v') ->
  cacheKey v = cacheKey v'.
Proof.
  intros V V' H. rewrite (valid_cacheKey v V), (valid_cacheKey v' V').
  destruct (valid_inv v V) as (l & _ & Hn & _ & F).
  destruct (valid_inv v' V') as (l' & _ & Hn' & _ & F').
  rewrite Hn, Hn' in *. do 2 f_equal.
  clear Hn Hn' V V'. induction H as [|x y l l' E _ IH]; [reflexivity|].
  inversion F as [|? ? Fx Fl]; inversion F' as [|? ? Fy Fl']; subst. simpl. f_equal.
  - pose proof E as E0. unfold strict_eq in E0. apply eqb_zeq in E0 as [Nx Zxy].
    pose proof (zeq_not_nan _ _ Zxy Nx) as Ny.
    apply number_token_strict_eq; [| |exact E].
    + destruct Fx as [Fx| ->]; [exact Fx|]. vm_compute in Nx. discriminate.
    + destruct Fy as [Fy| ->]; [exact Fy|]. vm_compute in Ny. discriminate.
  - now apply IH.
Qed.

(** Two valid inputs with the same key have elements that are [===] place
    by place, where they have no empty slot. *)
Lemma same_key_strict_eq v v' :
  valid v = true -> valid v' = true ->
  Forall not_nan (numbers v) ->
  cacheKey v = cacheKey v' ->
  pairwise_strict_eq (numbers v) (numbers v').
Proof.
  intros V V' N K. pose proof (same_key_zeq v v' V V' K) as Z.
  clear - Z N. induction Z as [|x y l l' E _ IH]; constructor.
  - inversion N; subst. apply eqb_zeq. split; assumption.
  - inversion N; subst. now apply IH.
Qed.



Lemma fibonacci_loop_zeq count : forall a a' b b',
  zeq a a' -> zeq b b' ->
  Forall2 zeq (fibonacci_loop count a b) (fibonacci_loop count a' b').
Proof.
  induction count as [|n IH]; intros a a' b b' Ha Hb; simpl; constructor.
  - now apply zeq_add.
  - apply IH; [exact Hb|now apply zeq_add].
Qed.

Lemma all_equal_zeq l l' : Forall2 zeq l l' -> all_equal l = all_equal l'.
Proof.
  intros H. unfold all_equal. apply forallb_zeq; [exact H|].
  intros x x' Hx. unfold strict_eq. apply eqb_zeq_compat; [exact Hx|now apply hd_zeq].
Qed.

Lemma constant_row_zeq k s s' :
  Forall2 zeq s s' -> constant_row k s = constant_row k s'.
Proof.
  intros H. unfold constant_row.
  pose proof (difference_row_zeq k s s' H) as R.
  pose proof (all_equal_zeq _ _ R) as A.
  destruct R; [reflexivity|exact A].
Qed.

Lemma finite_near_itself q :
  isFinite q = true -> (abs (q - q) <? 0.01)%float = true.
Proof.
  intros F.
  assert (zeq (q - q) 0) as Z.
  { apply zeq_of_SF. right. rewrite sub_spec.
    apply isFinite_spec in F as [[s ->]|(s & m & e & ->)].
    - exists (if s then false else false), false. split; [destruct s|]; reflexivity.
    - exists false, false. split; [|reflexivity].
      unfold SF64sub, SFsub. rewrite Z.sub_diag. reflexivity. }
  rewrite (ltb_zeq_compat _ (abs 0) _ 0.01 (zeq_abs _ _ Z) (zeq_refl _)).
  reflexivity.
Qed.

Lemma pattern_eqb_refl p : pattern_eqb p p = true.
Proof. destruct p as [[]|]; reflexivity. Qed.

Lemma pattern_eqb_true p q : pattern_eqb p q = true -> p = q.
Proof. destruct p as [[]|], q as [[]|]; simpl; intros H; try discriminate; reflexivity. Qed.

Lemma recorded_numbers r v :
  recorded r -> valid v = true ->
  cacheKey (sequence r) = cacheKey v ->
  Forall2 zeq (numbers (sequence r)) (numbers v) /\
  (2 <= List.length (numbers (sequence r)))%nat.
Proof.
  intros Hr V K. pose proof (recorded_valid r Hr) as Vr. split.
  - now apply same_key_zeq.
  - destruct (valid_inv _ Vr) as (l & _ & -> & L & _). exact L.
Qed.

(** One call on a valid input in a state that keeps the ledger: a
    recorded result filed under the key of the input, with the pattern of
    the decision table. *)
Lemma analyze_outcome clk this v :
  ledger this -> valid v = true ->
  exists r this',
    analyze clk this v = Normal (r, this') /\ ledger this' /\
    recorded r /\
    cacheKey (sequence r) = cacheKey v /\
    pattern r = Some (decision (numbers v)) /\
    Map_get (analysisCache this') (cacheKey v) = Some r.
Proof.
  intros L V.
  destruct (analyze_report clk this v L V) as (r & this' & E & Hr & _ & K & G & _).
  exists r, this'. split; [exact E|].
  split; [eapply analyze_ledger; eauto|].
  repeat (split; [assumption || reflexivity|]).
  destruct (recorded_numbers r v Hr V K) as (Z & Len).
  split; [|exact G].
  rewrite (recorded_pattern r Hr). f_equal. now apply decision_zeq.
Qed.

(** One call on any input that prints, in a state that keeps the ledger:
    a failure that changes nothing, for an input that fails validation and
    whose key is not in the cache, or a recorded result filed in the
    history under the key of the input. *)
Lemma analyze_any_outcome clk this v :
  ledger this -> prints v = true ->
  exists r this',
    analyze clk this v = Normal (r, this') /\ ledger this' /\
    ((valid v = false /\ Map_get (analysisCache this) (cacheKey v) = None /\
      r = failure v /\ this' = this) \/
     (recorded r /\ cacheKey (sequence r) = cacheKey v /\ In r (history this') /\
      Map_get (analysisCache this') (cacheKey v) = Some r)).
Proof.
  intros L P.
  destruct (analyze_cases clk this v P)
    as [(c & G & E)|[(G & V & E)|(G & V & d & p & Ed & _ & E)]].
  - exists c, (hit_state this). split; [exact E|].
    split; [eapply analyze_ledger; eauto|]. right.
    destruct L as (Hr & Hc & _).
    pose proof (Map_get_In _ _ _ G) as Hin. rewrite Hc in Hin.
    apply in_map_iff in Hin. destruct Hin as (r0 & Er & Hin).
    unfold entry in Er. injection Er as Ek ->.
    split; [exact (proj1 (Forall_forall _ _) Hr _ Hin)|].
    split; [exact Ek|]. split; [exact Hin|exact G].
  - exists (failure v), this. split; [exact E|]. split; [exact L|]. left. auto.
  - exists (fresh_result clk v d), (fresh_state clk this v d). split; [exact E|].
    split; [eapply analyze_ledger; eauto|]. right.
    split; [exists clk, v, d; auto|]. split; [reflexivity|].
    split; [simpl; apply in_or_app; right; now left|].
    simpl. rewrite Map_get_set, key_eqb_refl. reflexivity.
Qed.

Lemma failure_or_recorded_parameters r :
  (exists v, r = failure v) \/ recorded r ->
  (commonDifference r = None \/ pattern r = Some arithmetic /\ success r = true) /\
  (commonRatio r = None \/ pattern r = Some geometric /\ success r = true).
Proof.
  intros [(v & ->)|H]; [split; left; reflexivity|].
  destruct (recorded_well_shaped r H) as (S & _ & Sh).
  unfold shape in Sh. destruct (pattern r) as [[]|]; try tauto;
    decompose [and] Sh; auto.
Qed.

(* ================================================================== *)
(** ** Further properties of the analyzer *)

(** X1.  The pattern [analyze] reports for a valid sequence is the one the
    decision table gives: arithmetic when all consecutive differences are
    [===]; otherwise geometric when no element is zero and every ratio is
    within 0.0001 of the first; otherwise fibonacci when there are at least
    three elements and each one from the third on is within 0.0001 of the
    sum of the two before; otherwise polynomial when one of the difference
    rows 2 to 5 exists and is constant; otherwise unknown.  This holds in
    every state the analyzer goes through, also when the result comes from
    the cache. *)
Theorem X1_analyze_follows_the_decision_table clk this v :
  reachable this -> valid v = true ->
  exists r this',
    analyze clk this v = Normal (r, this') /\
    success r = true /\ pattern r = Some (decision (numbers v)).
Proof.
  intros R V.
  destruct (analyze_outcome clk this v (reachable_ledger _ R) V)
    as (r & this' & E & _ & Hr & _ & P & _).
  exists r, this'. split; [exact E|]. split; [|exact P].
  now apply recorded_success.
Qed.

Lemma X1_witness :
  exists r this',
    analyze (mkClock 0 1 "t") constructor
      (VArray [VNumber 1; VNumber 1; VNumber 2; VNumber 3; VNumber 5]) = Normal (r, this') /\
    success r = true /\
    pattern r =
      Some (decision (numbers (VArray [VNumber 1; VNumber 1; VNumber 2; VNumber 3; VNumber 5]))).
Proof.
  apply (X1_analyze_follows_the_decision_table (mkClock 0 1 "t") constructor
           (VArray [VNumber 1; VNumber 1; VNumber 2; VNumber 3; VNumber 5])).
  - apply reachable_constructor.
  - vm_compute. reflexivity.
Defined.

(** X2.  Every result in the history, and every result [analyze] returns
    for a valid input, has the shape of its pattern: [success] is true and
    [error] is absent; arithmetic carries confidence 100 and a
    [commonDifference] that is not [NaN]; geometric carries confidence 100
    and a finite [commonRatio]; fibonacci carries confidence 100;
    polynomial carries confidence 95, a degree from 2 to 5 and a
    [constantDifference] that is not [NaN]; each of these carries exactly
    five numeric predictions and none of the other patterns' parameters;
    unknown carries confidence 0 and the single prediction [null].
    Whatever the input, a result that [analyze] returns is either such a
    result, found in the history after the call, or the failure object of
    an input that fails validation, returned without changing the
    analyzer. *)
Theorem X2_results_have_the_shape_of_their_pattern clk this v :
  reachable this ->
  Forall well_shaped (getHistory this) /\
  (valid v = true ->
   exists r this', analyze clk this v = Normal (r, this') /\ well_shaped r) /\
  (forall r this',
      analyze clk this v = Normal (r, this') ->
      well_shaped r /\ In r (getHistory this')
      \/ r = failure v /\ valid v = false /\ this' = this).
Proof.
  intros R. pose proof (reachable_ledger _ R) as L. split; [|split].
  - destruct L as (Hr & _). unfold getHistory.
    eapply Forall_impl; [|exact Hr]. apply recorded_well_shaped.
  - intros V.
    destruct (analyze_outcome clk this v L V) as (r & this' & E & _ & Hr & _).
    exists r, this'. split; [exact E|]. now apply recorded_well_shaped.
  - intros r this' E.
    destruct (analyze_any_outcome clk this v L (analyze_Normal_prints _ _ _ _ E))
      as (r0 & st & E0 & _ & [(V & _ & Hf & Hs)|(Hr & _ & Hin & _)]);
      rewrite E in E0; injection E0 as <- <-.
    + right. auto.
    + left. split; [now apply recorded_well_shaped|exact Hin].
Qed.

Lemma X2_witness :
  Forall well_shaped (getHistory constructor) /\
  (valid (VArray [VNumber 2; VNumber 6; VNumber 18]) = true ->
   exists r this',
     analyze (mkClock 0 1 "t") constructor (VArray [VNumber 2; VNumber 6; VNumber 18])
     = Normal (r, this') /\ well_shaped r) /\
  (forall r this',
      analyze (mkClock 0 1 "t") constructor (VArray [VNumber 2; VNumber 6; VNumber 18])
      = Normal (r, this') ->
      well_shaped r /\ In r (getHistory this')
      \/ r = failure (VArray [VNumber 2; VNumber 6; VNumber 18]) /\
         valid (VArray [VNumber 2; VNumber 6; VNumber 18]) = false /\ this' = constructor).
Proof.
  apply (X2_results_have_the_shape_of_their_pattern (mkClock 0 1 "t") constructor
           (VArray [VNumber 2; VNumber 6; VNumber 18])).
  apply reachable_constructor.
Defined.

Lemma recorded_detection r :
  recorded r ->
  exists d, detect (numbers (sequence r)) = Normal d /\
    (2 <= List.length (numbers (sequence r)))%nat /\
    confidence r = det_confidence d /\ degree r = det_degree d /\
    constantDifference r = det_constantDifference d /\
    nextNumbers r = det_nextNumbers d.
Proof.
  intros (clk & v & d & V & E & ->). exists d. simpl.
  destruct (valid_inv v V) as (l & _ & Hn & L & _). rewrite Hn.
  rewrite Hn in E. auto 10.
Qed.

(** X3.  When the decision is polynomial, the degree [analyze] reports is
    the index of the first constant row of the difference table among rows
    2 to 5: that row exists, no earlier row from 1 on is constant, the
    sequence has more elements than the degree, and [constantDifference] is
    [===] to the first entry of that row.  The confidence is 95. *)
Theorem X3_polynomial_degree_is_the_first_constant_row clk this v :
  reachable this -> valid v = true -> decision (numbers v) = polynomial ->
  exists r this' k c c0,
    analyze clk this v = Normal (r, this') /\
    pattern r = Some polynomial /\ confidence r = Some 95%Z /\
    degree r = Some k /\ constantDifference r = Some c /\
    (2 <= k <= 5)%nat /\ (k < List.length (numbers v))%nat /\
    constant_row k (numbers v) = true /\
    (forall j, (1 <= j < k)%nat -> constant_row j (numbers v) = false) /\
    hd_error (difference_row k (numbers v)) = Some c0 /\
    strict_eq c c0 = true.
Proof.
  intros R V D.
  destruct (analyze_outcome clk this v (reachable_ledger _ R) V)
    as (r & this' & E & _ & Hr & K & P & _).
  destruct (recorded_numbers r v Hr V K) as (Z & Len).
  destruct (recorded_detection r Hr) as (d & Ed & _ & Hc & Hd & Hcd & _).
  destruct (detect_decision _ Len) as (d' & Ed' & H).
  rewrite Ed in Ed'. injection Ed' as <-.
  rewrite (decision_zeq _ _ Z Len), D in H.
  destruct H as (k & c & ps & -> & Hk & Hl & Hrow & Hleast & Hh & Hn & _).
  simpl in Hc, Hd, Hcd.
  pose proof (hd_error_zeq _ _ (difference_row_zeq k _ _ Z)) as Hz.
  rewrite Hh in Hz. unfold opt_zeq in Hz.
  destruct (hd_error (difference_row k (numbers v))) as [c0|] eqn:Hh0; [|contradiction].
  exists r, this', k, c, c0. rewrite D in P.
  repeat (split; [assumption|]).
  split; [rewrite <- (Forall2_length Z); exact Hl|].
  split; [rewrite <- (constant_row_zeq k _ _ Z); exact Hrow|].
  split; [intros j Hj; rewrite <- (constant_row_zeq j _ _ Z); now apply Hleast|].
  split; [exact Hh0|]. apply eqb_zeq. auto.
Qed.

Lemma X3_witness :
  exists r this' k c c0,
    analyze (mkClock 0 1 "t") constructor
      (VArray [VNumber 1; VNumber 8; VNumber 27; VNumber 64; VNumber 125]) = Normal (r, this') /\
    pattern r = Some polynomial /\ confidence r = Some 95%Z /\
    degree r = Some k /\ constantDifference r = Some c /\
    (2 <= k <= 5)%nat /\
    (k < List.length
           (numbers (VArray [VNumber 1; VNumber 8; VNumber 27; VNumber 64; VNumber 125])))%nat /\
    constant_row k
      (numbers (VArray [VNumber 1; VNumber 8; VNumber 27; VNumber 64; VNumber 125])) = true /\
    (forall j, (1 <= j < k)%nat ->
       constant_row j
         (numbers (VArray [VNumber 1; VNumber 8; VNumber 27; VNumber 64; VNumber 125]))
       = false) /\
    hd_error
      (difference_row k
         (numbers (VArray [VNumber 1; VNumber 8; VNumber 27; VNumber 64; VNumber 125])))
    = Some c0 /\
    strict_eq c c0 = true.
Proof.
  apply (X3_polynomial_degree_is_the_first_constant_row (mkClock 0 1 "t") constructor
           (VArray [VNumber 1; VNumber 8; VNumber 27; VNumber 64; VNumber 125])).
  - apply reachable_constructor.
  - vm_compute. reflexivity.
  - vm_compute. reflexivity.
Defined.



Lemma ledger_history_key this r :
  ledger this -> In r (history this) ->
  In (cacheKey (sequence r)) (map fst (analysisCache this)).
Proof.
  intros (_ & Hc & _) Hin. rewrite Hc, map_map. simpl.
  apply in_map_iff. eauto.
Qed.

Lemma ledger_lookup this r :
  ledger this -> In r (history this) ->
  Map_get (analysisCache this) (cacheKey (sequence r)) = Some r.
Proof.
  intros (_ & Hc & Hn & _) Hin. rewrite Hc. now apply Map_get_entry.
Qed.

Lemma run_reachable calls : forall this, reachable this -> reachable (run calls this).
Proof.
  induction calls as [|c rest IH]; intros this R; simpl; [exact R|].
  destruct (after c this) as [this'|e] eqn:E; [|exact R].
  apply IH. eapply reachable_after; eauto.
Qed.

(** X5.  Analysing a valid sequence and then a valid sequence with the
    same length and pairwise [===] elements (the same sequence, or one that
    differs in the sign of a zero) returns the very same result object the
    second time; the second call is served from the cache: it adds one to
    [cacheHits] and changes nothing else.  This holds from any state. *)
Theorem X5_second_analysis_is_served_from_the_cache clk clk' this v v' :
  valid v = true -> valid v' = true ->
  pairwise_strict_eq (numbers v) (numbers v') ->
  exists r st1 st2,
    analyze clk this v = Normal (r, st1) /\
    analyze clk' st1 v' = Normal (r, st2) /\
    getHistory st2 = getHistory st1 /\
    analysisCache st2 = analysisCache st1 /\
    report_totalAnalyses (getMetrics st2) = report_totalAnalyses (getMetrics st1) /\
    report_averageAnalysisTime (getMetrics st2) =
      report_averageAnalysisTime (getMetrics st1) /\
    report_cacheHits (getMetrics st2) = (report_cacheHits (getMetrics st1) + 1)%float.
Proof.
  intros V V' H. pose proof (strict_eq_same_key v v' V V' H) as K.
  assert (exists r st1, analyze clk this v = Normal (r, st1) /\
            Map_get (analysisCache st1) (cacheKey v) = Some r) as (r & st1 & E & G).
  { destruct (analyze_cases clk this v (valid_is_printed v V))
      as [(c & G & E)|[(_ & V0 & _)|(G & _ & d & p & Ed & _ & E)]].
    - exists c, (hit_state this). split; [exact E|exact G].
    - congruence.
    - exists (fresh_result clk v d), (fresh_state clk this v d). split; [exact E|].
      simpl. rewrite Map_get_set, key_eqb_refl. reflexivity. }
  exists r, st1, (hit_state st1). split; [exact E|].
  split; [|repeat split].
  unfold analyze. rewrite (valid_prints v' V'), <- K. simpl JS.bind. rewrite G. reflexivity.
Qed.

Lemma X5_witness :
  exists r st1 st2,
    analyze (mkClock 0 1 "t") constructor (VArray [VNumber 0; VNumber 5; VNumber 25])
    = Normal (r, st1) /\
    analyze (mkClock 2 3 "u") st1 (VArray [VNumber (-0); VNumber 5; VNumber 25])
    = Normal (r, st2) /\
    getHistory st2 = getHistory st1 /\
    analysisCache st2 = analysisCache st1 /\
    report_totalAnalyses (getMetrics st2) = report_totalAnalyses (getMetrics st1) /\
    report_averageAnalysisTime (getMetrics st2) =
      report_averageAnalysisTime (getMetrics st1) /\
    report_cacheHits (getMetrics st2) = (report_cacheHits (getMetrics st1) + 1)%float.
Proof.
  apply (X5_second_analysis_is_served_from_the_cache (mkClock 0 1 "t") (mkClock 2 3 "u")
           constructor (VArray [VNumber 0; VNumber 5; VNumber 25])
           (VArray [VNumber (-0); VNumber 5; VNumber 25])).
  - vm_compute. reflexivity.
  - vm_compute. reflexivity.
  - repeat constructor.
Defined.

Lemma zeq_number_token x y : zeq x y -> number_token x = number_token y.
Proof.
  intros [->|[Zx Zy]]; [reflexivity|]. unfold number_token.
  assert (isFinite x = true) as -> by (apply isFinite_spec; left; now apply is_zero_spec).
  assert (isFinite y = true) as -> by (apply isFinite_spec; left; now apply is_zero_spec).
  unfold is_zero in Zx, Zy. now rewrite Zx, Zy.
Qed.

Lemma zeq_same_key v v' :
  valid v = true -> valid v' = true ->
  Forall2 zeq (numbers v) (numbers v') -> cacheKey v = cacheKey v'.
Proof.
  intros V V' Z. rewrite (valid_cacheKey v V), (valid_cacheKey v' V'). do 2 f_equal.
  induction Z as [|x y l l' E _ IH]; [reflexivity|]. simpl. f_equal; [|exact IH].
  now apply zeq_number_token.
Qed.

(** X6.  A call whose input prints is served from the history exactly
    when the history already holds the analysis of a sequence that prints
    the same key; the result returned is then that entry, and the state is
    the one of a cache hit.  For a valid input, the sequences with the same
    key are those that hold the same numbers up to the sign of zero, with
    their empty slots at the same places; so a valid sequence that was not
    analysed since the last [clear] never gets a result out of the
    history. *)
Theorem X6_cache_hits_are_earlier_analyses clk this v :
  reachable this -> prints v = true ->
  exists r this',
    analyze clk this v = Normal (r, this') /\
    (In r (getHistory this) <->
     exists r0, In r0 (getHistory this) /\ cacheKey (sequence r0) = cacheKey v) /\
    (In r (getHistory this) ->
     this' = hit_state this /\ cacheKey (sequence r) = cacheKey v) /\
    (valid v = true ->
     forall r0, In r0 (getHistory this) ->
       (cacheKey (sequence r0) = cacheKey v <->
        Forall2 zeq (numbers (sequence r0)) (numbers v))).
Proof.
  intros R P. pose proof (reachable_ledger _ R) as L. unfold getHistory.
  pose proof L as (Hr & Hc & Hn & _).
  assert (forall r0, In r0 (history this) -> recorded r0) as Hrec
    by (apply Forall_forall; exact Hr).
  assert (valid v = true ->
          forall r0, In r0 (history this) ->
            (cacheKey (sequence r0) = cacheKey v <->
             Forall2 zeq (numbers (sequence r0)) (numbers v))) as Hkey.
  { intros V r0 Hin. pose proof (recorded_valid _ (Hrec _ Hin)) as V0. split.
    - now apply same_key_zeq.
    - now apply zeq_same_key. }
  destruct (analyze_cases clk this v P)
    as [(c & G & E)|[(G & V & E)|(G & V & d & p & Ed & _ & E)]].
  - exists c, (hit_state this). split; [exact E|].
    pose proof (Map_get_In _ _ _ G) as Hin. rewrite Hc in Hin.
    apply in_map_iff in Hin. destruct Hin as (r0 & Er & Hin).
    unfold entry in Er. injection Er as Ek ->.
    split; [|split; [auto|exact Hkey]]. split; [eauto|auto].
  - exists (failure v), this. split; [exact E|].
    apply Map_get_None_not_In in G.
    assert (~ In (failure v) (history this)) as N.
    { intros Hin. apply Hrec, recorded_success in Hin as [Hs _]. discriminate. }
    split; [|split; [tauto|exact Hkey]]. split; [tauto|].
    intros (r0 & Hin & K). exfalso. apply G. rewrite <- K.
    now apply ledger_history_key.
  - exists (fresh_result clk v d), (fresh_state clk this v d). split; [exact E|].
    apply Map_get_None_not_In in G.
    assert (~ In (fresh_result clk v d) (history this)) as N.
    { intros Hin. apply G. exact (ledger_history_key this _ L Hin). }
    split; [|split; [tauto|exact Hkey]]. split; [tauto|].
    intros (r0 & Hin & K). exfalso. apply G. rewrite <- K.
    now apply ledger_history_key.
Qed.

Lemma X6_witness :
  let this := run [CallAnalyze (mkClock 0 1 "t") (VArray [VNumber 4; VNumber 8])] constructor in
  exists r this',
    analyze (mkClock 2 3 "u") this (VArray [boxed_number 4; boxed_number 8])
    = Normal (r, this') /\
    (In r (getHistory this) <->
     exists r0, In r0 (getHistory this) /\
                cacheKey (sequence r0) = cacheKey (VArray [boxed_number 4; boxed_number 8])) /\
    (In r (getHistory this) ->
     this' = hit_state this /\
     cacheKey (sequence r) = cacheKey (VArray [boxed_number 4; boxed_number 8])) /\
    (valid (VArray [boxed_number 4; boxed_number 8]) = true ->
     forall r0, In r0 (getHistory this) ->
       (cacheKey (sequence r0) = cacheKey (VArray [boxed_number 4; boxed_number 8]) <->
        Forall2 zeq (numbers (sequence r0))
          (numbers (VArray [boxed_number 4; boxed_number 8])))).
Proof.
  intros this.
  apply (X6_cache_hits_are_earlier_analyses (mkClock 2 3 "u") this
           (VArray [boxed_number 4; boxed_number 8])).
  - apply run_reachable, reachable_constructor.
  - vm_compute. reflexivity.
Defined.

(** X7.  In every state the analyzer goes through, the cache holds exactly
    the results of the history, in the same order, each under the key of
    the sequence it analysed, and no key twice; so [cacheSize] is the
    length of the history, and analysing the sequence of any history entry
    again returns that entry from the cache. *)
Theorem X7_the_cache_mirrors_the_history this :
  reachable this ->
  analysisCache this = map entry (getHistory this) /\
  NoDup (map (fun r => cacheKey (sequence r)) (getHistory this)) /\
  report_cacheSize (getMetrics this) = List.length (getHistory this) /\
  forall r clk, In r (getHistory this) ->
    analyze clk this (sequence r) = Normal (r, hit_state this).
Proof.
  intros R. pose proof (reachable_ledger _ R) as L.
  pose proof L as (Hr & Hc & Hn & _). unfold getHistory.
  split; [exact Hc|]. split; [exact Hn|]. split.
  - unfold getMetrics, Map_size. simpl. now rewrite Hc, length_map.
  - intros r clk Hin. unfold analyze.
    assert (valid (sequence r) = true) as V
      by (apply recorded_valid; exact (proj1 (Forall_forall _ _) Hr _ Hin)).
    rewrite (valid_prints _ V). simpl JS.bind.
    rewrite (ledger_lookup this r L Hin). reflexivity.
Qed.

Lemma X7_witness :
  let this :=
    run [CallAnalyze (mkClock 0 1 "t") (VArray [VNumber 4; VNumber 8]);
         CallAnalyze (mkClock 2 3 "u") (VArray [VNumber 1; VNumber 2; VNumber 4])]
      constructor in
  analysisCache this = map entry (getHistory this) /\
  NoDup (map (fun r => cacheKey (sequence r)) (getHistory this)) /\
  report_cacheSize (getMetrics this) = List.length (getHistory this) /\
  forall r clk, In r (getHistory this) ->
    analyze clk this (sequence r) = Normal (r, hit_state this).
Proof.
  intros this.
  apply (X7_the_cache_mirrors_the_history this).
  apply run_reachable, reachable_constructor.
Defined.

Lemma analyze_failure_or_recorded clk this v r this' :
  ledger this -> analyze clk this v = Normal (r, this') ->
  ledger this' /\ ((exists w, r = failure w) \/ recorded r).
Proof.
  intros L E.
  destruct (analyze_any_outcome clk this v L (analyze_Normal_prints _ _ _ _ E))
    as (r0 & st & E0 & L' & [(_ & _ & Hf & _)|(Hr & _)]);
    rewrite E in E0; injection E0 as -> ->; (split; [exact L'|]); eauto.
Qed.

(** X8.  The similarity a comparison reports is 0 when the two patterns
    differ and 50 or 75 when they agree: the two bonuses of 25 can never
    both apply, so 100 is never reported and the cap at 100 never acts.
    A similarity of 75 is only reported for two successful analyses that
    are both arithmetic or both geometric.  This holds for every pair of
    inputs that [JSON.stringify] prints, which are the pairs on which the
    comparison completes. *)
Theorem X8_similarity_is_0_50_or_75 clk1 clk2 this a b :
  reachable this -> prints a = true -> prints b = true ->
  exists c st,
    comparSequences clk1 clk2 this a b = Normal (c, st) /\
    (samePattern c = false /\ similarity c = 0%Z \/
     samePattern c = true /\ (similarity c = 50%Z \/ similarity c = 75%Z)) /\
    (similarity c = 75%Z ->
     success (sequence1 c) = true /\ success (sequence2 c) = true /\
     pattern (sequence1 c) = pattern (sequence2 c) /\
     (pattern (sequence1 c) = Some arithmetic \/ pattern (sequence1 c) = Some geometric)).
Proof.
  intros R Pa Pb. pose proof (reachable_ledger _ R) as L.
  destruct (comparSequences_Normal clk1 clk2 this a b Pa Pb)
    as (ra & mid & rb & st & Ea & Eb & E).
  destruct (analyze_failure_or_recorded _ _ _ _ _ L Ea) as (Lm & Ha).
  destruct (analyze_failure_or_recorded _ _ _ _ _ Lm Eb) as (_ & Hb).
  apply failure_or_recorded_parameters in Ha as (Da & Qa).
  apply failure_or_recorded_parameters in Hb as (Db & Qb).
  eexists. exists st. split; [exact E|].
  cbn [samePattern similarity sequence1 sequence2].
  unfold calculateSimilarity.
  destruct (pattern_eqb (pattern ra) (pattern rb)) eqn:P; simpl; [|split; [auto|discriminate]].
  apply pattern_eqb_true in P.
  destruct (commonDifference ra) as [da|], (commonDifference rb) as [db|],
           (commonRatio ra) as [qa|], (commonRatio rb) as [qb|];
    try (destruct Da as [Da|[Da Sa]]; [discriminate|]);
    try (destruct Db as [Db|[Db Sb]]; [discriminate|]);
    try (destruct Qa as [Qa|[Qa Sa']]; [discriminate|]);
    try (destruct Qb as [Qb|[Qb Sb']]; [discriminate|]);
    try congruence;
    try (destruct (strict_eq da db));
    try (destruct (abs (qa - qb) <? 0.01)%float);
    simpl; (split; [auto|]); try discriminate; intros _; auto 10.
Qed.

Lemma X8_witness :
  exists c st,
    comparSequences (mkClock 0 1 "t") (mkClock 2 3 "u") constructor
      (VArray [VNumber 2; VNumber 4; VNumber 8]) (VArray [VNumber 3; VNumber 6; VNumber 12])
    = Normal (c, st) /\
    (samePattern c = false /\ similarity c = 0%Z \/
     samePattern c = true /\ (similarity c = 50%Z \/ similarity c = 75%Z)) /\
    (similarity c = 75%Z ->
     success (sequence1 c) = true /\ success (sequence2 c) = true /\
     pattern (sequence1 c) = pattern (sequence2 c) /\
     (pattern (sequence1 c) = Some arithmetic \/ pattern (sequence1 c) = Some geometric)).
Proof.
  apply (X8_similarity_is_0_50_or_75 (mkClock 0 1 "t") (mkClock 2 3 "u") constructor
           (VArray [VNumber 2; VNumber 4; VNumber 8]) (VArray [VNumber 3; VNumber 6; VNumber 12])).
  - apply reachable_constructor.
  - vm_compute. reflexivity.
  - vm_compute. reflexivity.
Defined.

(** X9.  Comparing a valid sequence with itself returns the same result
    object on both sides, [samePattern] true, and similarity 75 when the
    sequence is arithmetic or geometric and 50 otherwise. *)
Theorem X9_comparing_a_sequence_with_itself clk1 clk2 this a :
  reachable this -> valid a = true ->
  exists c st,
    comparSequences clk1 clk2 this a a = Normal (c, st) /\
    sequence1 c = sequence2 c /\ samePattern c = true /\
    similarity c =
      match decision (numbers a) with
      | arithmetic | geometric => 75%Z
      | _ => 50%Z
      end.
Proof.
  intros R V.
  destruct (analyze_outcome clk1 this a (reachable_ledger _ R) V)
    as (r & st1 & E & _ & Hr & _ & P & G).
  assert (analyze clk2 st1 a = Normal (r, hit_state st1)) as E2
    by (unfold analyze; rewrite (valid_prints a V); simpl JS.bind; rewrite G; reflexivity).
  exists (mkComparison r r (pattern_eqb (pattern r) (pattern r)) (calculateSimilarity r r)),
         (hit_state st1).
  split; [unfold comparSequences; rewrite E; simpl; rewrite E2; reflexivity|].
  cbn [samePattern similarity sequence1 sequence2].
  split; [reflexivity|]. split; [apply pattern_eqb_refl|].
  unfold calculateSimilarity. rewrite pattern_eqb_refl. simpl.
  destruct (recorded_well_shaped r Hr) as (_ & _ & Sh). rewrite P in Sh.
  unfold shape in Sh.
  destruct (decision (numbers a)).
  - destruct Sh as (_ & (d & -> & Hd) & -> & _). unfold strict_eq.
    unfold not_nan in Hd. rewrite Hd. reflexivity.
  - destruct Sh as (_ & -> & (q & -> & Hq) & _).
    rewrite (finite_near_itself q Hq). reflexivity.
  - destruct Sh as (_ & -> & -> & _). reflexivity.
  - destruct Sh as (_ & -> & -> & _). reflexivity.
  - destruct Sh as (_ & -> & -> & _). reflexivity.
Qed.

Lemma X9_witness :
  exists c st,
    comparSequences (mkClock 0 1 "t") (mkClock 2 3 "u") constructor
      (VArray [VNumber 3; VNumber 6; VNumber 12]) (VArray [VNumber 3; VNumber 6; VNumber 12])
    = Normal (c, st) /\
    sequence1 c = sequence2 c /\ samePattern c = true /\
    similarity c =
      match decision (numbers (VArray [VNumber 3; VNumber 6; VNumber 12])) with
      | arithmetic | geometric => 75%Z
      | _ => 50%Z
      end.
Proof.
  apply (X9_comparing_a_sequence_with_itself (mkClock 0 1 "t") (mkClock 2 3 "u") constructor
           (VArray [VNumber 3; VNumber 6; VNumber 12])).
  - apply reachable_constructor.
  - vm_compute. reflexivity.
Defined.

Lemma detect_total s : exists d, detect s = Normal d.
Proof.
  destruct s as [|x [|y t]].
  - eexists. reflexivity.
  - eexists. reflexivity.
  - destruct (detect_Normal (x :: y :: t)) as (d & _ & E & _); [simpl; lia|eauto].
Qed.

(** X10.  A call on the analyzer raises only where [JSON.stringify]
    does: [analyze] completes normally on every input that
    [JSON.stringify] prints, from every state, and raises the error of
    [JSON.stringify] on the others (a [BigInt], an array that contains
    itself); [comparSequences] raises exactly when one of its two inputs
    does; the detector chain completes on every list of numbers.  The two
    further places where the code can raise a [TypeError] are real but out
    of reach: [detectGeometric] on its own raises exactly on a list of at
    most one number that contains no zero, and [predictPolynomial] raises
    on a one-element list at any level from 1 on; validation asks for two
    elements, and a shorter list given to the detector chain is accepted
    by the arithmetic detector, which runs first and finds no difference
    to compare. *)
Theorem X10_the_analyzer_raises_only_in_JSON_stringify :
  (forall clk this v,
      (prints v = true -> exists r this', analyze clk this v = Normal (r, this')) /\
      (forall e, analyze clk this v = Throw e <-> JSON_stringify v = Throw e)) /\
  (forall clk1 clk2 this a b,
      (prints a = true -> prints b = true ->
       exists c this', comparSequences clk1 clk2 this a b = Normal (c, this')) /\
      (forall e, comparSequences clk1 clk2 this a b = Throw e <->
                 JSON_stringify a = Throw e \/
                 prints a = true /\ JSON_stringify b = Throw e)) /\
  (forall clk this l,
      analyze clk this bigint = Throw "TypeError: Do not know how to serialize a BigInt" /\
      (prints (VArray l) = true ->
       analyze clk this (cyclic_array l)
       = Throw "TypeError: Converting circular structure to JSON")) /\
  (forall s, exists d, detect s = Normal d) /\
  (forall s, (exists e, detectGeometric s = Throw e) <->
             (List.length s <= 1)%nat /\ has_zero s = false) /\
  (forall x level c count, exists e,
      predictPolynomial [x] (S level) c (S count) = Throw e).
Proof.
  assert (Hthrow : forall clk this v e,
             analyze clk this v = Throw e <-> JSON_stringify v = Throw e).
  { intros clk this v e. split.
    - intros E. now apply analyze_Throw_prints in E.
    - intros E. unfold analyze. now rewrite E. }
  split; [intros clk this v; split; [apply analyze_Normal|apply Hthrow]|].
  split.
  { intros clk1 clk2 this a b. split.
    - intros Pa Pb. destruct (comparSequences_Normal clk1 clk2 this a b Pa Pb)
        as (ra & mid & rb & st & _ & _ & E). eauto.
    - intros e. unfold comparSequences.
      destruct (analyze clk1 this a) as [[ra mid]|ea] eqn:Ea; simpl.
      + pose proof (analyze_Normal_prints _ _ _ _ Ea) as Pa.
        destruct (analyze clk2 mid b) as [[rb st]|eb] eqn:Eb; simpl.
        * pose proof (analyze_Normal_prints _ _ _ _ Eb) as Pb.
          split; [discriminate|].
          intros [E|[_ E]]; unfold prints in *; rewrite E in *; discriminate.
        * apply Hthrow in Eb. split.
          -- intros [= <-]. auto.
          -- intros [E|[_ E]]; [unfold prints in Pa; rewrite E in Pa; discriminate|].
             congruence.
      + apply Hthrow in Ea. split.
        * intros [= <-]. auto.
        * intros [E|[Pa _]]; [congruence|].
          unfold prints in Pa. rewrite Ea in Pa. discriminate. }
  split.
  { intros clk this l. split; [reflexivity|].
    intros P. apply Hthrow. unfold cyclic_array, prints in *.
    unfold JSON_stringify in *.
    destruct (serialize (VArray l)) as [j|e] eqn:E; [|discriminate]. clear P.
    simpl in E |- *.
    assert (forall l js,
               (fix elements (l : list value) : completion (list json) :=
                  match l with
                  | [] => Normal []
                  | e :: rest =>
                      JS.bind (serialize e)
                        (fun text =>
                           JS.bind (elements rest) (fun texts => Normal (text :: texts)))
                  end) l = Normal js ->
               (fix elements (l : list value) : completion (list json) :=
                  match l with
                  | [] => Normal []
                  | e :: rest =>
                      JS.bind (serialize e)
                        (fun text =>
                           JS.bind (elements rest) (fun texts => Normal (text :: texts)))
                  end)
                 (l ++ [VObject (Throw "TypeError: Converting circular structure to JSON")])
               = Throw "TypeError: Converting circular structure to JSON") as Hcyc.
    { clear. induction l as [|x l IH]; intros js H; [reflexivity|].
      simpl in H |- *. destruct (serialize x) as [jx|ex]; [|discriminate]. simpl in H |- *.
      destruct ((fix elements (l : list value) : completion (list json) :=
                   match l with
                   | [] => Normal []
                   | e :: rest =>
                       JS.bind (serialize e)
                         (fun text =>
                            JS.bind (elements rest) (fun texts => Normal (text :: texts)))
                   end) l) as [js'|e'] eqn:El; [|discriminate].
      now rewrite (IH js' eq_refl). }
    destruct ((fix elements (l : list value) : completion (list json) :=
                 match l with
                 | [] => Normal []
                 | e :: rest =>
                     JS.bind (serialize e)
                       (fun text =>
                          JS.bind (elements rest) (fun texts => Normal (text :: texts)))
                 end) l) as [js|e] eqn:El; [|discriminate].
    now rewrite (Hcyc l js El). }
  split; [exact detect_total|].
  split.
  - intros s. split.
    + intros (e & E). destruct s as [|x [|y t]].
      * split; [simpl; lia|reflexivity].
      * split; [simpl; lia|]. unfold detectGeometric in E. unfold has_zero.
        destruct (existsb _ [x]); [discriminate|reflexivity].
      * destruct (detectGeometric_Normal (x :: y :: t)) as (d & Ed); [simpl; lia|].
        congruence.
    + intros (Len & Z). unfold detectGeometric. unfold has_zero in Z. rewrite Z.
      destruct s as [|x [|y t]]; simpl in *; [eauto|eauto|lia].
  - intros x level c count. unfold predictPolynomial. simpl.
    destruct level; simpl; eauto.
Qed.

Lemma all_triples_nth s :
  all_triples s = true <->
  forall i, (i + 2 < List.length s)%nat ->
    triple_ok (nth i s nan) (nth (i + 1) s nan) (nth (i + 2) s nan) = true.
Proof.
  induction s as [|a s IH].
  - simpl. split; [intros _ i Hi; lia|reflexivity].
  - destruct s as [|b [|c t]].
    + simpl. split; [intros _ i Hi; lia|reflexivity].
    + simpl. split; [intros _ i Hi; lia|reflexivity].
    + change (all_triples (a :: b :: c :: t))
        with (triple_ok a b c && all_triples (b :: c :: t)).
      rewrite andb_true_iff, IH. split.
      * intros [H0 H] [|i] Hi; [exact H0|].
        apply (H i). simpl in *. lia.
      * intros H. split; [apply (H 0%nat); simpl; lia|].
        intros i Hi. apply (H (S i)). simpl in *. lia.
Qed.

(** X11.  [detectFibonacci] on its own: the loop that counts matches and
    stops at the first mismatch reports fibonacci exactly when the list has
    at least three numbers and every element from the third on is within
    0.0001 of the sum of the two before it; it then proposes confidence 100
    and the five predictions of [predictFibonacci], and otherwise reports
    no pattern. *)
Theorem X11_detectFibonacci_checks_every_triple s :
  (det_pattern (detectFibonacci s) = Some fibonacci <->
   (3 <= List.length s)%nat /\
   forall i, (i + 2 < List.length s)%nat ->
     (abs (nth (i + 2) s nan - (nth (i + 1) s nan + nth i s nan)) <? 0.0001)%float = true) /\
  (detectFibonacci s =
     mkDetection (Some fibonacci) (Some 100%Z) None None None None
       (Some (map VNumber (predictFibonacci s 5)))
   \/ detectFibonacci s = no_pattern).
Proof.
  rewrite detectFibonacci_test. unfold fibonacci_test.
  pose proof (all_triples_nth s) as T. unfold triple_ok in T.
  destruct (3 <=? List.length s)%nat eqn:L; simpl.
  - apply Nat.leb_le in L. destruct (all_triples s); simpl.
    + split; [|now left]. split; [intros _|reflexivity].
      split; [exact L|]. now apply T.
    + split; [|now right]. split; [discriminate|].
      intros [_ H]. apply T in H. discriminate.
  - apply Nat.leb_gt in L. split; [|now right].
    split; [discriminate|]. intros [H _]. lia.
Qed.

(** X12.  Every valid sequence of exactly two numbers is reported as
    arithmetic with confidence 100: its single difference is trivially
    constant, so the other detectors are never consulted.  The common
    difference is [===] to the second element minus the first. *)
Theorem X12_two_numbers_are_always_arithmetic clk this x y :
  reachable this -> valid (VArray [VNumber x; VNumber y]) = true ->
  exists r this' d,
    analyze clk this (VArray [VNumber x; VNumber y]) = Normal (r, this') /\
    pattern r = Some arithmetic /\ confidence r = Some 100%Z /\
    commonDifference r = Some d /\ strict_eq d (y - x) = true.
Proof.
  intros R V.
  destruct (analyze_outcome clk this (VArray [VNumber x; VNumber y]) (reachable_ledger _ R) V)
    as (r & this' & E & _ & Hr & K & P & _).
  destruct (recorded_numbers r _ Hr V K) as (Z & Len).
  assert (isFinite x = true /\ isFinite y = true) as [Fx Fy].
  { unfold valid, validateSequence, every, valid_number in V. simpl in V.
    destruct (isFinite x); [|now rewrite andb_false_r in V].
    destruct (isFinite y); [auto|]. now rewrite !andb_false_r in V. }
  assert (not_nan (y - x)) as N by (now apply sub_finite_not_nan).
  assert (decision [x; y] = arithmetic) as D.
  { unfold decision, arithmetic_test, all_equal. simpl. unfold strict_eq.
    unfold not_nan in N. now rewrite N. }
  simpl numbers in P, Z. rewrite D in P.
  destruct (recorded_well_shaped r Hr) as (_ & _ & Sh). rewrite P in Sh.
  destruct Sh as (Hc & (d & Hd & Nd) & _).
  exists r, this', d. repeat (split; [assumption|]).
  destruct Hr as (clk0 & v0 & d0 & V0 & E0 & ->).
  cbn [fresh_result sequence commonDifference] in *.
  destruct (detect_decision _ Len) as (d1 & E1 & H1).
  rewrite E0 in E1. injection E1 as <-.
  rewrite (decision_zeq _ _ Z Len), D in H1.
  destruct H1 as (c & Hh & _ & Ed0). rewrite Ed0 in Hd. simpl in Hd. injection Hd as <-.
  pose proof (hd_error_zeq _ _ (calculateDifferences_zeq _ _ Z)) as Hz.
  rewrite Hh in Hz. simpl in Hz.
  apply eqb_zeq. split; [exact Nd|exact Hz].
Qed.

Lemma X12_witness :
  exists r this' d,
    analyze (mkClock 0 1 "t") constructor (VArray [VNumber 7; VNumber 2]) = Normal (r, this') /\
    pattern r = Some arithmetic /\ confidence r = Some 100%Z /\
    commonDifference r = Some d /\ strict_eq d (2 - 7) = true.
Proof.
  apply (X12_two_numbers_are_always_arithmetic (mkClock 0 1 "t") constructor 7%float 2%float).
  - apply reachable_constructor.
  - vm_compute. reflexivity.
Defined.

(* ================================================================== *)
(** ** The routes of the web server *)

Lemma post_analyze_array clk analyzer v result analyzer' :
  Server.isArray v = true ->
  analyze clk analyzer v = Normal (result, analyzer') ->
  Server.post_analyze clk analyzer (Some v) =
    if success result then
      (Server.json (Server.BodyAnalysis result), analyzer',
       [Server.mkLogCall Logger.INFO "Sequence analyzed successfully"
          (Some (Server.DataAnalyzed (pattern result) (Server.array_length v)))])
    else
      (Server.status_json 400 (Server.BodyAnalysis result), analyzer',
       [Server.mkLogCall Logger.WARN "Sequence analysis failed"
          (Some (Server.DataError (error result)))]).
Proof.
  intros A E. unfold Server.post_analyze, Server.destructure. simpl.
  rewrite A, E. simpl. destruct (success result); reflexivity.
Qed.

Lemma post_analyze_not_array clk analyzer v :
  Server.isArray v = false ->
  Server.post_analyze clk analyzer (Some v) =
    (Server.status_json 400 (Server.BodyError "Sequence must be an array of numbers"),
     analyzer, [Server.mkLogCall Logger.WARN "Invalid sequence format received" None]).
Proof.
  intros A. unfold Server.post_analyze, Server.destructure. simpl. now rewrite A.
Qed.

Lemma valid_isArray v : valid v = true -> Server.isArray v = true.
Proof. intros V. destruct (valid_inv v V) as (l & (elements & ->) & _). reflexivity. Qed.

Lemma failure_of_array_error v :
  Server.isArray v = true -> error (failure v) <> Some error_not_an_array.
Proof.
  destruct v as [| |b|x|s|l| |o]; simpl; try discriminate. intros _.
  unfold failure, validateSequence. destruct (List.length l <? 2)%nat; simpl.
  - unfold error_too_short, error_not_an_array. discriminate.
  - destruct (negb (every valid_number l)); simpl; [|discriminate].
    unfold error_not_numbers, error_not_an_array. discriminate.
Qed.

(** X13.  [POST /api/analyze] with a body that carries [sequence], which
    the server has parsed from the request text, so that it is plain data
    and so is what the cache holds: the status is 200 exactly when the
    sequence passes validation, and 400 otherwise, never 500.  With status
    200 the reply is the result of [analyze], with [success] true, and the
    analyzer is left as [analyze] leaves it.  A value that is not an array
    is refused by the route itself, without consulting the analyzer, with
    the route's own message; so the analyzer's message for a value that is
    not an array is never sent.  An invalid array gets the analyzer's
    failure object, and the analyzer is unchanged.  Only a request without
    a body is answered with status 500, again leaving the analyzer
    unchanged. *)
Theorem X13_post_analyze_status_follows_validation clk analyzer v :
  reachable analyzer -> plain_cache analyzer = true -> plain v = true ->
  exists result analyzer' res after logs,
    analyze clk analyzer v = Normal (result, analyzer') /\
    Server.post_analyze clk analyzer (Some v) = (res, after, logs) /\
    Server.status res = (if valid v then 200 else 400)%nat /\
    (valid v = true ->
     Server.payload res = Server.BodyAnalysis result /\ success result = true /\
     after = analyzer') /\
    (valid v = false ->
     after = analyzer /\
     Server.payload res =
       if Server.isArray v then Server.BodyAnalysis (failure v)
       else Server.BodyError "Sequence must be an array of numbers") /\
    (forall r, Server.payload res = Server.BodyAnalysis r ->
               error r <> Some error_not_an_array) /\
    Server.status (fst (fst (Server.post_analyze clk analyzer None))) = 500%nat /\
    snd (fst (Server.post_analyze clk analyzer None)) = analyzer.
Proof.
  intros R Pc P.
  destruct (valid v) eqn:V.
  - destruct (analyze_outcome clk analyzer v (reachable_ledger _ R) V)
      as (r & st & E & _ & Hr & _).
    exists r, st. pose proof (valid_isArray v V) as A.
    destruct (recorded_success r Hr) as (S & Er).
    do 3 eexists. split; [exact E|].
    split; [rewrite (post_analyze_array _ _ _ _ _ A E), S; reflexivity|].
    simpl. split; [reflexivity|]. split; [auto|].
    split; [discriminate|]. split; [|split; reflexivity].
    intros r0 H. injection H as <-. rewrite Er. discriminate.
  - pose proof (reachable_invariant _ R) as [Hc _].
    pose proof (analyze_plain_invalid clk analyzer v Hc Pc P V) as E.
    exists (failure v), analyzer. destruct (Server.isArray v) eqn:A.
    + do 3 eexists. split; [exact E|].
      split; [rewrite (post_analyze_array _ _ _ _ _ A E); reflexivity|].
      simpl. split; [reflexivity|]. split; [discriminate|].
      split; [auto|]. split; [|split; reflexivity].
      intros r0 H. injection H as <-. now apply failure_of_array_error.
    + do 3 eexists. split; [exact E|].
      split; [apply (post_analyze_not_array _ _ _ A)|].
      simpl. split; [reflexivity|]. split; [discriminate|].
      split; [auto|]. split; [discriminate|split; reflexivity].
Qed.

Lemma X13_witness :
  exists result analyzer' res after logs,
    analyze (mkClock 0 1 "t") constructor (VArray [VNumber 1; VString "x"])
    = Normal (result, analyzer') /\
    Server.post_analyze (mkClock 0 1 "t") constructor
      (Some (VArray [VNumber 1; VString "x"])) = (res, after, logs) /\
    Server.status res =
      (if valid (VArray [VNumber 1; VString "x"]) then 200 else 400)%nat /\
    (valid (VArray [VNumber 1; VString "x"]) = true ->
     Server.payload res = Server.BodyAnalysis result /\ success result = true /\
     after = analyzer') /\
    (valid (VArray [VNumber 1; VString "x"]) = false ->
     after = constructor /\
     Server.payload res =
       if Server.isArray (VArray [VNumber 1; VString "x"])
       then Server.BodyAnalysis (failure (VArray [VNumber 1; VString "x"]))
       else Server.BodyError "Sequence must be an array of numbers") /\
    (forall r, Server.payload res = Server.BodyAnalysis r ->
               error r <> Some error_not_an_array) /\
    Server.status (fst (fst (Server.post_analyze (mkClock 0 1 "t") constructor None)))
    = 500%nat /\
    snd (fst (Server.post_analyze (mkClock 0 1 "t") constructor None)) = constructor.
Proof.
  apply (X13_post_analyze_status_follows_validation (mkClock 0 1 "t") constructor
           (VArray [VNumber 1; VString "x"])).
  - apply reachable_constructor.
  - vm_compute. reflexivity.
  - vm_compute. reflexivity.
Defined.

(** X14.  [POST /api/compare] with two arrays of plain data, as the server
    parses them, always answers 200 with [success: true] and the
    comparison, whatever the arrays hold: when both fail validation the
    reply still says [success: true], with [samePattern] true and
    similarity 50, and the analyzer is unchanged.  When one of the two
    values is not an array the answer is 400, nothing is logged and the
    analyzer is not consulted, not even for the value that is an array. *)
Theorem X14_post_compare_always_succeeds_on_arrays clk1 clk2 analyzer a b :
  reachable analyzer -> plain_cache analyzer = true ->
  plain a = true -> plain b = true ->
  exists c analyzer',
    comparSequences clk1 clk2 analyzer a b = Normal (c, analyzer') /\
    Server.post_compare clk1 clk2 analyzer (Some (a, b)) =
      (if Server.isArray a && Server.isArray b then
         (Server.mkResponse 200 (Server.BodyComparison c), analyzer',
          [Server.mkLogCall Logger.INFO "Sequences compared"
             (Some (Server.DataCompared (samePattern c) (similarity c)))])
       else
         (Server.mkResponse 400
            (Server.BodyError "Both sequences must be arrays of numbers"),
          analyzer, [])) /\
    (valid a = false -> valid b = false ->
     success (sequence1 c) = false /\ success (sequence2 c) = false /\
     samePattern c = true /\ similarity c = 50%Z /\ analyzer' = analyzer).
Proof.
  intros R Pc Pa Pb. pose proof (reachable_invariant _ R) as [Hc _].
  destruct (comparSequences_Normal clk1 clk2 analyzer a b
              (plain_is_printed a Pa) (plain_is_printed b Pb))
    as (ra & mid & rb & st & Ea & Eb & E).
  eexists. exists st. split; [exact E|]. split.
  - unfold Server.post_compare, Server.destructure. simpl.
    destruct (Server.isArray a), (Server.isArray b); simpl; try reflexivity.
    rewrite E. reflexivity.
  - intros Va Vb.
    rewrite (analyze_plain_invalid clk1 analyzer a Hc Pc Pa Va) in Ea.
    injection Ea as <- <-.
    rewrite (analyze_plain_invalid clk2 analyzer b Hc Pc Pb Vb) in Eb.
    injection Eb as <- <-.
    simpl. repeat split.
Qed.

Lemma X14_witness :
  exists c analyzer',
    comparSequences (mkClock 0 1 "t") (mkClock 2 3 "u") constructor
      (VArray [VNumber 5]) (VArray []) = Normal (c, analyzer') /\
    Server.post_compare (mkClock 0 1 "t") (mkClock 2 3 "u") constructor
      (Some (VArray [VNumber 5], VArray [])) =
      (if Server.isArray (VArray [VNumber 5]) && Server.isArray (VArray []) then
         (Server.mkResponse 200 (Server.BodyComparison c), analyzer',
          [Server.mkLogCall Logger.INFO "Sequences compared"
             (Some (Server.DataCompared (samePattern c) (similarity c)))])
       else
         (Server.mkResponse 400
            (Server.BodyError "Both sequences must be arrays of numbers"),
          constructor, [])) /\
    (valid (VArray [VNumber 5]) = false -> valid (VArray []) = false ->
     success (sequence1 c) = false /\ success (sequence2 c) = false /\
     samePattern c = true /\ similarity c = 50%Z /\ analyzer' = constructor).
Proof.
  apply (X14_post_compare_always_succeeds_on_arrays (mkClock 0 1 "t") (mkClock 2 3 "u")
           constructor (VArray [VNumber 5]) (VArray [])).
  - apply reachable_constructor.
  - vm_compute. reflexivity.
  - vm_compute. reflexivity.
  - vm_compute. reflexivity.
Defined.

(** What a handler answers, whatever it is given. *)
Lemma handle_cases q analyzer :
  reachable analyzer ->
  exists res st logs,
    Server.handle q analyzer = (res, st, logs) /\ reachable st /\
    (Server.status res = 200 \/ Server.status res = 400 \/ Server.status res = 500)%nat /\
    (List.length logs <= 1)%nat /\
    Forall (fun c =>
              (Logger.levels (Server.call_level c)
               <= Logger.currentLevel Logger.constructor)%nat) logs.
Proof.
  intros R. destruct q as [clk [v|]| | |clk1 clk2 [[a b]|]|]; simpl.
  - destruct (Server.isArray v) eqn:A.
    + destruct (analyze clk analyzer v) as [[r st]|e] eqn:E.
      * rewrite (post_analyze_array _ _ _ _ _ A E).
        assert (reachable st) as R'.
        { apply (reachable_after (CallAnalyze clk v) analyzer); [exact R|].
          simpl. now rewrite E. }
        destruct (success r); do 3 eexists; (split; [reflexivity|]);
          (split; [exact R'|]); simpl; (split; [auto|]); (split; [lia|]);
          repeat constructor.
      * unfold Server.post_analyze, Server.destructure. simpl. rewrite A, E. simpl.
        do 3 eexists. split; [reflexivity|]. split; [exact R|]. simpl.
        split; [auto|]. split; [lia|]. repeat constructor.
    + rewrite (post_analyze_not_array _ _ _ A).
      do 3 eexists. split; [reflexivity|]. split; [exact R|]. simpl.
      split; [auto|]. split; [lia|]. repeat constructor.
  - do 3 eexists. split; [reflexivity|]. split; [exact R|]. simpl.
    split; [auto|]. split; [lia|]. repeat constructor.
  - do 3 eexists. split; [reflexivity|]. split; [exact R|]. simpl.
    split; [auto|]. split; [lia|]. repeat constructor.
  - do 3 eexists. split; [reflexivity|]. split; [exact R|]. simpl.
    split; [auto|]. split; [lia|]. repeat constructor.
  - unfold Server.post_compare, Server.destructure. simpl.
    destruct (negb (Server.isArray a) || negb (Server.isArray b)).
    + do 3 eexists. split; [reflexivity|]. split; [exact R|]. simpl.
      split; [auto|]. split; [lia|]. constructor.
    + pose proof (state_after_reachable (CallCompare clk1 clk2 a b) analyzer R) as Rs.
      destruct (comparSequences clk1 clk2 analyzer a b) as [[c st]|e] eqn:E; simpl.
      * do 3 eexists. split; [reflexivity|]. split.
        { apply (reachable_after (CallCompare clk1 clk2 a b) analyzer); [exact R|].
          simpl. now rewrite E. }
        simpl. split; [auto|]. split; [lia|]. repeat constructor.
      * do 3 eexists. split; [reflexivity|]. split; [exact Rs|]. simpl.
        split; [auto|]. split; [lia|]. repeat constructor.
  - do 3 eexists. split; [reflexivity|]. split; [exact R|]. simpl.
    split; [auto|]. split; [lia|]. repeat constructor.
  - do 3 eexists. split; [reflexivity|].
    split; [apply (reachable_after CallClear analyzer); [exact R|reflexivity]|].
    simpl. split; [auto|]. split; [lia|]. repeat constructor.
Qed.

Lemma handle_reachable q analyzer :
  reachable analyzer -> reachable (snd (fst (Server.handle q analyzer))).
Proof.
  intros R. destruct (handle_cases q analyzer R) as (res & st & logs & -> & Rs & _).
  exact Rs.
Qed.

Lemma serve_reachable requests : reachable (Server.serve requests).
Proof.
  unfold Server.serve. generalize reachable_constructor.
  generalize constructor. induction requests as [|q rest IH]; intros a R; simpl.
  - exact R.
  - apply IH. now apply handle_reachable.
Qed.

(** The server's analyzer holds plain data: its cache is filled from the
    bodies of the requests only. *)
Lemma handle_plain_cache q analyzer :
  Server.parsed q = true -> plain_cache analyzer = true ->
  plain_cache (snd (fst (Server.handle q analyzer))) = true.
Proof.
  intros Q Pc. destruct q as [clk [v|]| | |clk1 clk2 [[a b]|]|]; simpl in *;
    try exact Pc; try reflexivity.
  - destruct (Server.isArray v) eqn:A.
    + destruct (analyze_Normal clk analyzer v (plain_is_printed v Q)) as (r & st & E).
      rewrite (post_analyze_array _ _ _ _ _ A E).
      pose proof (analyze_plain_cache _ _ _ _ _ Pc Q E) as P'.
      now destruct (success r).
    + now rewrite (post_analyze_not_array _ _ _ A).
  - apply andb_true_iff in Q as [Pa Pb].
    unfold Server.post_compare, Server.destructure. simpl.
    destruct (negb (Server.isArray a) || negb (Server.isArray b)); [exact Pc|].
    destruct (comparSequences_Normal clk1 clk2 analyzer a b
                (plain_is_printed a Pa) (plain_is_printed b Pb))
      as (ra & mid & rb & st & Ea & Eb & ->).
    simpl. pose proof (analyze_plain_cache _ _ _ _ _ Pc Pa Ea) as P1.
    exact (analyze_plain_cache _ _ _ _ _ P1 Pb Eb).
Qed.

Lemma serve_plain_cache requests :
  forallb Server.parsed requests = true -> plain_cache (Server.serve requests) = true.
Proof.
  unfold Server.serve.
  assert (plain_cache constructor = true) as Pc by reflexivity. revert Pc.
  generalize constructor. induction requests as [|q rest IH]; intros a Pc H; simpl in *.
  - exact Pc.
  - apply andb_true_iff in H as [Q H]. apply IH; [|exact H].
    now apply handle_plain_cache.
Qed.

(** X15.  After any series of requests, the routes agree with each
    other: the count that [GET /api/history] reports is the [cacheSize]
    that [GET /api/metrics] reports, and both are the number of entries in
    the history, each of them a successful analysis; neither route changes
    the analyzer.  After [DELETE /api/history] the history is empty and
    all metrics are zero.  Every handler answers 200, 400 or 500, logs at
    most one message, and logs it at a level that the logger writes at its
    default setting. *)
Theorem X15_routes_agree_after_any_requests requests :
  let analyzer := Server.serve requests in
  (exists h m,
      Server.get_history analyzer =
        (Server.mkResponse 200 (Server.BodyHistory h (List.length h)), analyzer,
         [Server.mkLogCall Logger.INFO "History retrieved"
            (Some (Server.DataCount (List.length h)))]) /\
      Server.get_metrics analyzer =
        (Server.mkResponse 200 (Server.BodyMetrics m), analyzer, []) /\
      report_cacheSize m = List.length h /\
      Forall (fun r => success r = true) h) /\
  (let cleared := snd (fst (Server.delete_history analyzer)) in
   getHistory cleared = [] /\ getMetrics cleared = mkReport 0 0 0 0) /\
  (forall q,
      let '(res, _, logs) := Server.handle q analyzer in
      (Server.status res = 200 \/ Server.status res = 400 \/ Server.status res = 500)%nat /\
      (List.length logs <= 1)%nat /\
      Forall (fun c =>
                (Logger.levels (Server.call_level c)
                 <= Logger.currentLevel Logger.constructor)%nat) logs).
Proof.
  intros analyzer. pose proof (serve_reachable requests) as R. fold analyzer in R.
  pose proof (reachable_ledger _ R) as (Hr & Hc & _).
  split; [|split].
  - exists (getHistory analyzer), (getMetrics analyzer).
    split; [reflexivity|]. split; [reflexivity|]. split.
    + unfold getMetrics, getHistory, Map_size. simpl. now rewrite Hc, length_map.
    + unfold getHistory. eapply Forall_impl; [|exact Hr].
      intros r H. now apply recorded_success.
  - split; reflexivity.
  - intros q. destruct (handle_cases q analyzer R) as (res & st & logs & -> & _ & H).
    exact H.
Qed.

(* ================================================================== *)
(** ** The logger and the log route *)

Lemma string_append_assoc (a b c : string) :
  ((a ++ b) ++ c)%string = (a ++ (b ++ c))%string.
Proof. induction a as [|x a IH]; simpl; [reflexivity|now rewrite IH]. Qed.

Lemma string_append_empty (a : string) : (a ++ EmptyString)%string = a.
Proof. induction a as [|x a IH]; simpl; [reflexivity|now rewrite IH]. Qed.

Lemma grows_refl w : Logger.grows w w.
Proof.
  split; [exists EmptyString; now rewrite string_append_empty|].
  split; [auto|]. exists []. now rewrite app_nil_r.
Qed.

Lemma grows_trans w1 w2 w3 :
  Logger.grows w1 w2 -> Logger.grows w2 w3 -> Logger.grows w1 w3.
Proof.
  intros ((m & Hm) & Hf & (l & Hl)) ((m' & Hm') & Hf' & (l' & Hl')).
  split; [|split].
  - exists (m ++ m')%string. now rewrite Hm', Hm, string_append_assoc.
  - auto.
  - exists (l ++ l'). now rewrite Hl', Hl, app_assoc.
Qed.

Lemma log_grows t ok this w level message data e :
  Logger.grows w (Logger.log t ok this w level message data e).
Proof.
  unfold Logger.log. destruct (Logger.currentLevel this <? Logger.levels level)%nat;
    [apply grows_refl|].
  destruct (Logger.enableFileLogging this); [destruct ok|]; simpl.
  - split; [|split]; simpl.
    + eexists. unfold Logger.content at 1. simpl. reflexivity.
    + discriminate.
    + eexists. reflexivity.
  - split; [|split]; simpl.
    + exists EmptyString. unfold Logger.content. simpl. now rewrite string_append_empty.
    + auto.
    + eexists. reflexivity.
  - split; [|split]; simpl.
    + exists EmptyString. unfold Logger.content. simpl. now rewrite string_append_empty.
    + auto.
    + eexists. reflexivity.
Qed.

Lemma log_entries_closed t ok this w level message data e :
  Logger.entries_closed w ->
  Logger.entries_closed (Logger.log t ok this w level message data e).
Proof.
  intros H. unfold Logger.log.
  destruct (Logger.currentLevel this <? Logger.levels level)%nat; [exact H|].
  destruct (Logger.enableFileLogging this); [destruct ok|]; try exact H.
  unfold Logger.entries_closed, Logger.writeToFile. simpl. right.
  eexists. rewrite <- string_append_assoc. reflexivity.
Qed.

Lemma after_entries_closed c s :
  Logger.entries_closed (snd s) -> Logger.entries_closed (snd (Logger.after c s)).
Proof.
  destruct s as [this w]. intros H.
  destruct c as [t ok m d|t ok m d|t ok m d|t ok m d|l|t [f|] ok|ok]; simpl;
    try (now apply log_entries_closed); try exact H.
  now left.
Qed.

Lemma run_entries_closed calls : forall s,
  Logger.entries_closed (snd s) -> Logger.entries_closed (snd (Logger.run calls s)).
Proof.
  unfold Logger.run. induction calls as [|c rest IH]; intros s H; simpl; [exact H|].
  apply IH. now apply after_entries_closed.
Qed.

(** X16.  The log is append-only: over any series of calls on a logger
    that does not clear the log, whatever the level settings and whether
    or not the writes succeed, the text the file held at the start is
    still at the front of the file at the end, a file that existed still
    exists, and the lines the console held are still there, in order,
    before the new ones.  A failing write never loses what was logged
    before it. *)
Theorem X16_the_log_is_append_only calls this w :
  forallb Logger.keeps_log calls = true ->
  Logger.grows w (snd (Logger.run calls (this, w))).
Proof.
  revert this w.
  induction calls as [|c rest IH]; intros this w H; [apply grows_refl|].
  simpl in H. apply andb_true_iff in H as [Hc Hr].
  change (Logger.run (c :: rest) (this, w))
    with (Logger.run rest (Logger.after c (this, w))).
  destruct (Logger.after c (this, w)) as [this' w'] eqn:E.
  apply (grows_trans w w'); [|now apply IH].
  destruct c as [t ok m d|t ok m d|t ok m d|t ok m d|l|t [f|] ok|ok];
    simpl in E; injection E as <- <-;
    try apply log_grows; try apply grows_refl.
  discriminate.
Qed.

Lemma X16_witness :
  Logger.grows (Logger.mkWorld (Some "old"%string) [] [])
    (snd (Logger.run
            [Logger.CallInfo "t1" true "started" None;
             Logger.CallSetLevel "ERROR";
             Logger.CallWarn "t2" true "dropped" None;
             Logger.CallError "t3" false "failed write" (Some "{}"%string)]
            (Logger.constructor, Logger.mkWorld (Some "old"%string) [] []))).
Proof.
  apply (X16_the_log_is_append_only
           [Logger.CallInfo "t1" true "started" None;
            Logger.CallSetLevel "ERROR";
            Logger.CallWarn "t2" true "dropped" None;
            Logger.CallError "t3" false "failed write" (Some "{}"%string)]
           Logger.constructor (Logger.mkWorld (Some "old"%string) [] [])).
  vm_compute. reflexivity.
Defined.

Lemma split_lines_closed body :
  exists first rest,
    Logger.split_lines (body ++ Logger.newline) = first :: rest ++ [EmptyString].
Proof.
  induction body as [|c body (f & r & IH)].
  - exists EmptyString, []. reflexivity.
  - change (Logger.split_lines (String c body ++ Logger.newline))
      with (match Logger.split_lines (body ++ Logger.newline) with
            | line :: more =>
                if Ascii.eqb c "010"%char then EmptyString :: line :: more
                else String c line :: more
            | [] => [String c EmptyString]
            end).
    rewrite IH. destruct (Ascii.eqb c "010"%char).
    + exists EmptyString, (f :: r). reflexivity.
    + exists (String c f), r. reflexivity.
Qed.

Lemma split_lines_not_nil s : Logger.split_lines s <> [].
Proof.
  destruct s as [|c s]; simpl; [discriminate|].
  destruct (Logger.split_lines s); [discriminate|].
  destruct (Ascii.eqb c "010"%char); discriminate.
Qed.

Lemma last_skipn {A} (l : list A) k d :
  (k < List.length l)%nat -> last (skipn k l) d = last l d.
Proof.
  revert l. induction k as [|k IH]; intros l H; [reflexivity|].
  destruct l as [|x l]; simpl in *; [lia|].
  rewrite IH by lia. destruct l; [simpl in H; lia|reflexivity].
Qed.

Lemma last_50_spec {A} (l : list A) d :
  l <> [] ->
  (1 <= List.length (Logger.last_50 l) <= 50)%nat /\
  last (Logger.last_50 l) d = last l d /\
  exists front, l = front ++ Logger.last_50 l.
Proof.
  intros N. unfold Logger.last_50.
  assert (0 < List.length l)%nat by (destruct l; [congruence|simpl; lia]).
  split; [rewrite length_skipn; lia|].
  split; [apply last_skipn; lia|].
  exists (firstn (List.length l - 50) l). now rewrite firstn_skipn.
Qed.

(** X17.  [GET /api/logs] always answers 200 with between 1 and 50
    lines, the last lines of what [readLog] returned.  When the log file
    was written by the logger alone (it started absent or empty), every
    entry in it ends with a line break, so the last line sent is always
    the empty string: the reply shows at most 49 lines of log text.  When
    the file is missing or cannot be read, the reply is still 200, and
    its only line is the sentence [readLog] returns for that case. *)
Theorem X17_the_log_route_ends_with_an_empty_line calls this w ok :
  Logger.entries_closed w ->
  let w' := snd (Logger.run calls (this, w)) in
  exists lines,
    Server.get_logs ok w' = Server.mkResponse 200 (Server.BodyLogs lines) /\
    (1 <= List.length lines <= 50)%nat /\
    (exists front, Logger.split_lines (Logger.readLog ok w') = front ++ lines) /\
    (Logger.file w' <> None -> ok = true -> last lines "?"%string = EmptyString) /\
    (Logger.file w' = None \/ ok = false ->
     lines = ["Log file not found or cannot be read"%string]).
Proof.
  intros H w'. pose proof (run_entries_closed calls (this, w) H) as C. fold w' in C.
  exists (Logger.last_50 (Logger.split_lines (Logger.readLog ok w'))).
  split; [reflexivity|].
  destruct (last_50_spec (Logger.split_lines (Logger.readLog ok w')) "?"%string
              (split_lines_not_nil _)) as (Len & La & Fr).
  split; [exact Len|]. split; [exact Fr|]. split.
  - intros F ->. rewrite La. unfold Logger.readLog.
    unfold Logger.entries_closed in C.
    destruct (Logger.file w') as [text|]; [|congruence].
    destruct C as [->|(body & ->)]; [reflexivity|].
    destruct (split_lines_closed body) as (f & r & ->).
    change (f :: r ++ [EmptyString]) with ((f :: r) ++ [EmptyString]).
    apply last_last.
  - intros F. unfold Logger.readLog.
    destruct F as [->| ->]; [reflexivity|].
    destruct (Logger.file w'); reflexivity.
Qed.

Lemma X17_witness :
  let w' :=
    snd (Logger.run
           [Logger.CallInfo "t1" true "started" None;
            Logger.CallError "t2" true "failed" (Some "{}"%string)]
           (Logger.constructor, Logger.mkWorld None [] [])) in
  exists lines,
    Server.get_logs true w' = Server.mkResponse 200 (Server.BodyLogs lines) /\
    (1 <= List.length lines <= 50)%nat /\
    (exists front, Logger.split_lines (Logger.readLog true w') = front ++ lines) /\
    (Logger.file w' <> None -> true = true -> last lines "?"%string = EmptyString) /\
    (Logger.file w' = None \/ true = false ->
     lines = ["Log file not found or cannot be read"%string]).
Proof.
  apply (X17_the_log_route_ends_with_an_empty_line
           [Logger.CallInfo "t1" true "started" None;
            Logger.CallError "t2" true "failed" (Some "{}"%string)]
           Logger.constructor (Logger.mkWorld None [] []) true).
  exact I.
Defined.

Lemma setLevel_below_debug this level :
  (Logger.currentLevel this <= 2)%nat -> String.eqb level "DEBUG" = false ->
  (Logger.currentLevel (Logger.setLevel this level) <= 2)%nat.
Proof.
  intros H D. unfold Logger.setLevel, Logger.own_level. rewrite D.
  destruct (String.eqb level "ERROR"); [simpl; lia|].
  destruct (String.eqb level "WARN"); [simpl; lia|].
  destruct (String.eqb level "INFO"); [simpl; lia|exact H].
Qed.

Lemma run_without_debug calls : forall this w,
  (Logger.currentLevel this <= 2)%nat ->
  forallb (fun c => negb (Logger.enables_debug c)) calls = true ->
  Logger.run calls (this, w) =
  Logger.run (filter (fun c => negb (Logger.is_debug c)) calls) (this, w).
Proof.
  induction calls as [|c rest IH]; intros this w L H; [reflexivity|].
  simpl in H. apply andb_true_iff in H as [Hc Hr].
  change (Logger.run (c :: rest) (this, w))
    with (Logger.run rest (Logger.after c (this, w))).
  destruct c as [t ok m d|t ok m d|t ok m d|t ok m d|l|t f ok|ok];
    simpl filter;
    try (change (Logger.run (?c :: ?r) ?s) with (Logger.run r (Logger.after c s)));
    simpl Logger.after; try (apply IH; assumption).
  - assert (Logger.debug t ok this w m d = w) as ->; [|now apply IH].
    unfold Logger.debug, Logger.log. simpl.
    destruct (Logger.currentLevel this <? 3)%nat eqn:E; [reflexivity|].
    apply Nat.ltb_ge in E. lia.
  - apply IH; [|exact Hr]. apply setLevel_below_debug; [exact L|].
    simpl in Hc. now apply negb_true_iff in Hc.
Qed.

(** X18.  A logger on which [setLevel('DEBUG')] is never called writes
    no debug message: over any series of calls without that one, the
    logger, the file and the console end up exactly as if the calls to
    [debug] had not been made.  Other level names, recognised or not, do
    not change this. *)
Theorem X18_debug_messages_are_dropped_by_default calls w :
  forallb (fun c => negb (Logger.enables_debug c)) calls = true ->
  Logger.run calls (Logger.constructor, w) =
  Logger.run (filter (fun c => negb (Logger.is_debug c)) calls) (Logger.constructor, w).
Proof.
  intros H. apply run_without_debug; [simpl; lia|exact H].
Qed.

Lemma X18_witness :
  Logger.run
    [Logger.CallDebug "t1" true "detail" None;
     Logger.CallSetLevel "debug";
     Logger.CallDebug "t2" true "more detail" None;
     Logger.CallInfo "t3" true "done" None]
    (Logger.constructor, Logger.mkWorld None [] []) =
  Logger.run
    (filter (fun c => negb (Logger.is_debug c))
       [Logger.CallDebug "t1" true "detail" None;
        Logger.CallSetLevel "debug";
        Logger.CallDebug "t2" true "more detail" None;
        Logger.CallInfo "t3" true "done" None])
    (Logger.constructor, Logger.mkWorld None [] []).
Proof.
  apply (X18_debug_messages_are_dropped_by_default
           [Logger.CallDebug "t1" true "detail" None;
            Logger.CallSetLevel "debug";
            Logger.CallDebug "t2" true "more detail" None;
            Logger.CallInfo "t3" true "done" None]
           (Logger.mkWorld None [] [])).
  vm_compute. reflexivity.
Defined.

(* ================================================================== *)
(** ** The scenarios of the design document, run on the model *)

Example Math_round_examples :
  map Math_round [2.5; -2.5; 0.5; -0.5; 0.49999999999999994; -0.3; 7; 1000050000.3999959]%float
  = [3; -2; 1; -0; 0; -0; 7; 1000050000]%float.
Proof. vm_compute. reflexivity. Qed.

Example scenario_arithmetic :
  exists r this',
    analyze (mkClock 0 1 "t") constructor (VArray (map VNumber [3; 6; 9; 12]%float))
    = Normal (r, this') /\
    pattern r = Some arithmetic /\ commonDifference r = Some 3%float /\
    nextNumbers r = Some (map VNumber [15; 18; 21; 24; 27]%float).
Proof. do 2 eexists. split; [vm_compute; reflexivity|]. repeat split; reflexivity. Qed.

Example scenario_geometric :
  exists r this',
    analyze (mkClock 0 1 "t") constructor (VArray (map VNumber [2; 4; 8; 16]%float))
    = Normal (r, this') /\
    pattern r = Some geometric /\ commonRatio r = Some 2%float /\
    nextNumbers r = Some (map VNumber [32; 64; 128; 256; 512]%float).
Proof. do 2 eexists. split; [vm_compute; reflexivity|]. repeat split; reflexivity. Qed.

Example scenario_fibonacci :
  exists r this',
    analyze (mkClock 0 1 "t") constructor (VArray (map VNumber [1; 1; 2; 3; 5; 8]%float))
    = Normal (r, this') /\
    pattern r = Some fibonacci /\
    nextNumbers r = Some (map VNumber [13; 21; 34; 55; 89]%float).
Proof. do 2 eexists. split; [vm_compute; reflexivity|]. repeat split; reflexivity. Qed.

Example scenario_cubes :
  exists r this',
    analyze (mkClock 0 1 "t") constructor (VArray (map VNumber [1; 8; 27; 64]%float))
    = Normal (r, this') /\
    pattern r = Some polynomial /\ degree r = Some 3%nat.
Proof. do 2 eexists. split; [vm_compute; reflexivity|]. repeat split; reflexivity. Qed.

Example scenario_compare :
  exists c this',
    comparSequences (mkClock 0 1 "t") (mkClock 1 2 "u") constructor
      (VArray (map VNumber [2; 4; 6; 8]%float)) (VArray (map VNumber [5; 10; 15; 20]%float))
    = Normal (c, this') /\
    samePattern c = true /\ similarity c = 50%Z.
Proof. do 2 eexists. split; [vm_compute; reflexivity|]. repeat split; reflexivity. Qed.

Example scenario_boundaries :
  map (fun v => validation_error (validateSequence v))
    [VString "not an array"; VArray [VNumber 5]; VArray [];
     VArray [VNumber 1; VString "x"]; VArray [VNumber 1; VNumber 2; VNumber nan; VNumber 4];
     VArray [VNumber 1; VNumber 2; VNumber infinity; VNumber 4]; VArray [VNumber nan]]
  = map (fun k => Some (message k))
      [NotAnArray; TooShort; TooShort; NonNumeric; NonNumeric; NonNumeric; TooShort].
Proof. reflexivity. Qed.

Example scenario_clear :
  exists r this',
    analyze (mkClock 0 1 "t") constructor (VArray (map VNumber [3; 6; 9; 12]%float))
    = Normal (r, this') /\
    getHistory this' = [r] /\
    getHistory (clear this') = [] /\
    getMetrics (clear this') = mkReport 0 0 0 0.
Proof. do 2 eexists. split; [vm_compute; reflexivity|]. repeat split; reflexivity. Qed.

(** Inputs that are not plain lists of numbers. *)

Example scenario_printing :
  JSON_stringify (VArray [VNumber 1; VHole; VNumber 3])
  = JSON_stringify (VArray [VNumber 1; VNull; VNumber 3]) /\
  JSON_stringify (VArray [boxed_number 4; boxed_number 8])
  = JSON_stringify (VArray [VNumber 4; VNumber 8]) /\
  JSON_stringify (boxed_number 4) = JSON_stringify (VNumber 4) /\
  JSON_stringify (VArray [VNumber 1; bigint])
  = Throw "TypeError: Do not know how to serialize a BigInt" /\
  JSON_stringify (cyclic_array [VNumber 1; VNumber 2])
  = Throw "TypeError: Converting circular structure to JSON".
Proof. repeat split; reflexivity. Qed.

Example scenario_empty_slot :
  exists r st r' st',
    analyze (mkClock 0 1 "t") constructor (VArray [VNumber 1; VHole; VNumber 3])
    = Normal (r, st) /\
    success r = true /\ pattern r = Some unknown /\
    analyze (mkClock 2 3 "u") st (VArray [VNumber 1; VNull; VNumber 3])
    = Normal (r', st') /\
    r' = r /\ valid (VArray [VNumber 1; VNull; VNumber 3]) = false /\
    cacheHits (performanceMetrics st') = 1%float /\ getHistory st' = [r].
Proof.
  do 4 eexists. split; [vm_compute; reflexivity|]. split; [reflexivity|].
  split; [reflexivity|]. split; [vm_compute; reflexivity|]. repeat split; reflexivity.
Qed.

Example scenario_raising_comparison :
  let a := VArray [VNumber 4; VNumber 8] in
  let c := CallCompare (mkClock 0 1 "t") (mkClock 2 3 "u") a bigint in
  after c constructor = Throw "TypeError: Do not know how to serialize a BigInt" /\
  List.length (getHistory (state_after c constructor)) = 1%nat.
Proof. split; vm_compute; reflexivity. Qed.
